(** * The Monetag postback endpoint of the kkoin earner bot server

    A shallow embedding of the [/monetag-reward] route of the Express
    server, together with the JavaScript built-ins it relies on
    ([parseInt], [isNaN], truthiness, strict equality) and the part of
    the Firestore client interface it calls (document references,
    [runTransaction] with its retries, [transaction.get/set/update],
    [FieldValue.increment] and the numbers a document holds). *)

From Stdlib Require Import ZArith Lia Bool String Ascii.
From Stdlib Require DecimalPos DecimalN HexadecimalPos HexadecimalN.
From stdpp Require Import base option list gmap strings.

Open Scope Z_scope.

(** ** JavaScript values *)

Module JS.

(** A JavaScript string is a sequence of UTF-16 code units. *)
Abbreviation jsstring := (list N).

(** ASCII literals of the source, as code units. *)
Definition str (s : string) : jsstring :=
  List.map N_of_ascii (list_ascii_of_string s).

(** The Number type, as far as the handler can meet it: [parseInt]
    yields NaN, an integer-valued binary64 number, or an infinity.
    [Finite 0] stands for both zeros, whose sign no comparison of the
    handler observes. *)
Inductive number : Type :=
  | NaN
  | Finite (z : Z)
  | PosInfinity
  | NegInfinity.

#[global] Instance number_eq_dec : EqDecision number.
Proof. solve_decision. Defined.

(** The Number value for a mathematical integer: the nearest binary64
    value, ties to the even significand; what rounds to 2^1024 or more
    is an infinity.  Integers below 2^53 in magnitude are exact. *)
Definition to_binary64 (z : Z) : number :=
  let a := Z.abs z in
  if a <? 2 ^ 53 then Finite z
  else
    let sh := Z.log2 a - 52 in
    let q := Z.shiftr a sh in
    let r := a - Z.shiftl q sh in
    let half := 2 ^ (sh - 1) in
    let q' := if (half <? r) || ((r =? half) && Z.odd q) then q + 1 else q in
    let m := Z.shiftl q' sh in
    if 2 ^ 1024 <=? m
    then (if z <? 0 then NegInfinity else PosInfinity)
    else Finite (Z.sgn z * m).

(** WhiteSpace and LineTerminator code units, stripped by [parseInt]. *)
Definition is_whitespace (c : N) : bool :=
  ((c =? 9) || (c =? 10) || (c =? 11) || (c =? 12) || (c =? 13)
   || (c =? 32) || (c =? 160) || (c =? 5760)
   || ((8192 <=? c) && (c <=? 8202))
   || (c =? 8232) || (c =? 8233) || (c =? 8239) || (c =? 8287)
   || (c =? 12288) || (c =? 65279))%N.

Fixpoint trim_start (s : jsstring) : jsstring :=
  match s with
  | c :: rest => if is_whitespace c then trim_start rest else s
  | [] => []
  end.

(** The value of a code unit as a digit: 0-9, then letters of either
    case for 10-35. *)
Definition digit_value (c : N) : option Z :=
  if ((48 <=? c) && (c <=? 57))%N then Some (Z.of_N c - 48)
  else if ((97 <=? c) && (c <=? 122))%N then Some (Z.of_N c - 87)
  else if ((65 <=? c) && (c <=? 90))%N then Some (Z.of_N c - 55)
  else None.

Definition radix_digit (R : Z) (c : N) : option Z :=
  match digit_value c with
  | Some d => if d <? R then Some d else None
  | None => None
  end.

(** The digits of the longest prefix made of radix-[R] digits. *)
Fixpoint digits_prefix (R : Z) (s : jsstring) : list Z :=
  match s with
  | c :: rest =>
      match radix_digit R c with
      | Some d => d :: digits_prefix R rest
      | None => []
      end
  | [] => []
  end.

Definition mathInt (R : Z) (ds : list Z) : Z :=
  fold_left (fun acc d => acc * R + d) ds 0.

(** ToString of a query parameter: a string, or [undefined]. *)
Definition ToString (v : option jsstring) : jsstring :=
  match v with
  | Some s => s
  | None => str "undefined"
  end.

Definition minus_sign : N := 45.
Definition plus_sign : N := 43.

Definition strip_sign (s : jsstring) : Z * jsstring :=
  match s with
  | c :: rest =>
      if (c =? minus_sign)%N then (-1, rest)
      else if (c =? plus_sign)%N then (1, rest)
      else (1, s)
  | [] => (1, [])
  end.

(** With no radix argument, a leading 0x or 0X selects radix 16 and
    anything else radix 10. *)
Definition strip_prefix (s : jsstring) : Z * jsstring :=
  match s with
  | c0 :: c1 :: rest =>
      if ((c0 =? 48) && ((c1 =? 120) || (c1 =? 88)))%N then (16, rest)
      else (10, s)
  | _ => (10, s)
  end.

(** [parseInt(string)] with the radix left out, as the handler calls
    it. *)
Definition parseInt (v : option jsstring) : number :=
  let inputString := ToString v in
  let trimmed := trim_start inputString in
  let '(sign, unsigned) := strip_sign trimmed in
  let '(R, body) := strip_prefix unsigned in
  match digits_prefix R body with
  | [] => NaN
  | ds => to_binary64 (sign * mathInt R ds)
  end.

Definition isNaN (n : number) : bool :=
  match n with NaN => true | _ => false end.

(** [a <= b] on Numbers; false as soon as an operand is NaN. *)
Definition num_leb (a b : number) : bool :=
  match a, b with
  | NaN, _ | _, NaN => false
  | NegInfinity, _ => true
  | _, PosInfinity => true
  | Finite x, Finite y => x <=? y
  | _, _ => false
  end.

(** [a < b] on Numbers; false as soon as an operand is NaN. *)
Definition num_ltb (a b : number) : bool :=
  match a, b with
  | NaN, _ | _, NaN => false
  | Finite x, Finite y => x <? y
  | NegInfinity, NegInfinity | PosInfinity, _ | _, NegInfinity => false
  | _, _ => true
  end.

(** [!v] for a query parameter: undefined and the empty string are
    falsy, every other string is truthy. *)
Definition not_ (v : option jsstring) : bool :=
  match v with
  | None => true
  | Some [] => true
  | Some (_ :: _) => false
  end.

(** [v !== s] between a query parameter and a string. *)
Definition strict_neq (v : option jsstring) (s : jsstring) : bool :=
  match v with
  | Some s' => negb (bool_decide (s' = s))
  | None => true
  end.

(** [Number.isSafeInteger]. *)
Definition isSafeInteger (n : number) : bool :=
  match n with
  | Finite z => Z.abs z <=? 2 ^ 53 - 1
  | _ => false
  end.

(** The sum of two binary64 numbers that hold integers: the exact sum,
    rounded. *)
Definition binary64_add (a b : number) : number :=
  match a, b with
  | NaN, _ | _, NaN => NaN
  | Finite x, Finite y => to_binary64 (x + y)
  | PosInfinity, NegInfinity | NegInfinity, PosInfinity => NaN
  | PosInfinity, _ | _, PosInfinity => PosInfinity
  | NegInfinity, _ | _, NegInfinity => NegInfinity
  end.

End JS.

Import JS.

(** ** The ledger store (Firestore), as the handler uses it *)

Module Firestore.

Inductive Result (E A : Type) : Type :=
  | Ok (a : A)
  | Throw (e : E).
Arguments Ok {E A} a.
Arguments Throw {E A} e.

#[global] Instance Result_eq_dec {E A : Type} `{EqDecision E, EqDecision A} :
  EqDecision (Result E A).
Proof. solve_decision. Defined.

#[global] Instance Result_ret {E : Type} : MRet (Result E) :=
  fun A (a : A) => Ok a.
#[global] Instance Result_bind {E : Type} : MBind (Result E) :=
  fun A B (k : A -> Result E B) (m : Result E A) =>
    match m with
    | Ok a => k a
    | Throw e => Throw e
    end.

(** *** References

    A reference is a resource path: a list of segments, collections
    and documents in turn.  The client takes the argument of
    [collection] and [doc] as a path relative to the receiver: it
    refuses the empty string and a double slash, splits at the
    slashes, drops empty segments (a leading or trailing slash is
    let through), and refuses the result when it does not end on the
    right kind. *)

Abbreviation ResourcePath := (list jsstring).
Abbreviation DocumentReference := (list jsstring).

Inductive PathError : Type :=
  | EmptyPath          (* "Path must be a non-empty string." *)
  | DoubleSlash        (* "Paths must not contain //." *)
  | NotADocument       (* "... must point to a document ..." *)
  | NotACollection.    (* "... must point to a collection ..." *)

#[global] Instance PathError_eq_dec : EqDecision PathError.
Proof. solve_decision. Defined.

Definition slash : N := 47.

(** [s.split('/')]. *)
Fixpoint split_slash (s : jsstring) : list jsstring :=
  match s with
  | [] => [[]]
  | c :: rest =>
      if (c =? slash)%N then [] :: split_slash rest
      else
        match split_slash rest with
        | seg :: segs => (c :: seg) :: segs
        | [] => [[c]]
        end
  end.

Definition nonempty (s : jsstring) : bool :=
  match s with [] => false | _ :: _ => true end.

(** [ResourcePath.split]. *)
Definition split (relativePath : jsstring) : list jsstring :=
  List.filter nonempty (split_slash relativePath).

(** [resourcePath.indexOf('//') >= 0]. *)
Fixpoint has_double_slash (s : jsstring) : bool :=
  match s with
  | c :: rest =>
      match rest with
      | c' :: _ => ((c =? slash) && (c' =? slash))%N || has_double_slash rest
      | [] => false
      end
  | [] => false
  end.

Definition validateResourcePath (resourcePath : jsstring)
  : Result PathError unit :=
  match resourcePath with
  | [] => Throw EmptyPath
  | _ => if has_double_slash resourcePath then Throw DoubleSlash else Ok tt
  end.

Definition append (path : ResourcePath) (relativePath : jsstring)
  : ResourcePath := path ++ split relativePath.

Definition isDocument (path : ResourcePath) : bool :=
  (0 <? length path)%nat && Nat.even (length path).

Definition isCollection (path : ResourcePath) : bool :=
  Nat.odd (length path).

(** [parent.collection(collectionPath)]; the database itself is the
    empty path. *)
Definition collection (parent : ResourcePath) (collectionPath : jsstring)
  : Result PathError ResourcePath :=
  validateResourcePath collectionPath;;
  let path := append parent collectionPath in
  if isCollection path then Ok path else Throw NotACollection.

(** [parent.doc(documentPath)]. *)
Definition doc (parent : ResourcePath) (documentPath : jsstring)
  : Result PathError DocumentReference :=
  validateResourcePath documentPath;;
  let path := append parent documentPath in
  if isDocument path then Ok path else Throw NotADocument.

(** *** Numbers in documents

    A number in a document is a 64-bit signed integer or a binary64
    number.  The client sends a JavaScript Number as an integer when
    it is a safe integer and as a double otherwise. *)

Definition in_int64 (z : Z) : bool := (- 2 ^ 63 <=? z) && (z <=? 2 ^ 63 - 1).

Record int64 : Type := mkInt64 {
  int64_val : Z;
  int64_ok : Is_true (in_int64 int64_val)
}.

#[global] Instance int64_eq_dec : EqDecision int64.
Proof.
  intros [a Ha] [b Hb]. destruct (decide (a = b)) as [Heq|Hne].
  - left. subst b. f_equal. apply proof_irrel.
  - right. intros [= Heq]. exact (Hne Heq).
Defined.

(** An integer held by a [number] is a binary64 value when rounding
    leaves it as it is. *)
Definition is_binary64 (n : number) : bool :=
  match n with
  | Finite z => bool_decide (to_binary64 z = Finite z)
  | _ => true
  end.

Record double : Type := mkDouble {
  double_val : number;
  double_ok : Is_true (is_binary64 double_val)
}.

#[global] Instance double_eq_dec : EqDecision double.
Proof.
  intros [a Ha] [b Hb]. destruct (decide (a = b)) as [Heq|Hne].
  - left. subst b. f_equal. apply proof_irrel.
  - right. intros [= Heq]. exact (Hne Heq).
Defined.

Definition int64_zero : int64 := {| int64_val := 0; int64_ok := I |}.
Definition double_NaN : double := {| double_val := NaN; double_ok := I |}.

(** The 64-bit integer nearest to [z]: [z] itself in the range, the
    end of the range outside it.  (The last branch is never taken.) *)
Definition saturate (z : Z) : int64 :=
  let c := Z.max (- 2 ^ 63) (Z.min z (2 ^ 63 - 1)) in
  match decide (Is_true (in_int64 c)) with
  | left H => {| int64_val := c; int64_ok := H |}
  | right _ => int64_zero
  end.

(** A Number as a double of the store.  Every Number is a binary64
    value, so the last branch is not taken for a Number that
    [parseInt] or an addition returned. *)
Definition binary64 (n : number) : double :=
  match decide (Is_true (is_binary64 n)) with
  | left H => {| double_val := n; double_ok := H |}
  | right _ => double_NaN
  end.

Inductive Value : Type :=
  | integerValue (i : int64)
  | doubleValue (d : double).

#[global] Instance Value_eq_dec : EqDecision Value.
Proof. solve_decision. Defined.

(** The serializer of the client, on a Number. *)
Definition encodeValue (n : number) : Value :=
  match n with
  | Finite z => if isSafeInteger n then integerValue (saturate z)
                else doubleValue (binary64 n)
  | _ => doubleValue (binary64 n)
  end.

(** The number a field holds, as a mathematical value. *)
Definition numberValue (v : Value) : number :=
  match v with
  | integerValue i => Finite (int64_val i)
  | doubleValue d => double_val d
  end.

(** A field as a double: an integer is converted, rounding to
    nearest. *)
Definition to_double (v : Value) : number :=
  match v with
  | integerValue i => to_binary64 (int64_val i)
  | doubleValue d => double_val d
  end.

(** The store's sum for an increment: in 64-bit integers, stopping at
    the ends of the range, when the field and the operand are both
    integers; in binary64 as soon as one of them is a double. *)
Definition value_add (cur operand : Value) : Value :=
  match cur, operand with
  | integerValue a, integerValue b =>
      integerValue (saturate (int64_val a + int64_val b))
  | _, _ =>
      doubleValue (binary64 (binary64_add (to_double cur) (to_double operand)))
  end.

(** The profile document, with the fields the handler writes. *)
Record UserProfile : Type := mkUserProfile {
  userId : jsstring;
  points : Value;
  referrals : Value;
  claimedTasks : list jsstring;
  lastAdWatchDate : jsstring;
  adsWatchedToday : Value;
  processingWithdrawal : bool
}.

#[global] Instance UserProfile_eq_dec : EqDecision UserProfile.
Proof. solve_decision. Defined.

(** The database: at most one document under each reference. *)
Abbreviation Ledger := (gmap DocumentReference UserProfile).

(** [FieldValue.increment(n)]: the store adds [n], as the client sends
    it, to the current value of the field when the write is applied. *)
Inductive FieldValue : Type :=
  | increment (n : number).

Definition apply_transform (cur : Value) (fv : FieldValue) : Value :=
  match fv with
  | increment n => value_add cur (encodeValue n)
  end.

Definition set_points (p : UserProfile) (v : Value) : UserProfile :=
  {| userId := userId p;
     points := v;
     referrals := referrals p;
     claimedTasks := claimedTasks p;
     lastAdWatchDate := lastAdWatchDate p;
     adsWatchedToday := adsWatchedToday p;
     processingWithdrawal := processingWithdrawal p |}.

(** Writes are buffered by the transaction and applied at commit.
    [WUpdate] is an update of the [points] field, the only field the
    handler updates. *)
Inductive Write : Type :=
  | WSet (ref : DocumentReference) (data : UserProfile)
  | WUpdate (ref : DocumentReference) (points_ : FieldValue).

(** *** Transactions *)

(** Errors of a transaction, by status code. *)
Inductive TxError : Type :=
  | Aborted            (* contention *)
  | Unavailable        (* connectivity *)
  | DeadlineExceeded   (* timeout *)
  | NotFound           (* update of a document that does not exist *)
  | InvalidArgument    (* a document name the store refuses *)
  | PermissionDenied.

#[global] Instance TxError_eq_dec : EqDecision TxError.
Proof. solve_decision. Defined.

(** The errors after which the client runs the transaction again. *)
Definition retryable (e : TxError) : bool :=
  match e with
  | Aborted | Unavailable | DeadlineExceeded => true
  | NotFound | InvalidArgument | PermissionDenied => false
  end.

(** Console output: level and the arguments as passed, template holes
    left unrendered. *)
Inductive LogArg : Type :=
  | LText (s : string)
  | LStr (s : jsstring)
  | LNum (n : number)
  | LErr (e : TxError).
Inductive LogLine : Type :=
  | ConsoleLog (args : list LogArg)
  | ConsoleWarn (args : list LogArg)
  | ConsoleError (args : list LogArg).

(** What the store does to one attempt of a transaction: serve it,
    fail the read the function makes, or refuse the commit. *)
Inductive Attempt : Type :=
  | Serves
  | ReadFails (e : TxError)
  | CommitFails (e : TxError).

#[global] Instance Attempt_eq_dec : EqDecision Attempt.
Proof. solve_decision. Defined.

(** What the store does to the successive attempts of one transaction;
    attempts past the end of the list are served. *)
Abbreviation StoreBehaviour := (list Attempt).

Definition apply_write (db : Ledger) (w : Write) : Result TxError Ledger :=
  match w with
  | WSet ref data => Ok (<[ref := data]> db)
  | WUpdate ref fv =>
      match db !! ref with
      | Some p => Ok (<[ref := set_points p (apply_transform (points p) fv)]> db)
      | None => Throw NotFound
      end
  end.

Fixpoint apply_writes (db : Ledger) (ws : list Write)
  : Result TxError Ledger :=
  match ws with
  | [] => Ok db
  | w :: rest =>
      match apply_write db w with
      | Ok db' => apply_writes db' rest
      | Throw e => Throw e
      end
  end.

(** The state a transaction function threads: the store it reads, what
    the store does to this attempt, its write buffer, and the
    console. *)
Record TxState : Type := mkTxState {
  tx_store : Ledger;
  tx_behaviour : Attempt;
  tx_writes : list Write;
  tx_console : list LogLine
}.

Definition Tx (A : Type) : Type := TxState -> Result TxError A * TxState.

#[global] Instance Tx_ret : MRet Tx := fun A (a : A) st => (Ok a, st).
#[global] Instance Tx_bind : MBind Tx := fun A B (k : A -> Tx B) (m : Tx A) st =>
  match m st with
  | (Ok a, st') => k a st'
  | (Throw e, st') => (Throw e, st')
  end.

(** A document snapshot: [exists_] and the data. *)
Abbreviation DocumentSnapshot := (option UserProfile).
Definition exists_ (d : DocumentSnapshot) : bool :=
  match d with Some _ => true | None => false end.

Definition transaction_get (ref : DocumentReference) : Tx DocumentSnapshot :=
  fun st =>
    match tx_behaviour st with
    | ReadFails e => (Throw e, st)
    | _ => (Ok (tx_store st !! ref), st)
    end.

Definition buffer (w : Write) : Tx unit :=
  fun st =>
    (Ok tt, {| tx_store := tx_store st;
               tx_behaviour := tx_behaviour st;
               tx_writes := tx_writes st ++ [w];
               tx_console := tx_console st |}).

Definition transaction_set (ref : DocumentReference) (data : UserProfile)
  : Tx unit := buffer (WSet ref data).
Definition transaction_update (ref : DocumentReference) (points_ : FieldValue)
  : Tx unit := buffer (WUpdate ref points_).

Definition console_log (args : list LogArg) : Tx unit :=
  fun st =>
    (Ok tt, {| tx_store := tx_store st;
               tx_behaviour := tx_behaviour st;
               tx_writes := tx_writes st;
               tx_console := tx_console st ++ [ConsoleLog args] |}).

(** One attempt: run the function on an empty write buffer, then
    commit its writes all at once.  [out] is what the console holds
    so far. *)
Definition attempt (db : Ledger) (beh : Attempt) (fn : Tx unit)
    (out : list LogLine) : Result TxError Ledger * list LogLine :=
  match fn {| tx_store := db; tx_behaviour := beh;
              tx_writes := []; tx_console := out |} with
  | (Ok tt, st) =>
      match beh with
      | CommitFails e => (Throw e, tx_console st)
      | _ => (apply_writes db (tx_writes st), tx_console st)
      end
  | (Throw e, st) => (Throw e, tx_console st)
  end.

(** The attempts of a transaction.  A failed attempt leaves the store
    as it was; after a retryable error the function is run again, as
    long as attempts are left; the last error is thrown to the
    caller. *)
Fixpoint attempts (retries : nat) (db : Ledger) (sb : StoreBehaviour)
    (fn : Tx unit) (out : list LogLine)
  : Result TxError unit * Ledger * list LogLine :=
  match attempt db (hd Serves sb) fn out with
  | (Ok db', out') => (Ok tt, db', out')
  | (Throw e, out') =>
      match retries with
      | S retries' =>
          if retryable e then attempts retries' db (tl sb) fn out'
          else (Throw e, db, out')
      | O => (Throw e, db, out')
      end
  end.

Definition maxAttempts : nat := 5.

(** [db.runTransaction(fn)]. *)
Definition runTransaction (db : Ledger) (sb : StoreBehaviour)
    (fn : Tx unit) : Result TxError unit * Ledger * list LogLine :=
  attempts (Nat.pred maxAttempts) db sb fn [].

End Firestore.

Import Firestore.

(** ** The Express route *)

Record Config : Type := mkConfig {
  REWARD_ENDPOINT_SECRET : jsstring;
  APP_ID : jsstring
}.

(** [req.query] of the route and [req.ip].  A parameter is a string,
    or [undefined] when the URL leaves it out.  [points_param] is the
    [points] parameter. *)
Record Request : Type := mkRequest {
  user_id : option jsstring;
  secret : option jsstring;
  points_param : option jsstring;
  ip : jsstring
}.

Record Response : Type := mkResponse {
  status : Z;
  body : string
}.

#[global] Instance Response_eq_dec : EqDecision Response.
Proof. solve_decision. Defined.

(** What the handler reads from outside the request: the text of
    [new Date().toDateString()] and how the store treats the attempts
    of its transaction. *)
Record Env : Type := mkEnv {
  toDateString : jsstring;
  store_behaviour : StoreBehaviour
}.

(** What a run of the handler leaves: the response it sent, if it sent
    one, the ledger, and the lines it printed. *)
Record Outcome : Type := mkOutcome {
  response : option Response;
  ledger : Ledger;
  console : list LogLine
}.

(** [db.collection('artifacts').doc(APP_ID).collection('users')
       .doc(user_id).collection('data').doc('profile')]: each call
    may throw. *)
Definition profile_ref (cfg : Config) (uid : jsstring)
  : Result PathError DocumentReference :=
  artifacts ← collection [] (str "artifacts");
  app ← doc artifacts (APP_ID cfg);
  users ← collection app (str "users");
  user ← doc users uid;
  data ← collection user (str "data");
  doc data (str "profile").

(** The function handed to [runTransaction].  The object given to
    [transaction.set] is written as the document it becomes, its
    Numbers encoded by the client. *)
Definition reward_transaction (env : Env) (uid : jsstring)
    (rewardPoints : number) (userDocRef : DocumentReference) : Tx unit :=
  userDoc ← transaction_get userDocRef;
  if negb (exists_ userDoc) then
    transaction_set userDocRef
      {| userId := uid;
         points := encodeValue rewardPoints;
         referrals := encodeValue (Finite 0);
         claimedTasks := [];
         lastAdWatchDate := toDateString env;
         adsWatchedToday := encodeValue (Finite 1);
         processingWithdrawal := false |};;
    console_log [LText "New user created and rewarded: "; LStr uid]
  else
    transaction_update userDocRef (increment rewardPoints);;
    console_log [LText "User "; LStr uid; LText " successfully rewarded ";
                 LNum rewardPoints; LText " points via postback."].

Definition forbidden (req : Request) (db : Ledger) : Outcome :=
  {| response := Some {| status := 403; body := "Invalid secret." |};
     ledger := db;
     console := [ConsoleWarn
                   [LText "SECURITY ALERT: Invalid secret key received from IP: ";
                    LStr (ip req)]] |}.

Definition bad_request (db : Ledger) : Outcome :=
  {| response := Some {| status := 400; body := "Invalid parameters." |};
     ledger := db;
     console := [] |}.

(** The reference is built before the [try]: when the client throws
    there, the promise of the handler is rejected with nothing to
    catch it, and the handler has sent no response and printed
    nothing. *)
Definition unanswered (db : Ledger) : Outcome :=
  {| response := None;
     ledger := db;
     console := [] |}.

(** The [try] block: the transaction and the response that follows
    it. *)
Definition credit (env : Env) (uid : jsstring) (rewardPoints : number)
    (userDocRef : DocumentReference) (db : Ledger) : Outcome :=
  match runTransaction db (store_behaviour env)
          (reward_transaction env uid rewardPoints userDocRef) with
  | (Ok tt, db', out) =>
      {| response := Some {| status := 200; body := "Reward processed." |};
         ledger := db';
         console := out |}
  | (Throw error, db', out) =>
      {| response := Some {| status := 500;
                             body := "Server Error during reward transaction." |};
         ledger := db';
         console := out ++ [ConsoleError
                              [LText "Postback transaction failed for user ";
                               LStr uid; LText ":"; LErr error]] |}
  end.

(** [app.get('/monetag-reward', ...)]. *)
Definition monetag_reward (cfg : Config) (env : Env) (req : Request)
    (db : Ledger) : Outcome :=
  let rewardPoints := parseInt (points_param req) in
  if strict_neq (secret req) (REWARD_ENDPOINT_SECRET cfg) then
    forbidden req db
  else if not_ (user_id req) || isNaN rewardPoints
          || num_leb rewardPoints (Finite 0) then
    bad_request db
  else
    match user_id req with
    | Some uid =>
        match profile_ref cfg uid with
        | Ok userDocRef => credit env uid rewardPoints userDocRef db
        | Throw _ => unanswered db
        end
    | None => bad_request db   (* not reached: undefined is falsy *)
    end.

(** ** Requests in flight

    The handler is an async function: it runs from its first line to
    [await db.runTransaction(...)] without interruption, and resumes
    when the transaction has settled.  Between the two, other requests
    run.  Here the store settles each transaction, with all its
    attempts, as one step; the attempts are taken apart under
    "Attempts in flight" below. *)

(** A request that has arrived, one that waits for its transaction, and
    one whose handler has come to its end, with the response it
    sent. *)
Inductive Task : Type :=
  | Arrived (env : Env) (req : Request)
  | Awaiting (env : Env) (uid : jsstring) (rewardPoints : number)
             (userDocRef : DocumentReference)
  | Responded (res : option Response).

Definition task_step (cfg : Config) (t : Task) (db : Ledger)
  : Task * Ledger * list LogLine :=
  match t with
  | Arrived env req =>
      let rewardPoints := parseInt (points_param req) in
      if strict_neq (secret req) (REWARD_ENDPOINT_SECRET cfg) then
        (Responded (response (forbidden req db)), db, console (forbidden req db))
      else if not_ (user_id req) || isNaN rewardPoints
              || num_leb rewardPoints (Finite 0) then
        (Responded (response (bad_request db)), db, [])
      else
        match user_id req with
        | Some uid =>
            match profile_ref cfg uid with
            | Ok userDocRef => (Awaiting env uid rewardPoints userDocRef, db, [])
            | Throw _ => (Responded (response (unanswered db)), db, [])
            end
        | None => (Responded (response (bad_request db)), db, [])
        end
  | Awaiting env uid rewardPoints userDocRef =>
      let o := credit env uid rewardPoints userDocRef db in
      (Responded (response o), ledger o, console o)
  | Responded res => (t, db, [])
  end.

Record Server : Type := mkServer {
  store : Ledger;
  tasks : list Task;
  output : list LogLine
}.

(** The event loop resumes task [i]. *)
Definition server_step (cfg : Config) (srv : Server) (i : nat) : Server :=
  match tasks srv !! i with
  | Some t =>
      let '(t', db', out) := task_step cfg t (store srv) in
      {| store := db';
         tasks := <[i := t']> (tasks srv);
         output := output srv ++ out |}
  | None => srv
  end.

Definition run (cfg : Config) (schedule : list nat) (srv : Server) : Server :=
  fold_left (server_step cfg) schedule srv.



(** ** Vocabulary of the specification *)

(** The balance a reader finds under a reference: zero where there is
    no profile. *)
Definition balance_of (d : DocumentSnapshot) : number :=
  match d with
  | Some p => numberValue (points p)
  | None => Finite 0
  end.

Definition ok_response : Response :=
  {| status := 200; body := "Reward processed." |}.

(** The profile written for a user seen for the first time. *)
Definition new_profile (env : Env) (uid : jsstring) (rewardPoints : number)
  : UserProfile :=
  {| userId := uid;
     points := encodeValue rewardPoints;
     referrals := encodeValue (Finite 0);
     claimedTasks := [];
     lastAdWatchDate := toDateString env;
     adsWatchedToday := encodeValue (Finite 1);
     processingWithdrawal := false |}.

(** The profile after a credit of [rewardPoints]. *)
Definition credited (p : UserProfile) (rewardPoints : number) : UserProfile :=
  set_points p (value_add (points p) (encodeValue rewardPoints)).

(** An integer field of a document. *)
Definition integer (z : Z) : Value := integerValue (saturate z).

(** A path segment: a non-empty string without a slash. *)
Definition plain (s : jsstring) : bool :=
  nonempty s && forallb (fun c => negb (c =? slash)%N) s.

(** The magnitude that rounding to binary64 gives to a magnitude. *)
Definition rounded (a : Z) : Z :=
  if a <? 2 ^ 53 then a
  else
    let sh := Z.log2 a - 52 in
    let q := Z.shiftr a sh in
    let r := a - Z.shiftl q sh in
    let half := 2 ^ (sh - 1) in
    let q' := if (half <? r) || ((r =? half) && Z.odd q) then q + 1 else q in
    Z.shiftl q' sh.

(** The error an attempt ends with, if it fails. *)
Definition attempt_error (a : Attempt) : option TxError :=
  match a with
  | Serves => None
  | ReadFails e | CommitFails e => Some e
  end.

(** The error a transaction that only reads and buffers writes ends
    with: none when one of its attempts is served, each one before
    having failed with a retryable error; else the error of the first
    attempt that fails for good, or of the last attempt. *)
Fixpoint thrown (retries : nat) (sb : StoreBehaviour) : option TxError :=
  match attempt_error (hd Serves sb) with
  | None => None
  | Some e =>
      match retries with
      | S retries' => if retryable e then thrown retries' (tl sb) else Some e
      | O => Some e
      end
  end.

(** How many of its attempts get past the read. *)
Fixpoint past_read (retries : nat) (sb : StoreBehaviour) : nat :=
  let further (e : TxError) :=
    match retries with
    | S retries' => if retryable e then past_read retries' (tl sb) else O
    | O => O
    end in
  match hd Serves sb with
  | Serves => 1
  | ReadFails e => further e
  | CommitFails e => S (further e)
  end.

(** The store serves the transaction, at the first attempt or at a
    later one. *)
Definition served (sb : StoreBehaviour) : Prop :=
  thrown (Nat.pred maxAttempts) sb = None.

#[global] Instance served_dec (sb : StoreBehaviour) : Decision (served sb).
Proof. unfold served. apply _. Defined.

(** The line the transaction function prints, for a user with or
    without a profile. *)
Definition reward_line (uid : jsstring) (rewardPoints : number)
    (userDoc : DocumentSnapshot) : LogLine :=
  match userDoc with
  | None => ConsoleLog [LText "New user created and rewarded: "; LStr uid]
  | Some _ =>
      ConsoleLog [LText "User "; LStr uid; LText " successfully rewarded ";
                  LNum rewardPoints; LText " points via postback."]
  end.

Definition failure_line (uid : jsstring) (e : TxError) : LogLine :=
  ConsoleError [LText "Postback transaction failed for user ";
                LStr uid; LText ":"; LErr e].

(** What the transaction writes when it commits. *)
Definition rewarded (env : Env) (uid : jsstring) (rewardPoints : number)
    (userDocRef : DocumentReference) (db : Ledger) : Ledger :=
  match db !! userDocRef with
  | None => <[userDocRef := new_profile env uid rewardPoints]> db
  | Some p => <[userDocRef := credited p rewardPoints]> db
  end.

Definition is_decimal_digit (c : N) : bool := ((48 <=? c) && (c <=? 57))%N.

(** A numeric [points] value, in the specification's sense
    ([points=<integer>]): decimal digits, at least one, after an
    optional sign. *)
Definition numeric (s : jsstring) : bool :=
  let digits := snd (strip_sign s) in
  match digits with
  | [] => false
  | _ => forallb is_decimal_digit digits
  end.

(** A points value that does not start a number: after leading white
    space, an optional sign and an optional 0x, no digit follows. *)
Definition no_leading_integer (v : option jsstring) : bool :=
  let '(_, unsigned) := strip_sign (trim_start (ToString v)) in
  let '(R, rest) := strip_prefix unsigned in
  match rest with
  | c :: _ => negb (bool_decide (is_Some (radix_digit R c)))
  | [] => true
  end.

(** The decimal text of a natural number. *)
Fixpoint uint_units (d : Decimal.uint) : jsstring :=
  match d with
  | Decimal.Nil => []
  | Decimal.D0 d => 48%N :: uint_units d
  | Decimal.D1 d => 49%N :: uint_units d
  | Decimal.D2 d => 50%N :: uint_units d
  | Decimal.D3 d => 51%N :: uint_units d
  | Decimal.D4 d => 52%N :: uint_units d
  | Decimal.D5 d => 53%N :: uint_units d
  | Decimal.D6 d => 54%N :: uint_units d
  | Decimal.D7 d => 55%N :: uint_units d
  | Decimal.D8 d => 56%N :: uint_units d
  | Decimal.D9 d => 57%N :: uint_units d
  end.

Definition decimal (p : Z) : jsstring := uint_units (N.to_uint (Z.to_N p)).

(** A Number above zero: what passes [rewardPoints <= 0]. *)
Definition positive_number (n : number) : Prop :=
  match n with
  | Finite z => 0 < z
  | PosInfinity => True
  | _ => False
  end.

(** A balance that is not negative. *)
Definition nonnegative (n : number) : Prop :=
  match n with
  | Finite z => 0 <= z
  | PosInfinity => True
  | _ => False
  end.

(** ** Sample data *)

Module Sample.

Definition cfg : Config :=
  {| REWARD_ENDPOINT_SECRET := str "s3cret"; APP_ID := str "kkoin-earner" |}.

Definition today : jsstring := str "Tue Nov 03 2026".

(** A store that serves every attempt. *)
Definition env : Env :=
  {| toDateString := today; store_behaviour := [] |}.

(** A store that cannot be reached: every read fails. *)
Definition env_unreachable : Env :=
  {| toDateString := today;
     store_behaviour := List.repeat (ReadFails Unavailable) 5 |}.

(** A store that refuses every commit. *)
Definition env_contended : Env :=
  {| toDateString := today;
     store_behaviour := List.repeat (CommitFails Aborted) 5 |}.

(** A store that refuses the first two commits and takes the third. *)
Definition env_contended_twice : Env :=
  {| toDateString := today;
     store_behaviour := [CommitFails Aborted; CommitFails Aborted] |}.

(** A store that denies access. *)
Definition env_denied : Env :=
  {| toDateString := today;
     store_behaviour := [ReadFails PermissionDenied] |}.

Definition postback_for (uid : string) (points_ : option jsstring) : Request :=
  {| user_id := Some (str uid);
     secret := Some (str "s3cret");
     points_param := points_;
     ip := str "203.0.113.7" |}.

Definition postback (points_ : option jsstring) : Request :=
  postback_for "u1" points_.

(** [/monetag-reward?user_id=u1&secret=s3cret&points=50] *)
Definition req_50 : Request := postback (Some (str "50")).
Definition req_20 : Request := postback (Some (str "20")).
Definition req_1 : Request := postback (Some (str "1")).
Definition req_50pts : Request := postback (Some (str "50pts")).
Definition req_2p53 : Request :=
  postback (Some (str "9007199254740992")).
Definition req_2p53_plus_1 : Request :=
  postback (Some (str "9007199254740993")).
Definition req_2p53_plus_2 : Request :=
  postback (Some (str "9007199254740994")).

(** [/monetag-reward?user_id=u1&points=50], the secret left out. *)
Definition req_no_secret : Request :=
  {| user_id := Some (str "u1");
     secret := None;
     points_param := Some (str "50");
     ip := str "203.0.113.7" |}.

(** [/monetag-reward?user_id=a/b&secret=s3cret&points=50] *)
Definition req_slash : Request := postback_for "a/b" (Some (str "50")).

(** A wrong secret, no [user_id], and [points=-3]. *)
Definition req_intruder : Request :=
  {| user_id := None;
     secret := Some (str "guess");
     points_param := Some (str "-3");
     ip := str "198.51.100.9" |}.

(** [artifacts/kkoin-earner/users/<uid>/data/profile] *)
Definition profile_of (uid : string) : DocumentReference :=
  [str "artifacts"; str "kkoin-earner"; str "users"; str uid;
   str "data"; str "profile"].

Definition u1 : DocumentReference := profile_of "u1".

Definition profile_with (uid : string) (points_ : Value) : UserProfile :=
  {| userId := str uid;
     points := points_;
     referrals := integer 0;
     claimedTasks := [];
     lastAdWatchDate := str "Mon Nov 02 2026";
     adsWatchedToday := integer 1;
     processingWithdrawal := false |}.

(** The ledger after [u1] has been created with 50 points. *)
Definition db_u1 : Ledger := {[ u1 := profile_with "u1" (integer 50) ]}.

End Sample.

(** ** Start of the process *)

(** [process.env]: the variables that are set, by name. *)
Abbreviation ProcessEnv := (gmap string jsstring).

Module Startup.

(** The four constants read at the top of the server file; a variable
    that is not set reads as [undefined]. *)
Record Constants : Type := mkConstants {
  BOT_TOKEN : option jsstring;
  WEB_APP_URL : option jsstring;
  REWARD_ENDPOINT_SECRET : option jsstring;
  FIREBASE_SERVICE_KEY : option jsstring
}.

Definition read (penv : ProcessEnv) : Constants :=
  {| BOT_TOKEN := penv !! "BOT_TOKEN";
     WEB_APP_URL := penv !! "WEB_APP_URL";
     REWARD_ENDPOINT_SECRET := penv !! "REWARD_ENDPOINT_SECRET";
     FIREBASE_SERVICE_KEY := penv !! "FIREBASE_SERVICE_KEY" |}.

(** The process goes on past the check, or ends with [process.exit]. *)
Inductive Boot : Type :=
  | Exit (code : Z) (out : list LogLine)
  | Proceed (c : Constants).

(** "Check for critical variables". *)
Definition check (c : Constants) : Boot :=
  if not_ (BOT_TOKEN c) || not_ (WEB_APP_URL c)
     || not_ (REWARD_ENDPOINT_SECRET c) || not_ (FIREBASE_SERVICE_KEY c)
  then
    Exit 1
      [ConsoleError
         [LText "CRITICAL ERROR: Missing one or more environment variables."];
       ConsoleError
         [LText "Required: BOT_TOKEN, WEB_APP_URL, REWARD_ENDPOINT_SECRET, FIREBASE_SERVICE_KEY."]]
  else Proceed c.

Definition boot (penv : ProcessEnv) : Boot := check (read penv).

End Startup.

(** The same check in [index.js], the server that only runs the bot. *)
Module BotOnly.

Record Constants : Type := mkConstants {
  BOT_TOKEN : option jsstring;
  WEB_APP_URL : option jsstring
}.

Definition read (penv : ProcessEnv) : Constants :=
  {| BOT_TOKEN := penv !! "BOT_TOKEN";
     WEB_APP_URL := penv !! "WEB_APP_URL" |}.

Inductive Boot : Type :=
  | Exit (code : Z) (out : list LogLine)
  | Proceed (c : Constants).

Definition check (c : Constants) : Boot :=
  if not_ (BOT_TOKEN c) || not_ (WEB_APP_URL c)
  then
    Exit 1
      [ConsoleError
         [LText "ERROR: BOT_TOKEN and WEB_APP_URL must be set in your environment variables."]]
  else Proceed c.

Definition boot (penv : ProcessEnv) : Boot := check (read penv).

End BotOnly.

(** ** Requests one after the other *)

(** The handler run on each request in turn, each on the ledger the
    one before left: the responses in order, and the last ledger. *)
Definition handle_all (cfg : Config) (jobs : list (Env * Request))
    (db : Ledger) : list (option Response) * Ledger :=
  fold_left
    (fun acc job =>
       let o := monetag_reward cfg (fst job) (snd job) (snd acc) in
       (fst acc ++ [response o], ledger o))
    jobs ([], db).

(** Requests that have all just arrived, each with its own
    surroundings. *)
Definition arrived (jobs : list (Env * Request)) : list Task :=
  List.map (fun job => Arrived (fst job) (snd job)) jobs.



(** The amount a request asks for. *)
Definition amount (req : Request) : number := parseInt (points_param req).

(** The amount as an integer, where it is one. *)
Definition finite_amount (req : Request) : Z :=
  match amount req with
  | Finite z => z
  | _ => 0
  end.

(** The sum of the amounts a list of requests asks for. *)
Definition requested (jobs : list (Env * Request)) : Z :=
  foldr (fun job acc => finite_amount (snd job) + acc) 0 jobs.

(** A request that passes the checks for user [uid] with an amount
    that is a positive safe integer, and that the store will serve. *)
Definition credit_job (cfg : Config) (uid : jsstring) (job : Env * Request)
  : Prop :=
  served (store_behaviour (fst job)) /\
  secret (snd job) = Some (REWARD_ENDPOINT_SECRET cfg) /\
  user_id (snd job) = Some uid /\ uid <> [] /\
  exists p, amount (snd job) = Finite p /\ 0 < p <= 2 ^ 53 - 1.

(** A balance held as an integer: [b], or no profile and [b = 0]. *)
Definition integer_balance (d : DocumentSnapshot) (b : Z) : Prop :=
  match d with
  | Some p => exists i, points p = integerValue i /\ int64_val i = b
  | None => b = 0
  end.

(** ** Texts of the [points] parameter *)

Inductive Sign : Type := NoSign | Plus | Minus.

Definition sign_units (s : Sign) : jsstring :=
  match s with
  | NoSign => []
  | Plus => [plus_sign]
  | Minus => [minus_sign]
  end.

Definition sign_value (s : Sign) : Z :=
  match s with
  | Minus => -1
  | _ => 1
  end.

Definition starts_with (P : N -> bool) (s : jsstring) : bool :=
  match s with
  | c :: _ => P c
  | [] => false
  end.

Definition is_x (c : N) : bool := ((c =? 120) || (c =? 88))%N.

Definition is_hex_digit (c : N) : bool :=
  match radix_digit 16 c with Some _ => true | None => false end.

(** The hexadecimal text of a natural number, in lower case. *)
Fixpoint hex_uint_units (d : Hexadecimal.uint) : jsstring :=
  match d with
  | Hexadecimal.Nil => []
  | Hexadecimal.D0 d => 48%N :: hex_uint_units d
  | Hexadecimal.D1 d => 49%N :: hex_uint_units d
  | Hexadecimal.D2 d => 50%N :: hex_uint_units d
  | Hexadecimal.D3 d => 51%N :: hex_uint_units d
  | Hexadecimal.D4 d => 52%N :: hex_uint_units d
  | Hexadecimal.D5 d => 53%N :: hex_uint_units d
  | Hexadecimal.D6 d => 54%N :: hex_uint_units d
  | Hexadecimal.D7 d => 55%N :: hex_uint_units d
  | Hexadecimal.D8 d => 56%N :: hex_uint_units d
  | Hexadecimal.D9 d => 57%N :: hex_uint_units d
  | Hexadecimal.Da d => 97%N :: hex_uint_units d
  | Hexadecimal.Db d => 98%N :: hex_uint_units d
  | Hexadecimal.Dc d => 99%N :: hex_uint_units d
  | Hexadecimal.Dd d => 100%N :: hex_uint_units d
  | Hexadecimal.De d => 101%N :: hex_uint_units d
  | Hexadecimal.Df d => 102%N :: hex_uint_units d
  end.

Definition hexadecimal (p : Z) : jsstring :=
  hex_uint_units (N.to_hex_uint (Z.to_N p)).

(** The request with another [points] parameter. *)
Definition with_points (req : Request) (v : option jsstring) : Request :=
  {| user_id := user_id req;
     secret := secret req;
     points_param := v;
     ip := ip req |}.


(** Every profile in the ledger is kept under the reference the client
    builds from its [userId]. *)
Definition profiles_named (cfg : Config) (db : Ledger) : Prop :=
  forall ref p, db !! ref = Some p -> profile_ref cfg (userId p) = Ok ref.

(** Two states of a profile that differ in [points] at most. *)
Definition same_but_points (p p' : UserProfile) : Prop :=
  userId p' = userId p /\
  referrals p' = referrals p /\
  claimedTasks p' = claimedTasks p /\
  lastAdWatchDate p' = lastAdWatchDate p /\
  adsWatchedToday p' = adsWatchedToday p /\
  processingWithdrawal p' = processingWithdrawal p.


(** ** Sample server and traffic *)

Module Scenario.

Definition penv : ProcessEnv :=
  <["BOT_TOKEN"%string := str "110201543:AAHdqTcvCH1vGWJxfSeofSAs0K5PALDsaw"]>
    (<["WEB_APP_URL"%string := str "https://kkoin.example/app"]>
       (<["REWARD_ENDPOINT_SECRET"%string := str "s3cret"]>
          (<["FIREBASE_SERVICE_KEY"%string := str "eyJwcm9qZWN0X2lkIjoia2tvaW4ifQ=="]>
             ∅))).

Definition credit_of (uid points_ : string) : Request :=
  Sample.postback_for uid (Some (str points_)).

(** Two credits to [u1], one to [u2], an intruder, and a credit to
    [a/b], all in flight. *)
Definition mixed : list (Env * Request) :=
  [(Sample.env, credit_of "u1" "50");
   (Sample.env, credit_of "u2" "7");
   (Sample.env, Sample.req_intruder);
   (Sample.env_contended, credit_of "u1" "20");
   (Sample.env, Sample.req_slash)].

(** Three requests in flight, and a schedule on which all three read
    before any commits: the first to commit creates the profile, the
    two others are refused and run again. *)
Definition three : list Env := [Sample.env; Sample.env; Sample.env].

Definition race : list nat :=
  [0; 1; 2; 0; 1; 2; 0; 1; 2; 1; 2; 1; 2; 2; 2]%nat.

(** A schedule on which three requests read together, and the second
    is resumed until it is through. *)
Definition patient : list nat :=
  [0; 1; 2; 0; 1; 2; 0; 1; 2; 1; 1; 1; 1; 2; 2; 1; 1; 1; 1]%nat.


(** A schedule that takes three requests one after the other. *)
Definition in_turn : list nat := [0; 0; 0; 1; 1; 1; 2; 2; 2]%nat.

(** Credits of 50, 20 and 5 to [u1]. *)
Definition credits : list (Env * Request) :=
  [(Sample.env, credit_of "u1" "50");
   (Sample.env_contended_twice, credit_of "u1" "20");
   (Sample.env, credit_of "u1" "5")].

End Scenario.

(** ** Attempts in flight

    A closer look at requests in flight together.  An attempt of a
    transaction takes two steps of the store, the read and the commit,
    and other requests run in between.  The store keeps a version of
    each document, which every write to the document advances, and
    refuses with ABORTED the commit of an attempt that read a document
    written since; the client then runs the function again, as after
    any retryable error. *)

Module Contention.

(** A request that has arrived; one about to start an attempt, with
    what the store will do to its attempts from here on and the
    retries it has left; one that has run the transaction function,
    with the version it read and the writes it buffered; and one whose
    handler has come to its end. *)
Inductive Stage : Type :=
  | Received (env : Env) (req : Request)
  | Reads (env : Env) (uid : jsstring) (rewardPoints : number)
          (userDocRef : DocumentReference)
          (sb : StoreBehaviour) (retries : nat)
  | Commits (env : Env) (uid : jsstring) (rewardPoints : number)
            (userDocRef : DocumentReference)
            (sb : StoreBehaviour) (retries : nat)
            (seen : nat) (writes : list Write)
  | Settled (res : option Response).

Abbreviation Versions := (gmap DocumentReference nat).

Definition version_of (vs : Versions) (ref : DocumentReference) : nat :=
  default O (vs !! ref).

Definition write_ref (w : Write) : DocumentReference :=
  match w with
  | WSet ref _ => ref
  | WUpdate ref _ => ref
  end.

(** Every document written gets a new version. *)
Definition advance (vs : Versions) (ws : list Write) : Versions :=
  fold_left (fun vs w => <[write_ref w := S (version_of vs (write_ref w))]> vs)
    ws vs.

(** After a failed attempt: another attempt, or the [catch] block of
    the handler. *)
Definition after_failure (env : Env) (uid : jsstring) (rewardPoints : number)
    (userDocRef : DocumentReference) (sb : StoreBehaviour) (retries : nat)
    (e : TxError) : Stage * list LogLine :=
  let caught :=
    (Settled (Some {| status := 500;
                      body := "Server Error during reward transaction." |}),
     [ConsoleError [LText "Postback transaction failed for user ";
                    LStr uid; LText ":"; LErr e]]) in
  match retries with
  | S retries' =>
      if retryable e
      then (Reads env uid rewardPoints userDocRef (tl sb) retries', [])
      else caught
  | O => caught
  end.

Definition stage_step (cfg : Config) (t : Stage) (db : Ledger) (vs : Versions)
  : Stage * Ledger * Versions * list LogLine :=
  match t with
  | Received env req =>
      let rewardPoints := parseInt (points_param req) in
      if strict_neq (secret req) (REWARD_ENDPOINT_SECRET cfg) then
        (Settled (response (forbidden req db)), db, vs,
         console (forbidden req db))
      else if not_ (user_id req) || isNaN rewardPoints
              || num_leb rewardPoints (Finite 0) then
        (Settled (response (bad_request db)), db, vs, [])
      else
        match user_id req with
        | Some uid =>
            match profile_ref cfg uid with
            | Ok userDocRef =>
                (Reads env uid rewardPoints userDocRef (store_behaviour env)
                   (Nat.pred maxAttempts), db, vs, [])
            | Throw _ => (Settled (response (unanswered db)), db, vs, [])
            end
        | None => (Settled (response (bad_request db)), db, vs, [])
        end
  | Reads env uid rewardPoints userDocRef sb retries =>
      match reward_transaction env uid rewardPoints userDocRef
              {| tx_store := db; tx_behaviour := hd Serves sb;
                 tx_writes := []; tx_console := [] |} with
      | (Ok tt, st) =>
          (Commits env uid rewardPoints userDocRef sb retries
             (version_of vs userDocRef) (tx_writes st),
           db, vs, tx_console st)
      | (Throw e, st) =>
          let '(t', out) :=
            after_failure env uid rewardPoints userDocRef sb retries e in
          (t', db, vs, tx_console st ++ out)
      end
  | Commits env uid rewardPoints userDocRef sb retries seen writes =>
      let failed (e : TxError) :=
        let '(t', out) :=
          after_failure env uid rewardPoints userDocRef sb retries e in
        (t', db, vs, out) in
      match hd Serves sb with
      | CommitFails e => failed e
      | _ =>
          if decide (version_of vs userDocRef = seen) then
            match apply_writes db writes with
            | Ok db' =>
                (Settled (Some {| status := 200;
                                  body := "Reward processed." |}),
                 db', advance vs writes, [])
            | Throw e => failed e
            end
          else failed Aborted
      end
  | Settled res => (t, db, vs, [])
  end.

Record Server : Type := mkServer {
  store : Ledger;
  versions : Versions;
  stages : list Stage;
  output : list LogLine
}.

(** The event loop resumes request [i]. *)
Definition server_step (cfg : Config) (srv : Server) (i : nat) : Server :=
  match stages srv !! i with
  | Some t =>
      let '(t', db', vs', out) :=
        stage_step cfg t (store srv) (versions srv) in
      {| store := db';
         versions := vs';
         stages := <[i := t']> (stages srv);
         output := output srv ++ out |}
  | None => srv
  end.

Definition run (cfg : Config) (schedule : list nat) (srv : Server) : Server :=
  fold_left (server_step cfg) schedule srv.

(** The same request arriving once for each of [envs]. *)
Definition arrivals (envs : list Env) (req : Request) : list Stage :=
  List.map (fun env => Received env req) envs.

Definition start (db : Ledger) (ts : list Stage) : Server :=
  {| store := db; versions := ∅; stages := ts; output := [] |}.

Definition is_credited (t : Stage) : bool :=
  match t with
  | Settled (Some r) => bool_decide (r = ok_response)
  | _ => false
  end.

(** How many requests have been answered 200. *)
Definition credited_count (ts : list Stage) : nat :=
  length (List.filter is_credited ts).


(** The writes the transaction function buffers when it reads
    [userDoc]. *)
Definition reward_writes (env : Env) (uid : jsstring) (rewardPoints : number)
    (userDocRef : DocumentReference) (userDoc : DocumentSnapshot)
  : list Write :=
  match userDoc with
  | None => [WSet userDocRef (new_profile env uid rewardPoints)]
  | Some _ => [WUpdate userDocRef (increment rewardPoints)]
  end.

(** A postback that passes the checks for user [uid], with an amount
    that is a positive safe integer. *)
Definition postback_job (cfg : Config) (uid : jsstring) (job : Env * Request)
  : Prop :=
  secret (snd job) = Some (REWARD_ENDPOINT_SECRET cfg) /\
  user_id (snd job) = Some uid /\ uid <> [] /\
  exists p, amount (snd job) = Finite p /\ 0 < p <= 2 ^ 53 - 1.

(** A stage that request [job], a credit to the profile under [ref],
    may be at.  An attempt that waits for its commit has read a
    version that is not ahead of the store, and if the document has
    not been written since, its writes are those for the document as
    it is. *)
Definition credit_stage (uid : jsstring) (ref : DocumentReference)
    (db : Ledger) (vs : Versions) (job : Env * Request) (t : Stage) : Prop :=
  match t with
  | Received _ req => req = snd job
  | Reads _ uid' n ref' _ _ =>
      uid' = uid /\ n = amount (snd job) /\ ref' = ref
  | Commits env uid' n ref' _ _ seen ws =>
      uid' = uid /\ n = amount (snd job) /\ ref' = ref /\
      (seen <= version_of vs ref)%nat /\
      (seen = version_of vs ref ->
       ws = reward_writes env uid n ref (db !! ref))
  | Settled res =>
      res = Some ok_response \/
      res = Some {| status := 500;
                    body := "Server Error during reward transaction." |}
  end.

(** The sum of the amounts of the requests answered 200. *)
Definition credited_sum (jobs : list (Env * Request)) (ts : list Stage) : Z :=
  foldr Z.add 0
    (zip_with (fun job t => if is_credited t then finite_amount (snd job)
                            else 0)
       jobs ts).

(** The balance under [ref] counts the credits answered 200, and no
    other document has changed since [db0]. *)
Definition counted (uid : jsstring) (b0 : Z) (ref : DocumentReference)
    (db0 : Ledger) (jobs : list (Env * Request)) (srv : Server) : Prop :=
  Forall2 (credit_stage uid ref (store srv) (versions srv))
    jobs (stages srv) /\
  integer_balance (store srv !! ref) (b0 + credited_sum jobs (stages srv)) /\
  (forall ref', ref' <> ref -> store srv !! ref' = db0 !! ref').

(** Requests that have all just arrived, each with its own
    surroundings. *)
Definition arrived (jobs : list (Env * Request)) : list Stage :=
  List.map (fun job => Received (fst job) (snd job)) jobs.


End Contention.

(** * Properties *)

(** ** The checks of the handler *)

Lemma strict_neq_false (v : option jsstring) (s : jsstring) :
  strict_neq v s = false <-> v = Some s.
Proof.
  destruct v as [s'|]; simpl; [|split; discriminate].
  rewrite negb_false_iff, bool_decide_eq_true. split; congruence.
Qed.

Lemma strict_neq_true (v : option jsstring) (s : jsstring) :
  strict_neq v s = true <-> v <> Some s.
Proof.
  rewrite <- not_false_iff_true, strict_neq_false. tauto.
Qed.

Lemma not_false (v : option jsstring) :
  not_ v = false <-> exists uid, v = Some uid /\ uid <> [].
Proof.
  destruct v as [[|c s]|]; simpl; split; try discriminate.
  - intros (uid & [= <-] & Hne). congruence.
  - intros _. exists (c :: s). split; [reflexivity | discriminate].
  - reflexivity.
  - intros (uid & Heq & _). discriminate.
Qed.

Lemma range_check_false (n : number) :
  isNaN n || num_leb n (Finite 0) = false <-> positive_number n.
Proof.
  destruct n as [|z| |]; simpl; try (split; [discriminate | tauto]);
    try tauto.
  rewrite Z.leb_gt. tauto.
Qed.

Lemma parameters_check_false (req : Request) :
  not_ (user_id req) || isNaN (parseInt (points_param req))
    || num_leb (parseInt (points_param req)) (Finite 0) = false
  <-> (exists uid, user_id req = Some uid /\ uid <> []) /\
      positive_number (parseInt (points_param req)).
Proof.
  rewrite <- orb_assoc, orb_false_iff, not_false, range_check_false.
  reflexivity.
Qed.


(** A validated request whose reference the client builds reaches the
    transaction. *)
Lemma monetag_reward_validated (cfg : Config) (env : Env) (req : Request)
    (db : Ledger) (uid : jsstring) (userDocRef : DocumentReference) :
  secret req = Some (REWARD_ENDPOINT_SECRET cfg) ->
  user_id req = Some uid -> uid <> [] ->
  positive_number (parseInt (points_param req)) ->
  profile_ref cfg uid = Ok userDocRef ->
  monetag_reward cfg env req db
  = credit env uid (parseInt (points_param req)) userDocRef db.
Proof.
  intros Hs Hu Hne Hp Href. unfold monetag_reward.
  apply strict_neq_false in Hs. rewrite Hs.
  assert (Hchk : not_ (user_id req) || isNaN (parseInt (points_param req))
                 || num_leb (parseInt (points_param req)) (Finite 0) = false).
  { apply parameters_check_false. split; [exists uid; auto | exact Hp]. }
  rewrite Hchk, Hu, Href. reflexivity.
Qed.

(** A validated request whose reference the client refuses to build is
    left without a response. *)
Lemma monetag_reward_unanswered (cfg : Config) (env : Env) (req : Request)
    (db : Ledger) (uid : jsstring) (e : PathError) :
  secret req = Some (REWARD_ENDPOINT_SECRET cfg) ->
  user_id req = Some uid -> uid <> [] ->
  positive_number (parseInt (points_param req)) ->
  profile_ref cfg uid = Throw e ->
  monetag_reward cfg env req db = unanswered db.
Proof.
  intros Hs Hu Hne Hp Href. unfold monetag_reward.
  apply strict_neq_false in Hs. rewrite Hs.
  assert (Hchk : not_ (user_id req) || isNaN (parseInt (points_param req))
                 || num_leb (parseInt (points_param req)) (Finite 0) = false).
  { apply parameters_check_false. split; [exists uid; auto | exact Hp]. }
  rewrite Hchk, Hu, Href. reflexivity.
Qed.

Lemma secret_mismatch_unchanged (cfg : Config) (env : Env) (req : Request)
    (db : Ledger) :
  secret req <> Some (REWARD_ENDPOINT_SECRET cfg) ->
  monetag_reward cfg env req db = forbidden req db.
Proof.
  intros Hs. apply strict_neq_true in Hs.
  unfold monetag_reward. rewrite Hs. reflexivity.
Qed.

(** ** The transaction *)

(** One attempt of the reward transaction. *)
Lemma attempt_reward (env : Env) (uid : jsstring) (n : number)
    (userDocRef : DocumentReference) (db : Ledger) (beh : Attempt)
    (out : list LogLine) :
  attempt db beh (reward_transaction env uid n userDocRef) out
  = match beh with
    | Serves =>
        (Ok (rewarded env uid n userDocRef db),
         out ++ [reward_line uid n (db !! userDocRef)])
    | ReadFails e => (Throw e, out)
    | CommitFails e =>
        (Throw e, out ++ [reward_line uid n (db !! userDocRef)])
    end.
Proof.
  unfold attempt, reward_transaction, rewarded, mbind, Tx_bind,
    transaction_get.
  destruct beh as [|e|e]; cbn [tx_behaviour tx_store]; [|reflexivity|];
    destruct (db !! userDocRef) as [p|] eqn:Hdb; simpl;
    rewrite ?Hdb; reflexivity.
Qed.

(** All attempts of the reward transaction: how it ends, what it leaves
    and what it prints. *)
Lemma attempts_reward (env : Env) (uid : jsstring) (n : number)
    (userDocRef : DocumentReference) (db : Ledger) (retries : nat)
    (sb : StoreBehaviour) (out : list LogLine) :
  attempts retries db sb (reward_transaction env uid n userDocRef) out
  = (match thrown retries sb with None => Ok tt | Some e => Throw e end,
     match thrown retries sb with
     | None => rewarded env uid n userDocRef db
     | Some _ => db
     end,
     out ++ List.repeat (reward_line uid n (db !! userDocRef))
              (past_read retries sb)).
Proof.
  revert sb out.
  induction retries as [|retries IH]; intros sb out;
    cbn [attempts thrown past_read]; rewrite attempt_reward;
    destruct (hd Serves sb) as [|e|e]; cbn [attempt_error List.repeat];
    rewrite ?app_nil_r; try reflexivity.
  - destruct (retryable e); [|rewrite app_nil_r; reflexivity].
    rewrite IH. reflexivity.
  - destruct (retryable e); [|reflexivity].
    rewrite IH, <- app_assoc. reflexivity.
Qed.

Lemma runTransaction_reward (env : Env) (uid : jsstring) (n : number)
    (userDocRef : DocumentReference) (db : Ledger) (sb : StoreBehaviour) :
  runTransaction db sb (reward_transaction env uid n userDocRef)
  = (match thrown (Nat.pred maxAttempts) sb with
     | None => Ok tt
     | Some e => Throw e
     end,
     match thrown (Nat.pred maxAttempts) sb with
     | None => rewarded env uid n userDocRef db
     | Some _ => db
     end,
     List.repeat (reward_line uid n (db !! userDocRef))
       (past_read (Nat.pred maxAttempts) sb)).
Proof. unfold runTransaction. rewrite attempts_reward. reflexivity. Qed.

(** A served transaction: 200, the profile created or credited, and
    the line of the function once for each attempt that got past its
    read. *)
Lemma credit_served (env : Env) (uid : jsstring) (n : number)
    (userDocRef : DocumentReference) (db : Ledger) :
  served (store_behaviour env) ->
  credit env uid n userDocRef db
  = {| response := Some ok_response;
       ledger := rewarded env uid n userDocRef db;
       console := List.repeat (reward_line uid n (db !! userDocRef))
                    (past_read (Nat.pred maxAttempts) (store_behaviour env)) |}.
Proof.
  unfold served, credit. intros Hs.
  rewrite runTransaction_reward, Hs. reflexivity.
Qed.

(** A transaction that throws: 500, the ledger as it was. *)
Lemma credit_thrown (env : Env) (uid : jsstring) (n : number)
    (userDocRef : DocumentReference) (db : Ledger) (e : TxError) :
  thrown (Nat.pred maxAttempts) (store_behaviour env) = Some e ->
  credit env uid n userDocRef db
  = {| response := Some {| status := 500;
                           body := "Server Error during reward transaction." |};
       ledger := db;
       console := List.repeat (reward_line uid n (db !! userDocRef))
                    (past_read (Nat.pred maxAttempts) (store_behaviour env))
                  ++ [failure_line uid e] |}.
Proof.
  unfold credit. intros Hs.
  rewrite runTransaction_reward, Hs. reflexivity.
Qed.

Lemma credit_absent (env : Env) (uid : jsstring) (rewardPoints : number)
    (userDocRef : DocumentReference) (db : Ledger) :
  db !! userDocRef = None ->
  served (store_behaviour env) ->
  response (credit env uid rewardPoints userDocRef db) = Some ok_response /\
  ledger (credit env uid rewardPoints userDocRef db)
    = <[userDocRef := new_profile env uid rewardPoints]> db.
Proof.
  intros Hnone Hh. rewrite (credit_served _ _ _ _ _ Hh).
  unfold rewarded. rewrite Hnone. split; reflexivity.
Qed.

Lemma credit_present (env : Env) (uid : jsstring) (rewardPoints : number)
    (userDocRef : DocumentReference) (db : Ledger) (p : UserProfile) :
  db !! userDocRef = Some p ->
  served (store_behaviour env) ->
  response (credit env uid rewardPoints userDocRef db) = Some ok_response /\
  ledger (credit env uid rewardPoints userDocRef db)
    = <[userDocRef := credited p rewardPoints]> db.
Proof.
  intros Hsome Hh. rewrite (credit_served _ _ _ _ _ Hh).
  unfold rewarded. rewrite Hsome. split; reflexivity.
Qed.

Lemma credit_failure (env : Env) (uid : jsstring) (rewardPoints : number)
    (userDocRef : DocumentReference) (db : Ledger) :
  ~ served (store_behaviour env) ->
  response (credit env uid rewardPoints userDocRef db)
    = Some {| status := 500;
              body := "Server Error during reward transaction." |} /\
  ledger (credit env uid rewardPoints userDocRef db) = db.
Proof.
  unfold served. intros Hh.
  destruct (thrown (Nat.pred maxAttempts) (store_behaviour env)) as [e|] eqn:He;
    [|congruence].
  rewrite (credit_thrown _ _ _ _ _ _ He). split; reflexivity.
Qed.

(** Whatever the transaction function, a transaction that throws
    leaves the store as it was. *)
Lemma attempts_throw (retries : nat) (db db' : Ledger) (sb : StoreBehaviour)
    (fn : Tx unit) (e : TxError) (out out' : list LogLine) :
  attempts retries db sb fn out = (Throw e, db', out') -> db' = db.
Proof.
  revert sb out.
  induction retries as [|retries IH]; intros sb out; cbn [attempts];
    destruct (attempt db (hd Serves sb) fn out) as [[db1|e1] out1];
    try congruence.
  destruct (retryable e1); [apply IH | congruence].
Qed.

Lemma runTransaction_throw (db db' : Ledger) (sb : StoreBehaviour)
    (fn : Tx unit) (e : TxError) (out : list LogLine) :
  runTransaction db sb fn = (Throw e, db', out) -> db' = db.
Proof. unfold runTransaction. apply attempts_throw. Qed.

(** ** Rejections *)

(** C4. A request whose [secret] is not the configured one is answered
    403 "Invalid secret." and the ledger stays as it was, whatever
    [user_id] and [points] are. *)
Theorem secret_mismatch_forbidden (cfg : Config) (env : Env)
    (req : Request) (db : Ledger) :
  secret req <> Some (REWARD_ENDPOINT_SECRET cfg) ->
  response (monetag_reward cfg env req db)
    = Some {| status := 403; body := "Invalid secret." |} /\
  ledger (monetag_reward cfg env req db) = db.
Proof.
  intros Hs. rewrite (secret_mismatch_unchanged cfg env req db Hs).
  split; reflexivity.
Qed.

(** C10. The secret is checked before the parameters: a request with a
    wrong secret and malformed parameters is answered 403
    "Invalid secret.", not 400, and its answer is the answer to any
    other request carrying the same secret, so it tells nothing about
    the parameters. *)
Theorem secret_checked_before_parameters (cfg : Config) (env : Env)
    (req : Request) (db : Ledger) :
  secret req <> Some (REWARD_ENDPOINT_SECRET cfg) ->
  not_ (user_id req) || isNaN (parseInt (points_param req))
    || num_leb (parseInt (points_param req)) (Finite 0) = true ->
  response (monetag_reward cfg env req db)
    = Some {| status := 403; body := "Invalid secret." |} /\
  status <$> response (monetag_reward cfg env req db) <> Some 400 /\
  (forall env' req' db',
      secret req' = secret req ->
      response (monetag_reward cfg env' req' db')
      = response (monetag_reward cfg env req db)).
Proof.
  intros Hs _. pose proof Hs as Hs'. apply strict_neq_true in Hs'.
  unfold monetag_reward. rewrite Hs'. simpl.
  split; [reflexivity|]. split; [discriminate|].
  intros env' req' db' Heq. rewrite Heq, Hs'. reflexivity.
Qed.

(** C5. When the transaction of a validated postback throws, the
    answer is 500 "Server Error during reward transaction." and the
    ledger is what it was before the request. *)
Theorem transaction_failure_no_partial_write (cfg : Config) (env : Env)
    (req : Request) (db db' : Ledger) (uid : jsstring)
    (userDocRef : DocumentReference) (e : TxError) (out : list LogLine) :
  secret req = Some (REWARD_ENDPOINT_SECRET cfg) ->
  user_id req = Some uid -> uid <> [] ->
  positive_number (parseInt (points_param req)) ->
  profile_ref cfg uid = Ok userDocRef ->
  runTransaction db (store_behaviour env)
    (reward_transaction env uid (parseInt (points_param req)) userDocRef)
  = (Throw e, db', out) ->
  response (monetag_reward cfg env req db)
    = Some {| status := 500;
              body := "Server Error during reward transaction." |} /\
  ledger (monetag_reward cfg env req db) = db.
Proof.
  intros Hs Hu Hne Hp Href Htx.
  rewrite (monetag_reward_validated cfg env req db uid userDocRef
             Hs Hu Hne Hp Href).
  unfold credit. rewrite Htx. simpl. split; [reflexivity|].
  exact (runTransaction_throw _ _ _ _ _ _ Htx).
Qed.

(** ** Rounding to binary64 *)

Lemma to_binary64_not_NaN (z : Z) : to_binary64 z <> NaN.
Proof.
  unfold to_binary64. destruct (Z.abs z <? 2 ^ 53); [discriminate|].
  destruct (2 ^ 1024 <=? _); [|discriminate].
  destruct (z <? 0); discriminate.
Qed.

Lemma to_binary64_exact (z : Z) :
  Z.abs z <= 2 ^ 53 -> to_binary64 z = Finite z.
Proof.
  intros Hz. unfold to_binary64.
  destruct (Z.ltb_spec (Z.abs z) (2 ^ 53)) as [|Hge]; [reflexivity|].
  assert (Ha : Z.abs z = 2 ^ 53) by lia.
  rewrite Ha.
  destruct (Z.abs_spec z) as [[_ Heq]|[_ Heq]].
  - assert (z = 2 ^ 53) as -> by lia. vm_compute. reflexivity.
  - assert (z = - 2 ^ 53) as -> by lia. vm_compute. reflexivity.
Qed.

Lemma to_binary64_positive (z : Z) :
  0 < z -> positive_number (to_binary64 z).
Proof.
  intros Hz. unfold to_binary64.
  destruct (Z.ltb_spec (Z.abs z) (2 ^ 53)) as [|Hge]; [exact Hz|].
  rewrite (Z.abs_eq z) in * by lia.
  destruct (Z.ltb_spec z 0); [lia|].
  destruct (2 ^ 1024 <=? _); [exact I|].
  cbn [positive_number].
  rewrite Z.sgn_pos by exact Hz.
  assert (Hlog : 53 <= Z.log2 z) by (apply Z.log2_le_pow2; lia).
  set (sh := Z.log2 z - 52) in *.
  assert (Hq : 0 < Z.shiftr z sh).
  { rewrite Z.shiftr_div_pow2 by lia.
    apply Z.div_str_pos. split; [apply Z.pow_pos_nonneg; lia|].
    transitivity (2 ^ Z.log2 z).
    - apply Z.pow_le_mono_r; lia.
    - apply Z.log2_spec; lia. }
  rewrite Z.shiftl_mul_pow2 by lia.
  assert (0 < 2 ^ sh) by (apply Z.pow_pos_nonneg; lia).
  destruct (_ || _); nia.
Qed.

Lemma to_binary64_rounded (z : Z) :
  to_binary64 z
  = if 2 ^ 1024 <=? rounded (Z.abs z)
    then (if z <? 0 then NegInfinity else PosInfinity)
    else Finite (Z.sgn z * rounded (Z.abs z)).
Proof.
  unfold to_binary64, rounded.
  destruct (Z.ltb_spec (Z.abs z) (2 ^ 53)) as [Hlt|Hge]; [|reflexivity].
  destruct (Z.leb_spec (2 ^ 1024) (Z.abs z)) as [Hbig|_].
  - exfalso. assert (2 ^ 53 < 2 ^ 1024) by (apply Z.pow_lt_mono_r; lia). lia.
  - f_equal. lia.
Qed.

(** The parts of a magnitude of 2^53 or more: shift, significand and
    remainder. *)
Lemma magnitude_parts (a : Z) :
  2 ^ 53 <= a ->
  exists sh q r P,
    sh = Z.log2 a - 52 /\ 1 <= sh /\ P = 2 ^ sh /\ 2 <= P /\
    2 ^ (sh - 1) * 2 = P /\
    2 ^ 52 <= q < 2 ^ 53 /\ 0 <= r < P /\ a = q * P + r /\
    rounded a
    = (if (2 ^ (sh - 1) <? r) || ((r =? 2 ^ (sh - 1)) && Z.odd q)
       then q + 1 else q) * P.
Proof.
  intros Ha.
  assert (H53 : 0 < 2 ^ 53) by (apply Z.pow_pos_nonneg; lia).
  assert (Hlog : 53 <= Z.log2 a) by (apply Z.log2_le_pow2; lia).
  destruct (Z.log2_spec a) as [Hlo Hhi]; [lia|].
  set (sh := Z.log2 a - 52) in *.
  assert (HP : 0 < 2 ^ sh) by (apply Z.pow_pos_nonneg; lia).
  assert (Hsplit : 2 ^ Z.log2 a = 2 ^ 52 * 2 ^ sh).
  { rewrite <- Z.pow_add_r by lia. f_equal. lia. }
  assert (Hsplit' : 2 ^ Z.succ (Z.log2 a) = 2 ^ 53 * 2 ^ sh).
  { rewrite <- Z.pow_add_r by lia. f_equal. lia. }
  assert (Hhalf : 2 ^ (sh - 1) * 2 = 2 ^ sh).
  { replace sh with (sh - 1 + 1) at 2 by lia.
    rewrite Z.pow_add_r by lia. reflexivity. }
  assert (Hhalfpos : 0 < 2 ^ (sh - 1)) by (apply Z.pow_pos_nonneg; lia).
  exists sh, (a / 2 ^ sh), (a mod 2 ^ sh), (2 ^ sh).
  pose proof (Z.div_mod a (2 ^ sh) ltac:(lia)) as Hdm.
  pose proof (Z.mod_pos_bound a (2 ^ sh) HP) as Hmod.
  assert (Hq : 2 ^ 52 <= a / 2 ^ sh < 2 ^ 53).
  { split.
    - apply Z.div_le_lower_bound; lia.
    - apply Z.div_lt_upper_bound; lia. }
  repeat split; try lia.
  unfold rounded. destruct (Z.ltb_spec a (2 ^ 53)); [lia|].
  fold sh. rewrite Z.shiftr_div_pow2 by lia.
  rewrite !Z.shiftl_mul_pow2 by lia.
  replace (a - a / 2 ^ sh * 2 ^ sh) with (a mod 2 ^ sh) by lia.
  reflexivity.
Qed.

Lemma rounded_small (a : Z) : a < 2 ^ 53 -> rounded a = a.
Proof.
  intros Ha. unfold rounded.
  destruct (Z.ltb_spec a (2 ^ 53)); [reflexivity | lia].
Qed.

(** A significand of 53 bits at most, shifted, is left as it is. *)
Lemma rounded_fixed (q sh : Z) :
  2 ^ 52 <= q <= 2 ^ 53 -> 1 <= sh -> rounded (q * 2 ^ sh) = q * 2 ^ sh.
Proof.
  intros Hq Hsh.
  assert (H52 : 0 < 2 ^ 52) by (apply Z.pow_pos_nonneg; lia).
  assert (Hd : 2 ^ 53 = 2 * 2 ^ 52) by reflexivity.
  assert (HP : 2 <= 2 ^ sh).
  { change 2 with (2 ^ 1) at 1. apply Z.pow_le_mono_r; lia. }
  assert (Hge : 2 ^ 53 <= q * 2 ^ sh) by nia.
  destruct (magnitude_parts _ Hge)
    as (sh' & q' & r' & P' & Hsh' & Hsh1 & HP' & HP2 & Hhalf & Hq' & Hr' & Ha & ->).
  (* the shift of q * 2^sh is sh, or sh + 1 when q = 2^53 *)
  assert (Hcase : q < 2 ^ 53 \/ q = 2 ^ 53) by lia.
  destruct Hcase as [Hlt| ->].
  - assert (Hlog : Z.log2 (q * 2 ^ sh) = 52 + sh).
    { assert (Hp1 : 2 ^ (52 + sh) = 2 ^ 52 * 2 ^ sh)
        by (apply Z.pow_add_r; lia).
      assert (Hp2 : 2 ^ (52 + sh + 1) = 2 ^ 53 * 2 ^ sh).
      { replace (52 + sh + 1) with (53 + sh) by lia. apply Z.pow_add_r; lia. }
      apply Z.log2_unique; [lia|].
      replace (Z.succ (52 + sh)) with (52 + sh + 1) by lia.
      rewrite Hp1, Hp2. nia. }
    assert (sh' = sh) as -> by lia. subst P'.
    assert (q' = q /\ r' = 0) as [-> ->].
    { apply (Z.div_mod_unique (2 ^ sh)); lia. }
    assert (Hhp : 0 < 2 ^ (sh - 1)) by (apply Z.pow_pos_nonneg; lia).
    destruct (Z.ltb_spec (2 ^ (sh - 1)) 0); [lia|].
    destruct (Z.eqb_spec 0 (2 ^ (sh - 1))); [lia|]. reflexivity.
  - assert (Hlog : Z.log2 (2 ^ 53 * 2 ^ sh) = 53 + sh).
    { rewrite <- Z.pow_add_r by lia. apply Z.log2_pow2. lia. }
    assert (sh' = sh + 1) as -> by lia. subst P'.
    assert (Hpow : 2 ^ (sh + 1) = 2 * 2 ^ sh).
    { rewrite Z.pow_add_r by lia. change (2 ^ 1) with 2. lia. }
    rewrite Hpow in *.
    assert (q' = 2 ^ 52 /\ r' = 0) as [-> ->].
    { apply (Z.div_mod_unique (2 * 2 ^ sh)); lia. }
    replace (sh + 1 - 1) with sh in * by lia.
    destruct (Z.ltb_spec (2 ^ sh) 0); [lia|].
    destruct (Z.eqb_spec 0 (2 ^ sh)); [lia|]. cbn [orb andb]. lia.
Qed.

(** Rounding moves a magnitude to one of its two neighbours. *)
Lemma rounded_neighbours (a : Z) :
  2 ^ 53 <= a ->
  exists q sh,
    2 ^ 52 <= q < 2 ^ 53 /\ 1 <= sh /\ sh = Z.log2 a - 52 /\
    q * 2 ^ sh <= a < (q + 1) * 2 ^ sh /\
    (rounded a = q * 2 ^ sh \/ rounded a = (q + 1) * 2 ^ sh).
Proof.
  intros Ha.
  destruct (magnitude_parts _ Ha)
    as (sh & q & r & P & Hsh & Hsh1 & HP & HP2 & Hhalf & Hq & Hr & Hdec & Hrnd).
  exists q, sh. subst P. repeat split; try lia.
  rewrite Hrnd. destruct (_ || _); auto.
Qed.

Lemma rounded_idempotent (a : Z) : 0 <= a -> rounded (rounded a) = rounded a.
Proof.
  intros Ha. destruct (Z.lt_ge_cases a (2 ^ 53)) as [Hlt|Hge].
  - rewrite !rounded_small; [reflexivity | lia | rewrite rounded_small; lia].
  - destruct (rounded_neighbours a Hge)
      as (q & sh & Hq & Hsh & _ & _ & [-> | ->]);
      apply rounded_fixed; lia.
Qed.

Lemma rounded_monotone (a b : Z) :
  0 <= a <= b -> rounded a <= rounded b.
Proof.
  intros [Ha Hab].
  destruct (Z.lt_ge_cases b (2 ^ 53)) as [Hb|Hb].
  { rewrite !rounded_small by lia. exact Hab. }
  destruct (magnitude_parts _ Hb)
    as (sb & qb & rb & Pb & Hsb & Hsb1 & HPb & HPb2 & Hhb & Hqb & Hrb & Hdb & Hrndb).
  assert (Hqb52 : 2 ^ 52 * Pb <= qb * Pb)
    by (apply Z.mul_le_mono_nonneg_r; lia).
  change (2 ^ 52) with 4503599627370496 in Hqb52.
  assert (Hlob : qb * Pb <= rounded b).
  { rewrite Hrndb. destruct (_ || _); lia. }
  destruct (Z.lt_ge_cases a (2 ^ 53)) as [Ha53|Ha53].
  { rewrite (rounded_small a) by lia.
    change (2 ^ 53) with 9007199254740992 in *. lia. }
  destruct (magnitude_parts _ Ha53)
    as (sa & qa & ra & Pa & Hsa & Hsa1 & HPa & HPa2 & Hha & Hqa & Hra & Hda & Hrnda).
  assert (Hqa53 : (qa + 1) * Pa <= 2 ^ 53 * Pa)
    by (apply Z.mul_le_mono_nonneg_r; lia).
  change (2 ^ 53) with 9007199254740992 in *.
  assert (Hhia : rounded a <= (qa + 1) * Pa).
  { rewrite Hrnda. destruct ((2 ^ (sa - 1) <? ra) || _); lia. }
  assert (Hsab : sa <= sb).
  { subst sa sb. pose proof (Z.log2_le_mono a b Hab). lia. }
  destruct (Z.eq_dec sa sb) as [Heq|Hneq].
  - assert (Pa = Pb) by congruence. subst Pb.
    assert (Hhalf : 2 ^ (sb - 1) = 2 ^ (sa - 1)) by congruence.
    destruct (Z.lt_trichotomy qa qb) as [Hlt|[Hqeq|Hgt]].
    + assert ((qa + 1) * Pa <= qb * Pa)
        by (apply Z.mul_le_mono_nonneg_r; lia).
      lia.
    + subst qb. assert (Hr : ra <= rb) by lia.
      rewrite Hrnda, Hrndb, Hhalf.
      destruct (Z.ltb_spec (2 ^ (sa - 1)) ra) as [Hup|Hnup].
      * destruct (Z.ltb_spec (2 ^ (sa - 1)) rb); [cbn [orb]; lia | lia].
      * destruct (Z.eqb_spec ra (2 ^ (sa - 1))) as [Hre|Hrne].
        -- destruct (Z.ltb_spec (2 ^ (sa - 1)) rb) as [|Hnb];
             [cbn [orb andb]; destruct (Z.odd qa); lia|].
           destruct (Z.eqb_spec rb (2 ^ (sa - 1))); [|lia].
           cbn [orb andb]. lia.
        -- cbn [orb andb]. destruct ((2 ^ (sa - 1) <? rb) || _); lia.
    + assert ((qb + 1) * Pa <= qa * Pa)
        by (apply Z.mul_le_mono_nonneg_r; lia).
      lia.
  - assert (Hpow : Pa * 2 <= Pb).
    { subst Pa Pb. replace sb with (sa + 1 + (sb - sa - 1)) by lia.
      rewrite !Z.pow_add_r by lia. change (2 ^ 1) with 2.
      assert (0 < 2 ^ (sb - sa - 1)) by (apply Z.pow_pos_nonneg; lia).
      assert (0 < 2 ^ sa) by (apply Z.pow_pos_nonneg; lia). nia. }
    lia.
Qed.

Lemma rounded_nonnegative (a : Z) : 0 <= a -> 0 <= rounded a.
Proof.
  intros Ha. change 0 with (rounded 0) at 1.
  apply rounded_monotone. lia.
Qed.

(** Rounding keeps the order. *)
Lemma to_binary64_monotone (x y : Z) :
  x <= y -> num_leb (to_binary64 x) (to_binary64 y) = true.
Proof.
  intros Hxy. rewrite !to_binary64_rounded.
  pose proof (rounded_nonnegative (Z.abs x) (Z.abs_nonneg x)) as Hrx.
  pose proof (rounded_nonnegative (Z.abs y) (Z.abs_nonneg y)) as Hry.
  assert (Hr : x < 0 -> y < 0 -> rounded (Z.abs y) <= rounded (Z.abs x))
    by (intros; apply rounded_monotone; lia).
  assert (Hr' : 0 <= x -> 0 <= y -> rounded (Z.abs x) <= rounded (Z.abs y))
    by (intros; apply rounded_monotone; lia).
  destruct (Z.ltb_spec x 0) as [Hx|Hx], (Z.ltb_spec y 0) as [Hy|Hy];
    try lia;
    destruct (Z.leb_spec (2 ^ 1024) (rounded (Z.abs x)));
    destruct (Z.leb_spec (2 ^ 1024) (rounded (Z.abs y)));
    cbn [num_leb]; try reflexivity; try lia; apply Z.leb_le;
    destruct (Z.sgn_spec x) as [[? ->]|[[? ->]|[? ->]]];
    destruct (Z.sgn_spec y) as [[? ->]|[[? ->]|[? ->]]]; lia.
Qed.

(** A rounded integer is a binary64 value: rounding it again changes
    nothing. *)
Lemma to_binary64_idempotent (z m : Z) :
  to_binary64 z = Finite m -> to_binary64 m = Finite m.
Proof.
  rewrite to_binary64_rounded.
  destruct (Z.leb_spec (2 ^ 1024) (rounded (Z.abs z))) as [|Hlt];
    [destruct (z <? 0); discriminate|].
  intros [= <-].
  pose proof (rounded_nonnegative (Z.abs z) (Z.abs_nonneg z)) as Hr.
  pose proof (rounded_idempotent (Z.abs z) (Z.abs_nonneg z)) as Hidem.
  rewrite to_binary64_rounded.
  assert (Habs : Z.abs (Z.sgn z * rounded (Z.abs z)) = rounded (Z.abs z)).
  { destruct (Z.sgn_spec z) as [[? ->]|[[Hz ->]|[? ->]]]; try lia.
    subst z. reflexivity. }
  rewrite Habs, Hidem.
  destruct (Z.leb_spec (2 ^ 1024) (rounded (Z.abs z))); [lia|].
  f_equal.
  destruct (Z.sgn_spec z) as [[? Hs]|[[Hz Hs]|[? Hs]]]; rewrite Hs.
  - destruct (Z.eq_dec (rounded (Z.abs z)) 0) as [->|Hne]; [reflexivity|].
    rewrite Z.sgn_pos by lia. reflexivity.
  - reflexivity.
  - destruct (Z.eq_dec (rounded (Z.abs z)) 0) as [->|Hne]; [reflexivity|].
    rewrite Z.sgn_neg by lia. reflexivity.
Qed.

Lemma is_binary64_to_binary64 (z : Z) : is_binary64 (to_binary64 z) = true.
Proof.
  destruct (to_binary64 z) as [|m| |] eqn:Hz; try reflexivity.
  cbn [is_binary64]. apply bool_decide_eq_true.
  exact (to_binary64_idempotent z m Hz).
Qed.

Lemma is_binary64_add (a b : number) : is_binary64 (binary64_add a b) = true.
Proof.
  destruct a, b; cbn [binary64_add]; try reflexivity.
  apply is_binary64_to_binary64.
Qed.

(** A significand of 53 bits at most, shifted, with either sign, is a
    binary64 value when it is in range. *)
Lemma to_binary64_fixed (q sh : Z) (negative : bool) :
  2 ^ 52 <= q <= 2 ^ 53 -> 1 <= sh -> q * 2 ^ sh < 2 ^ 1024 ->
  let m := if negative then - (q * 2 ^ sh) else q * 2 ^ sh in
  to_binary64 m = Finite m.
Proof.
  intros Hq Hsh Hlt m.
  assert (H52 : 0 < 2 ^ 52) by (apply Z.pow_pos_nonneg; lia).
  assert (HP : 0 < 2 ^ sh) by (apply Z.pow_pos_nonneg; lia).
  assert (Hpos : 0 < q * 2 ^ sh) by (apply Z.mul_pos_pos; lia).
  rewrite to_binary64_rounded.
  assert (Habs : Z.abs m = q * 2 ^ sh) by (subst m; destruct negative; lia).
  rewrite Habs, rounded_fixed by assumption.
  destruct (Z.leb_spec (2 ^ 1024) (q * 2 ^ sh)); [lia|].
  f_equal. subst m. destruct negative.
  - rewrite Z.sgn_neg by lia. lia.
  - rewrite Z.sgn_pos by lia. lia.
Qed.

(** ** Numbers in documents *)

Lemma int64_range (i : int64) : - 2 ^ 63 <= int64_val i <= 2 ^ 63 - 1.
Proof.
  destruct i as [z Hz]. cbn [int64_val].
  apply Is_true_true in Hz. unfold in_int64 in Hz.
  rewrite andb_true_iff, !Z.leb_le in Hz. exact Hz.
Qed.

Lemma int64_eq (i j : int64) : int64_val i = int64_val j -> i = j.
Proof.
  destruct i as [a Ha], j as [b Hb]. cbn [int64_val]. intros ->.
  f_equal. apply proof_irrel.
Qed.

Lemma double_eq (d e : double) : double_val d = double_val e -> d = e.
Proof.
  destruct d as [a Ha], e as [b Hb]. cbn [double_val]. intros ->.
  f_equal. apply proof_irrel.
Qed.

Lemma saturate_val (z : Z) :
  int64_val (saturate z) = Z.max (- 2 ^ 63) (Z.min z (2 ^ 63 - 1)).
Proof.
  unfold saturate. destruct (decide _) as [H|H]; [reflexivity|].
  exfalso. apply H, Is_true_true. unfold in_int64.
  rewrite andb_true_iff, !Z.leb_le.
  assert (0 < 2 ^ 63) by (apply Z.pow_pos_nonneg; lia). lia.
Qed.

Lemma saturate_in_range (z : Z) :
  - 2 ^ 63 <= z <= 2 ^ 63 - 1 -> int64_val (saturate z) = z.
Proof. intros Hz. rewrite saturate_val. lia. Qed.

Lemma saturate_int64 (i : int64) : saturate (int64_val i) = i.
Proof. apply int64_eq, saturate_in_range, int64_range. Qed.

Lemma double_is_binary64 (d : double) : is_binary64 (double_val d) = true.
Proof. destruct d as [n Hn]. apply Is_true_true. exact Hn. Qed.

Lemma binary64_val (n : number) :
  is_binary64 n = true -> double_val (binary64 n) = n.
Proof.
  intros Hn. unfold binary64. destruct (decide _) as [H|H]; [reflexivity|].
  exfalso. apply H, Is_true_true, Hn.
Qed.

Lemma binary64_double (d : double) : binary64 (double_val d) = d.
Proof. apply double_eq, binary64_val, double_is_binary64. Qed.

(** A safe integer is a 64-bit integer and a binary64 value. *)
Lemma safe_integer_range (z : Z) :
  isSafeInteger (Finite z) = true <-> - (2 ^ 53 - 1) <= z <= 2 ^ 53 - 1.
Proof. cbn [isSafeInteger]. rewrite Z.leb_le. lia. Qed.

(** What the client sends holds the Number it was given. *)
Lemma numberValue_encodeValue (n : number) :
  is_binary64 n = true -> numberValue (encodeValue n) = n.
Proof.
  intros Hn. unfold encodeValue.
  destruct n as [|z| |]; cbn [numberValue];
    try (apply binary64_val; exact Hn).
  destruct (isSafeInteger (Finite z)) eqn:Hsafe; cbn [numberValue];
    [|apply binary64_val; exact Hn].
  apply safe_integer_range in Hsafe. f_equal. apply saturate_in_range.
  change (2 ^ 53) with 9007199254740992 in Hsafe.
  change (2 ^ 63) with 9223372036854775808. lia.
Qed.

Lemma to_double_encodeValue (n : number) :
  is_binary64 n = true -> to_double (encodeValue n) = n.
Proof.
  intros Hn. unfold encodeValue.
  destruct n as [|z| |]; cbn [to_double];
    try (apply binary64_val; exact Hn).
  destruct (isSafeInteger (Finite z)) eqn:Hsafe; cbn [to_double];
    [|apply binary64_val; exact Hn].
  apply safe_integer_range in Hsafe. rewrite saturate_in_range.
  - apply to_binary64_exact. lia.
  - change (2 ^ 53) with 9007199254740992 in Hsafe.
    change (2 ^ 63) with 9223372036854775808. lia.
Qed.

(** The double the store makes of an integer field is finite, and a
    binary64 value at or above the integer lies within 2^53 of it. *)
Lemma int64_to_binary64 (a : Z) :
  - 2 ^ 63 <= a <= 2 ^ 63 - 1 ->
  exists a' hi,
    to_binary64 a = Finite a' /\ a <= hi /\
    to_binary64 hi = Finite hi /\ hi <= a' + 2 ^ 53.
Proof.
  intros Ha.
  assert (H53 : 0 < 2 ^ 53) by (apply Z.pow_pos_nonneg; lia).
  destruct (Z.lt_ge_cases (Z.abs a) (2 ^ 53)) as [Hsmall|Hbig].
  { exists a, a. rewrite to_binary64_exact by lia. repeat split; lia. }
  assert (H64 : 2 ^ 64 < 2 ^ 1024) by (apply Z.pow_lt_mono_r; lia).
  destruct (rounded_neighbours (Z.abs a) Hbig)
    as (q & sh & Hq & Hsh & Hshdef & Hlohi & Hrnd).
  assert (Hsh11 : sh <= 11).
  { assert (Z.log2 (Z.abs a) < 64); [|lia].
    apply Z.log2_lt_pow2; [lia|].
    change (2 ^ 63) with 9223372036854775808 in Ha.
    change (2 ^ 64) with 18446744073709551616. lia. }
  assert (HP : 0 < 2 ^ sh) by (apply Z.pow_pos_nonneg; lia).
  assert (HP11 : 2 ^ sh <= 2 ^ 11) by (apply Z.pow_le_mono_r; lia).
  assert (Hhi : (q + 1) * 2 ^ sh <= 2 ^ 64).
  { change (2 ^ 64) with (2 ^ 53 * 2 ^ 11).
    apply Z.mul_le_mono_nonneg; lia. }
  assert (Hlo : q * 2 ^ sh <= (q + 1) * 2 ^ sh)
    by (apply Z.mul_le_mono_nonneg_r; lia).
  assert (Hstep : (q + 1) * 2 ^ sh = q * 2 ^ sh + 2 ^ sh) by lia.
  assert (H52 : 0 < 2 ^ 52) by (apply Z.pow_pos_nonneg; lia).
  assert (Hqpos : 0 < q * 2 ^ sh) by (apply Z.mul_pos_pos; lia).
  assert (Hrlt : rounded (Z.abs a) < 2 ^ 1024) by (destruct Hrnd; lia).
  assert (Hround : to_binary64 a = Finite (Z.sgn a * rounded (Z.abs a))).
  { rewrite to_binary64_rounded.
    destruct (Z.leb_spec (2 ^ 1024) (rounded (Z.abs a))); [lia|reflexivity]. }
  change (2 ^ 11) with 2048 in HP11.
  change (2 ^ 53) with 9007199254740992 in *.
  destruct (Z.lt_ge_cases a 0) as [Hneg|Hpos].
  - exists (Z.sgn a * rounded (Z.abs a)), (- (q * 2 ^ sh)).
    split; [exact Hround|]. rewrite Z.sgn_neg by lia.
    split; [lia|]. split.
    + apply (to_binary64_fixed q sh true); lia.
    + destruct Hrnd as [-> | ->]; lia.
  - exists (Z.sgn a * rounded (Z.abs a)), ((q + 1) * 2 ^ sh).
    split; [exact Hround|]. rewrite Z.sgn_pos by lia.
    split; [lia|]. split.
    + apply (to_binary64_fixed (q + 1) sh false); lia.
    + destruct Hrnd as [-> | ->]; lia.
Qed.

(** ** Balances *)

Lemma num_leb_refl (n : number) : n <> NaN -> num_leb n n = true.
Proof. destruct n; simpl; try congruence. intros _. apply Z.leb_refl. Qed.

Lemma num_ltb_irrefl (n : number) : num_ltb n n = false.
Proof. destruct n; simpl; auto using Z.ltb_irrefl. Qed.

Lemma positive_nonnegative (n : number) : positive_number n -> nonnegative n.
Proof. destruct n; simpl; try tauto. lia. Qed.

(** A Number at or above a finite one is neither NaN nor below it. *)
Lemma num_leb_above (x : Z) (n : number) (y : Z) :
  y <= x -> num_leb (Finite x) n = true ->
  num_ltb n (Finite y) = false /\ num_leb (Finite y) n = true /\
  (0 < x -> positive_number n).
Proof.
  destruct n as [|z| |]; cbn [num_leb num_ltb positive_number];
    try discriminate; intros Hy Hle; [|tauto].
  apply Z.leb_le in Hle. repeat split.
  - apply Z.ltb_ge. lia.
  - apply Z.leb_le. lia.
  - lia.
Qed.

(** Adding a positive amount never lowers a balance. *)
Lemma value_add_positive (b : Value) (n : number) :
  positive_number n -> is_binary64 n = true ->
  let b' := value_add b (encodeValue n) in
  num_ltb (numberValue b') (numberValue b) = false /\
  (numberValue b <> NaN -> numberValue b <> NegInfinity ->
   num_leb (numberValue b) (numberValue b') = true) /\
  (nonnegative (numberValue b) -> positive_number (numberValue b')).
Proof.
  intros Hpos Hn b'.
  pose proof (to_double_encodeValue n Hn) as Hop.
  pose proof (numberValue_encodeValue n Hn) as Hnum.
  assert (H53 : 0 < 2 ^ 53) by (apply Z.pow_pos_nonneg; lia).
  destruct b as [i|d].
  - (* an integer balance *)
    pose proof (int64_range i) as Hi.
    destruct (encodeValue n) as [j|e] eqn:Henc.
    + (* an integer amount *)
      subst b'. rewrite ?Henc in Hnum. cbn [numberValue] in Hnum.
      rewrite <- Hnum in Hpos. cbn [positive_number] in Hpos.
      cbn [value_add numberValue]. rewrite saturate_val.
      cbn [num_ltb num_leb nonnegative positive_number].
      rewrite Z.ltb_ge, Z.leb_le.
      change (2 ^ 63) with 9223372036854775808 in *.
      repeat split; intros; lia.
    + (* an amount sent as a double *)
      assert (Hsum : numberValue b'
                     = binary64_add (to_binary64 (int64_val i)) n).
      { subst b'. rewrite ?Henc in Hop. cbn [to_double] in Hop.
        cbn [value_add numberValue to_double].
        rewrite Hop. apply binary64_val, is_binary64_add. }
      assert (Hbig : match n with
                     | Finite z => 2 ^ 53 <= z
                     | _ => True
                     end).
      { destruct n as [|z| |]; try exact I. unfold encodeValue in Henc.
        destruct (isSafeInteger (Finite z)) eqn:Hsafe; [discriminate|].
        cbn [isSafeInteger positive_number] in Hsafe, Hpos.
        apply Z.leb_gt in Hsafe. lia. }
      rewrite Hsum. cbn [numberValue].
      assert (Hnn : 0 <= int64_val i ->
                    num_leb (Finite 0) (to_binary64 (int64_val i)) = true).
      { intros H0. rewrite <- (to_binary64_exact 0) by lia.
        apply to_binary64_monotone, H0. }
      destruct (int64_to_binary64 (int64_val i) Hi)
        as (a' & hi & Hrnd & Hhi & Hfix & Hnear).
      rewrite Hrnd in *.
      destruct n as [|z| |]; cbn [positive_number] in Hpos; try tauto;
        cbn [binary64_add].
      pose proof (to_binary64_monotone hi (a' + z) ltac:(lia)) as Hmono.
      rewrite Hfix in Hmono.
      destruct (num_leb_above hi (to_binary64 (a' + z)) (int64_val i)
                  Hhi Hmono) as (Hlt & Hle & _).
      split; [exact Hlt|]. split; [intros _ _; exact Hle|].
      cbn [nonnegative]. intros H0. specialize (Hnn H0).
      cbn [num_leb] in Hnn. apply Z.leb_le in Hnn.
      pose proof (to_binary64_monotone 1 (a' + z) ltac:(lia)) as Hone.
      rewrite (to_binary64_exact 1) in Hone by lia.
      apply (num_leb_above 1 _ 1); [lia | exact Hone | lia].
  - (* a balance held as a double *)
    assert (Hsum : numberValue b' = binary64_add (double_val d) n).
    { subst b'. destruct (encodeValue n) as [j|e] eqn:Henc;
        rewrite ?Henc in Hop; cbn [to_double] in Hop;
        cbn [value_add numberValue to_double]; rewrite Hop;
        apply binary64_val, is_binary64_add. }
    rewrite Hsum. cbn [numberValue].
    pose proof (double_is_binary64 d) as Hd.
    destruct (double_val d) as [|x| |];
      destruct n as [|z| |]; cbn [positive_number] in Hpos; try tauto;
      cbn [binary64_add num_ltb num_leb nonnegative positive_number];
      try (repeat split; intros; try reflexivity; try tauto; congruence).
    cbn [is_binary64] in Hd. apply bool_decide_eq_true in Hd.
    pose proof (to_binary64_monotone x (x + z) ltac:(lia)) as Hmono.
    rewrite Hd in Hmono.
    destruct (num_leb_above x (to_binary64 (x + z)) x ltac:(lia) Hmono)
      as (Hlt & Hle & _).
    split; [exact Hlt|]. split; [intros _ _; exact Hle|].
    intros Hnn.
    pose proof (to_binary64_monotone 1 (x + z) ltac:(lia)) as Hone.
    rewrite (to_binary64_exact 1) in Hone by lia.
    apply (num_leb_above 1 _ 1); [lia | exact Hone | lia].
Qed.

(** What [parseInt] returns is a binary64 value. *)
Lemma parseInt_is_binary64 (v : option jsstring) :
  is_binary64 (parseInt v) = true.
Proof.
  unfold parseInt.
  destruct (strip_sign (trim_start (ToString v))) as [sign unsigned].
  destruct (strip_prefix unsigned) as [R rest].
  destruct (digits_prefix R rest); [reflexivity|].
  apply is_binary64_to_binary64.
Qed.

(** What a request does to the ledger: nothing, the creation of the
    profile it names, or a credit of a positive amount to it. *)
Lemma monetag_reward_ledger (cfg : Config) (env : Env) (req : Request)
    (db : Ledger) :
  ledger (monetag_reward cfg env req db) = db \/
  exists uid n userDocRef,
    user_id req = Some uid /\ n = parseInt (points_param req) /\
    positive_number n /\ profile_ref cfg uid = Ok userDocRef /\
    response (monetag_reward cfg env req db) = Some ok_response /\
    ((db !! userDocRef = None /\
      ledger (monetag_reward cfg env req db)
      = <[userDocRef := new_profile env uid n]> db) \/
     (exists p, db !! userDocRef = Some p /\
      ledger (monetag_reward cfg env req db)
      = <[userDocRef := credited p n]> db)).
Proof.
  destruct (decide (secret req = Some (REWARD_ENDPOINT_SECRET cfg))) as [Hs|Hs];
    [|left; rewrite (secret_mismatch_unchanged cfg env req db Hs); reflexivity].
  destruct (not_ (user_id req) || isNaN (parseInt (points_param req))
            || num_leb (parseInt (points_param req)) (Finite 0)) eqn:Hchk.
  { left. unfold monetag_reward. apply strict_neq_false in Hs.
    rewrite Hs, Hchk. reflexivity. }
  apply parameters_check_false in Hchk as [(uid & Hu & Hne) Hp].
  destruct (profile_ref cfg uid) as [userDocRef|e] eqn:Href;
    [|left; rewrite (monetag_reward_unanswered cfg env req db uid e
                       Hs Hu Hne Hp Href); reflexivity].
  rewrite (monetag_reward_validated cfg env req db uid userDocRef
             Hs Hu Hne Hp Href).
  destruct (decide (served (store_behaviour env))) as [Hh|Hh];
    [|left; exact (proj2 (credit_failure env uid _ userDocRef db Hh))].
  right. exists uid, (parseInt (points_param req)), userDocRef.
  repeat split; try assumption.
  { rewrite (credit_served _ _ _ _ _ Hh). reflexivity. }
  destruct (db !! userDocRef) as [p|] eqn:Hdb.
  - right. exists p. split; [reflexivity|].
    exact (proj2 (credit_present env uid _ userDocRef db p Hdb Hh)).
  - left. split; [reflexivity|].
    exact (proj2 (credit_absent env uid _ userDocRef db Hdb Hh)).
Qed.

(** C6. Through any request, every profile that exists stays, and its
    balance is never lowered: the balance after is not below the
    balance before, it is at least the balance before (for a balance
    that is a Number other than NaN and -Infinity, which compare with
    nothing), and a balance that was not negative is not negative
    after.  The endpoint only adds to [points]. *)
Theorem points_never_decrease (cfg : Config) (env : Env) (req : Request)
    (db : Ledger) (ref : DocumentReference) (p : UserProfile) :
  db !! ref = Some p ->
  exists p',
    ledger (monetag_reward cfg env req db) !! ref = Some p' /\
    num_ltb (numberValue (points p')) (numberValue (points p)) = false /\
    (numberValue (points p) <> NaN -> numberValue (points p) <> NegInfinity ->
     num_leb (numberValue (points p)) (numberValue (points p')) = true) /\
    (nonnegative (numberValue (points p)) ->
     nonnegative (numberValue (points p'))).
Proof.
  intros Hdb.
  assert (Hsame : exists p', Some p = Some p' /\
             num_ltb (numberValue (points p')) (numberValue (points p)) = false /\
             (numberValue (points p) <> NaN ->
              numberValue (points p) <> NegInfinity ->
              num_leb (numberValue (points p)) (numberValue (points p')) = true) /\
             (nonnegative (numberValue (points p)) ->
              nonnegative (numberValue (points p')))).
  { exists p. auto using num_ltb_irrefl, num_leb_refl. }
  destruct (monetag_reward_ledger cfg env req db)
    as [-> | (uid & n & userDocRef & Hu & -> & Hp & Href & _ &
              [[Hnone ->] | (p0 & Hsome & ->)])].
  - rewrite Hdb. exact Hsame.
  - rewrite lookup_insert_ne, Hdb by congruence. exact Hsame.
  - destruct (decide (userDocRef = ref)) as [<-|Hne].
    + rewrite lookup_insert_eq. eexists. split; [reflexivity|].
      assert (p0 = p) as -> by congruence.
      unfold credited. cbn [points set_points].
      destruct (value_add_positive (points p) _ Hp
                  (parseInt_is_binary64 (points_param req)))
        as (Hlt & Hle & Hnn).
      auto using positive_nonnegative.
    + rewrite lookup_insert_ne, Hdb by exact Hne. exact Hsame.
Qed.

(** Balances that are all non-negative stay so, the new profile's
    included. *)
Lemma nonnegative_ledger_preserved (cfg : Config) (env : Env) (req : Request)
    (db : Ledger) :
  (forall ref p, db !! ref = Some p -> nonnegative (numberValue (points p))) ->
  forall ref p,
    ledger (monetag_reward cfg env req db) !! ref = Some p ->
    nonnegative (numberValue (points p)).
Proof.
  intros Hdb ref p.
  destruct (monetag_reward_ledger cfg env req db)
    as [-> | (uid & n & userDocRef & Hu & -> & Hp & Href & _ &
              [[Hnone ->] | (p0 & Hsome & ->)])];
    [apply Hdb|..];
    (destruct (decide (userDocRef = ref)) as [<-|Hne];
     [rewrite lookup_insert_eq; intros [= <-]
     |rewrite lookup_insert_ne by exact Hne; apply Hdb]).
  - cbn [new_profile points].
    rewrite numberValue_encodeValue by apply parseInt_is_binary64.
    apply positive_nonnegative, Hp.
  - pose proof (Hdb _ _ Hsome) as Hnn.
    unfold credited. cbn [points set_points].
    apply positive_nonnegative.
    exact (proj2 (proj2 (value_add_positive _ _ Hp
                           (parseInt_is_binary64 (points_param req)))) Hnn).
Qed.

(** ** What [parseInt] accepts *)

Lemma digits_prefix_nil (R : Z) (s : jsstring) :
  digits_prefix R s = [] <->
  match s with
  | c :: _ => radix_digit R c = None
  | [] => True
  end.
Proof.
  destruct s as [|c s]; simpl; [tauto|].
  destruct (radix_digit R c); split; congruence.
Qed.

(** [parseInt] yields NaN exactly when no digit follows the white
    space, the sign and the radix prefix. *)
Lemma parseInt_NaN_iff (v : option jsstring) :
  parseInt v = NaN <-> no_leading_integer v = true.
Proof.
  unfold parseInt, no_leading_integer.
  destruct (strip_sign (trim_start (ToString v))) as [sign unsigned].
  destruct (strip_prefix unsigned) as [R rest].
  pose proof (digits_prefix_nil R rest) as Hnil.
  destruct (digits_prefix R rest) as [|d ds] eqn:Hds.
  - destruct rest as [|c rest]; [tauto|].
    rewrite (proj1 Hnil eq_refl). split; [reflexivity|reflexivity].
  - split; [intros Hn; destruct (to_binary64_not_NaN _ Hn)|].
    destruct rest as [|c rest]; [discriminate Hds|].
    simpl in Hds. destruct (radix_digit R c); [|discriminate].
    intros Hf. rewrite bool_decide_eq_true_2 in Hf by eauto. discriminate.
Qed.

(** C3, as the code has it.  With the correct secret, the answer is 400
    "Invalid parameters.", with the ledger untouched and no
    transaction run, if and only if [user_id] is absent or empty, or
    [parseInt(points)] is NaN, or the parsed number is at most 0.
    [parseInt] is NaN exactly for a value in which no digit follows the
    leading white space, sign and radix prefix: every such value is
    rejected. *)
Theorem invalid_parameters_iff (cfg : Config) (env : Env) (req : Request)
    (db : Ledger) :
  secret req = Some (REWARD_ENDPOINT_SECRET cfg) ->
  ((response (monetag_reward cfg env req db)
      = Some {| status := 400; body := "Invalid parameters." |} /\
    ledger (monetag_reward cfg env req db) = db /\
    console (monetag_reward cfg env req db) = [])
   <->
   (user_id req = None \/ user_id req = Some [] \/
    parseInt (points_param req) = NaN \/
    num_leb (parseInt (points_param req)) (Finite 0) = true)) /\
  (parseInt (points_param req) = NaN
   <-> no_leading_integer (points_param req) = true) /\
  (no_leading_integer (points_param req) = true ->
   monetag_reward cfg env req db = bad_request db).
Proof.
  intros Hs.
  assert (Hbad : not_ (user_id req) || isNaN (parseInt (points_param req))
                 || num_leb (parseInt (points_param req)) (Finite 0) = true ->
                 monetag_reward cfg env req db = bad_request db).
  { intros Hchk. unfold monetag_reward.
    apply strict_neq_false in Hs. rewrite Hs, Hchk. reflexivity. }
  split; [split|split; [apply parseInt_NaN_iff|]].
  - intros (Hr & _ & _).
    destruct (not_ (user_id req) || isNaN (parseInt (points_param req))
              || num_leb (parseInt (points_param req)) (Finite 0)) eqn:Hchk.
    + rewrite !orb_true_iff in Hchk. destruct Hchk as [[Hu|Hn]|Hle].
      * destruct (user_id req) as [[|c s]|]; auto. discriminate Hu.
      * right; right; left.
        destruct (parseInt (points_param req)); auto; discriminate Hn.
      * auto.
    + apply parameters_check_false in Hchk as [(uid & Hu & Hne) Hp].
      destruct (profile_ref cfg uid) as [userDocRef|e] eqn:Href.
      * rewrite (monetag_reward_validated cfg env req db uid userDocRef
                   Hs Hu Hne Hp Href) in Hr.
        unfold credit in Hr.
        destruct (runTransaction _ _ _) as [[[[]|e] db'] out];
          discriminate Hr.
      * rewrite (monetag_reward_unanswered cfg env req db uid e
                   Hs Hu Hne Hp Href) in Hr.
        discriminate Hr.
  - intros Hcond. rewrite Hbad; [repeat split|].
    rewrite !orb_true_iff.
    destruct Hcond as [Hu|[Hu|[Hn|Hle]]].
    + rewrite Hu. auto.
    + rewrite Hu. auto.
    + rewrite Hn. auto.
    + auto.
  - intros Hno. apply parseInt_NaN_iff in Hno. apply Hbad.
    rewrite Hno. apply orb_true_iff. left. apply orb_true_r.
Qed.

(** ** Decimal text and the Number it parses to *)

Lemma decimal_digit_range (c : N) :
  is_decimal_digit c = true <-> (48 <= c <= 57)%N.
Proof.
  unfold is_decimal_digit. rewrite andb_true_iff, !N.leb_le. tauto.
Qed.

Lemma decimal_digit_not_whitespace (c : N) :
  is_decimal_digit c = true -> is_whitespace c = false.
Proof.
  rewrite decimal_digit_range. intros Hc. unfold is_whitespace.
  repeat (apply orb_false_intro);
    try (apply N.eqb_neq; lia).
  apply andb_false_iff. left. apply N.leb_gt. lia.
Qed.

Lemma decimal_digit_radix_10 (c : N) :
  is_decimal_digit c = true -> radix_digit 10 c = Some (Z.of_N c - 48).
Proof.
  intros Hc. unfold radix_digit, digit_value.
  fold (is_decimal_digit c). rewrite Hc.
  apply decimal_digit_range in Hc.
  destruct (Z.ltb_spec (Z.of_N c - 48) 10); [reflexivity | lia].
Qed.

Lemma uint_units_digits (d : Decimal.uint) :
  Forall (fun c => is_decimal_digit c = true) (uint_units d).
Proof. induction d; simpl; constructor; auto. Qed.

Lemma uint_units_nonempty (d : Decimal.uint) :
  d <> Decimal.Nil -> uint_units d <> [].
Proof. destruct d; simpl; congruence. Qed.

Lemma to_uint_not_Nil (n : N) : N.to_uint n <> Decimal.Nil.
Proof.
  destruct n as [|p]; [discriminate|].
  apply DecimalPos.Unsigned.to_uint_nonnil.
Qed.

Lemma mathInt_acc (d : Decimal.uint) (acc : positive) :
  fold_left (fun a k => a * 10 + k) (digits_prefix 10 (uint_units d))
    (Z.pos acc)
  = Z.pos (Pos.of_uint_acc d acc).
Proof.
  revert acc.
  induction d; intros acc; cbn [uint_units digits_prefix Pos.of_uint_acc];
    [reflexivity|..];
    rewrite decimal_digit_radix_10 by reflexivity;
    cbn [fold_left]; rewrite <- IHd; f_equal; lia.
Qed.

Lemma mathInt_of_uint (d : Decimal.uint) :
  mathInt 10 (digits_prefix 10 (uint_units d)) = Z.of_N (N.of_uint d).
Proof.
  unfold mathInt, N.of_uint.
  induction d; cbn [uint_units digits_prefix Pos.of_uint];
    [reflexivity|..];
    rewrite decimal_digit_radix_10 by reflexivity;
    cbn [fold_left];
    [exact IHd|..];
    exact (mathInt_acc d _).
Qed.

(** A digit string is read by [parseInt] in full, in radix 10. *)
Lemma parseInt_digits (s : jsstring) :
  s <> [] -> Forall (fun c => is_decimal_digit c = true) s ->
  parseInt (Some s) = to_binary64 (mathInt 10 (digits_prefix 10 s)).
Proof.
  intros Hne Hall. destruct s as [|c s]; [congruence|].
  inversion Hall as [|? ? Hc Hs]; subst.
  unfold parseInt. cbn [ToString trim_start].
  rewrite (decimal_digit_not_whitespace c Hc).
  pose proof (proj1 (decimal_digit_range c) Hc) as Hr.
  assert (Hsign : strip_sign (c :: s) = (1, c :: s)).
  { unfold strip_sign, minus_sign, plus_sign.
    destruct (N.eqb_spec c 45); [lia|].
    destruct (N.eqb_spec c 43); [lia|]. reflexivity. }
  rewrite Hsign.
  assert (Hpre : strip_prefix (c :: s) = (10, c :: s)).
  { unfold strip_prefix. destruct s as [|c1 s]; [reflexivity|].
    inversion Hs as [|? ? Hc1 _]; subst.
    apply decimal_digit_range in Hc1.
    destruct (N.eqb_spec c1 120); [lia|].
    destruct (N.eqb_spec c1 88); [lia|].
    rewrite andb_false_r. reflexivity. }
  rewrite Hpre. cbn [digits_prefix].
  rewrite (decimal_digit_radix_10 c Hc).
  f_equal. lia.
Qed.

Lemma parseInt_decimal (p : Z) :
  0 <= p -> parseInt (Some (decimal p)) = to_binary64 p.
Proof.
  intros Hp. unfold decimal.
  rewrite parseInt_digits.
  - rewrite mathInt_of_uint, DecimalN.Unsigned.of_to, Z2N.id by exact Hp.
    reflexivity.
  - apply uint_units_nonempty, to_uint_not_Nil.
  - apply uint_units_digits.
Qed.

(** ** References *)

Lemma split_slash_plain (s : jsstring) :
  forallb (fun c => negb (c =? slash)%N) s = true -> split_slash s = [s].
Proof.
  induction s as [|c s IH]; cbn [forallb split_slash]; [reflexivity|].
  rewrite andb_true_iff, negb_true_iff. intros [-> Hs].
  rewrite (IH Hs). reflexivity.
Qed.

Lemma has_double_slash_plain (s : jsstring) :
  forallb (fun c => negb (c =? slash)%N) s = true ->
  has_double_slash s = false.
Proof.
  induction s as [|c s IH]; cbn [forallb has_double_slash]; [reflexivity|].
  rewrite andb_true_iff, negb_true_iff. intros [Hc Hs].
  destruct s as [|c' s]; [reflexivity|].
  rewrite Hc, (IH Hs). reflexivity.
Qed.

Lemma append_plain (path : ResourcePath) (s : jsstring) :
  plain s = true ->
  validateResourcePath s = Ok tt /\ append path s = path ++ [s].
Proof.
  unfold plain. rewrite andb_true_iff. intros [Hne Hs].
  unfold validateResourcePath, append, split.
  rewrite (has_double_slash_plain s Hs), (split_slash_plain s Hs).
  destruct s as [|c s]; [discriminate Hne|]. split; reflexivity.
Qed.

Lemma collection_plain (parent : ResourcePath) (s : jsstring) :
  plain s = true -> Nat.even (length parent) = true ->
  collection parent s = Ok (parent ++ [s]).
Proof.
  intros Hs Hp. unfold collection.
  destruct (append_plain parent s Hs) as [-> ->]. cbn [mbind Result_bind].
  unfold isCollection. rewrite length_app, Nat.add_1_r, Nat.odd_succ, Hp.
  reflexivity.
Qed.

Lemma doc_plain (parent : ResourcePath) (s : jsstring) :
  plain s = true -> Nat.odd (length parent) = true ->
  doc parent s = Ok (parent ++ [s]).
Proof.
  intros Hs Hp. unfold doc.
  destruct (append_plain parent s Hs) as [-> ->]. cbn [mbind Result_bind].
  unfold isDocument. rewrite length_app, Nat.add_1_r, Nat.even_succ, Hp.
  reflexivity.
Qed.

(** For an application id and a user id without a slash, the profile
    is the document [artifacts/<APP_ID>/users/<user_id>/data/profile]. *)
Lemma profile_ref_plain (cfg : Config) (uid : jsstring) :
  plain (APP_ID cfg) = true -> plain uid = true ->
  profile_ref cfg uid
  = Ok [str "artifacts"; APP_ID cfg; str "users"; uid;
        str "data"; str "profile"].
Proof.
  intros Happ Huid. unfold profile_ref.
  rewrite (collection_plain [] (str "artifacts")) by reflexivity.
  cbn [mbind Result_bind app].
  rewrite (doc_plain _ (APP_ID cfg)) by (exact Happ || reflexivity).
  cbn [mbind Result_bind app].
  rewrite (collection_plain _ (str "users")) by reflexivity.
  cbn [mbind Result_bind app].
  rewrite (doc_plain _ uid) by (exact Huid || reflexivity).
  cbn [mbind Result_bind app].
  rewrite (collection_plain _ (str "data")) by reflexivity.
  cbn [mbind Result_bind app].
  rewrite (doc_plain _ (str "profile")) by reflexivity.
  reflexivity.
Qed.

(** ** Creation and credit *)

(** What the store makes of an integer balance and a safe integer
    amount whose sum is in the 64-bit range: the exact sum. *)
Lemma value_add_integer (b z : Z) :
  - 2 ^ 63 <= b -> 0 < z <= 2 ^ 53 - 1 -> b + z <= 2 ^ 63 - 1 ->
  value_add (integer b) (encodeValue (Finite z)) = integer (b + z).
Proof.
  intros Hb Hz Hsum.
  change (2 ^ 53) with 9007199254740992 in Hz.
  change (2 ^ 63) with 9223372036854775808 in Hb, Hsum.
  assert (Hsafe : isSafeInteger (Finite z) = true).
  { apply safe_integer_range.
    change (2 ^ 53) with 9007199254740992. lia. }
  unfold encodeValue, integer. rewrite Hsafe. cbn [value_add].
  rewrite !saturate_in_range
    by (change (2 ^ 63) with 9223372036854775808; lia).
  reflexivity.
Qed.

Lemma numberValue_integer (b : Z) :
  - 2 ^ 63 <= b <= 2 ^ 63 - 1 -> numberValue (integer b) = Finite b.
Proof.
  intros Hb. unfold integer. cbn [numberValue].
  rewrite saturate_in_range by exact Hb. reflexivity.
Qed.


(** C2, as the code has it.  A postback with the correct secret and
    valid parameters for a user who has a profile hands the parsed
    reward to the store as an increment of [points], leaves the six
    other fields of the profile and every other document as they were,
    and answers 200.  The store's sum is the exact one when the
    balance is an integer, the reward at most 2^53 - 1 and the sum at
    most 2^63 - 1. *)
Theorem existing_user_points_incremented (cfg : Config) (env : Env)
    (req : Request) (db : Ledger) (uid : jsstring)
    (userDocRef : DocumentReference) (p : UserProfile) :
  secret req = Some (REWARD_ENDPOINT_SECRET cfg) ->
  user_id req = Some uid -> uid <> [] ->
  positive_number (parseInt (points_param req)) ->
  profile_ref cfg uid = Ok userDocRef ->
  db !! userDocRef = Some p ->
  served (store_behaviour env) ->
  response (monetag_reward cfg env req db)
    = Some {| status := 200; body := "Reward processed." |} /\
  (exists p',
      ledger (monetag_reward cfg env req db) !! userDocRef = Some p' /\
      points p'
      = value_add (points p) (encodeValue (parseInt (points_param req))) /\
      (forall b z, points p = integer b -> - 2 ^ 63 <= b ->
                   parseInt (points_param req) = Finite z ->
                   z <= 2 ^ 53 - 1 -> b + z <= 2 ^ 63 - 1 ->
                   points p' = integer (b + z) /\
                   numberValue (points p') = Finite (b + z)) /\
      userId p' = userId p /\
      referrals p' = referrals p /\
      claimedTasks p' = claimedTasks p /\
      lastAdWatchDate p' = lastAdWatchDate p /\
      adsWatchedToday p' = adsWatchedToday p /\
      processingWithdrawal p' = processingWithdrawal p) /\
  (forall ref, ref <> userDocRef ->
      ledger (monetag_reward cfg env req db) !! ref = db !! ref).
Proof.
  intros Hs Hu Hne Hp Href Hsome Hh.
  rewrite (monetag_reward_validated cfg env req db uid userDocRef
             Hs Hu Hne Hp Href).
  destruct (credit_present env uid (parseInt (points_param req)) userDocRef
              db p Hsome Hh) as [Hr Hl].
  rewrite Hr, Hl. split; [reflexivity|]. split.
  - eexists. split; [apply lookup_insert_eq|].
    unfold credited. cbn [set_points points userId referrals claimedTasks
                            lastAdWatchDate adsWatchedToday
                            processingWithdrawal].
    split; [reflexivity|]. split; [|repeat split].
    intros b z Hb Hlo Hz Hsafe Hsum.
    rewrite Hz in Hp |- *. cbn [positive_number] in Hp.
    rewrite Hb, value_add_integer by lia.
    split; [reflexivity|]. apply numberValue_integer. lia.
  - intros ref Hneq. apply lookup_insert_ne. congruence.
Qed.

(** C8, as the code has it.  Two successive identical validated
    postbacks for an existing user are both handed to the store and
    both answered 200: nothing tells the second from the first.  The
    balance ends [2 * p] above where it started when it is an integer,
    [p] is at most 2^53 - 1 and the sum at most 2^63 - 1. *)
Theorem retry_credited_twice (cfg : Config) (env1 env2 : Env)
    (req : Request) (db : Ledger) (uid : jsstring)
    (userDocRef : DocumentReference) (prof : UserProfile) (p : Z) :
  secret req = Some (REWARD_ENDPOINT_SECRET cfg) ->
  user_id req = Some uid -> uid <> [] ->
  parseInt (points_param req) = Finite p -> 0 < p ->
  profile_ref cfg uid = Ok userDocRef ->
  db !! userDocRef = Some prof ->
  served (store_behaviour env1) ->
  served (store_behaviour env2) ->
  let first := monetag_reward cfg env1 req db in
  let second := monetag_reward cfg env2 req (ledger first) in
  response first = Some {| status := 200; body := "Reward processed." |} /\
  response second = Some {| status := 200; body := "Reward processed." |} /\
  exists prof'',
    ledger second !! userDocRef = Some prof'' /\
    points prof''
    = value_add (value_add (points prof) (encodeValue (Finite p)))
        (encodeValue (Finite p)) /\
    (forall b, points prof = integer b -> - 2 ^ 63 <= b ->
               p <= 2 ^ 53 - 1 -> b + 2 * p <= 2 ^ 63 - 1 ->
               points prof'' = integer (b + 2 * p) /\
               numberValue (points prof'') = Finite (b + 2 * p)).
Proof.
  intros Hs Hu Hne Hp Hpos Href Hdb Hh1 Hh2 first second.
  assert (Hpn : positive_number (parseInt (points_param req)))
    by (rewrite Hp; exact Hpos).
  subst first second.
  rewrite (monetag_reward_validated cfg env1 req db uid userDocRef
             Hs Hu Hne Hpn Href).
  destruct (credit_present env1 uid (parseInt (points_param req)) userDocRef
              db prof Hdb Hh1) as [Hr1 Hl1].
  rewrite Hr1, Hl1.
  rewrite (monetag_reward_validated cfg env2 req _ uid userDocRef
             Hs Hu Hne Hpn Href).
  destruct (credit_present env2 uid (parseInt (points_param req)) userDocRef
              (<[userDocRef := credited prof (parseInt (points_param req))]> db)
              _ (lookup_insert_eq _ _ _) Hh2) as [Hr2 Hl2].
  rewrite Hr2, Hl2. split; [reflexivity|]. split; [reflexivity|].
  eexists. split; [apply lookup_insert_eq|].
  unfold credited. cbn [set_points points]. rewrite Hp.
  split; [reflexivity|].
  intros b Hb Hlo Hsafe Hsum.
  rewrite Hb, !value_add_integer by lia.
  replace (b + p + p) with (b + 2 * p) by lia.
  split; [reflexivity|]. apply numberValue_integer. lia.
Qed.

(** What a served credit leaves: the profile is there, and no other
    document has changed. *)
Lemma credit_balance (env : Env) (uid : jsstring) (n : number)
    (userDocRef : DocumentReference) (db : Ledger) :
  served (store_behaviour env) ->
  response (credit env uid n userDocRef db) = Some ok_response /\
  ledger (credit env uid n userDocRef db) = rewarded env uid n userDocRef db /\
  is_Some (ledger (credit env uid n userDocRef db) !! userDocRef) /\
  (forall ref, ref <> userDocRef ->
     ledger (credit env uid n userDocRef db) !! ref = db !! ref).
Proof.
  intros Hh. rewrite (credit_served _ _ _ _ _ Hh).
  cbn [response ledger]. unfold rewarded.
  destruct (db !! userDocRef) as [p|] eqn:Hdb;
    rewrite lookup_insert_eq; repeat split; eauto;
    intros ref Hne; apply lookup_insert_ne; congruence.
Qed.

(** C9, as the code has it.  Every positive integer in [points],
    however large, passes validation with the correct secret and a
    non-empty [user_id] (one the client builds a reference from), and
    is answered 200 when the store serves the transaction: there is no
    upper bound.  The amount handed to the store is the Number
    [parseInt] yields, the integer rounded to binary64: positive, the
    integer itself up to 2^53; a new profile starts with it. *)
Theorem no_upper_bound_on_points (cfg : Config) (env : Env) (req : Request)
    (db : Ledger) (uid : jsstring) (userDocRef : DocumentReference) (p : Z) :
  0 < p ->
  secret req = Some (REWARD_ENDPOINT_SECRET cfg) ->
  user_id req = Some uid -> uid <> [] ->
  points_param req = Some (decimal p) ->
  profile_ref cfg uid = Ok userDocRef ->
  served (store_behaviour env) ->
  response (monetag_reward cfg env req db)
    = Some {| status := 200; body := "Reward processed." |} /\
  ledger (monetag_reward cfg env req db)
    = rewarded env uid (to_binary64 p) userDocRef db /\
  positive_number (to_binary64 p) /\
  (p <= 2 ^ 53 -> to_binary64 p = Finite p) /\
  (db !! userDocRef = None ->
   balance_of (ledger (monetag_reward cfg env req db) !! userDocRef)
   = to_binary64 p).
Proof.
  intros Hp Hs Hu Hne Hpts Href Hh.
  assert (Hparse : parseInt (points_param req) = to_binary64 p)
    by (rewrite Hpts; apply parseInt_decimal; lia).
  pose proof (to_binary64_positive p Hp) as Hpos.
  rewrite (monetag_reward_validated cfg env req db uid userDocRef
             Hs Hu Hne) by (rewrite ?Hparse; assumption).
  rewrite Hparse.
  destruct (credit_balance env uid (to_binary64 p) userDocRef db Hh)
    as (Hr & Hl & _ & _).
  rewrite Hr, Hl.
  repeat split; try assumption.
  - intros Hle. apply to_binary64_exact. lia.
  - intros Hnone. unfold rewarded. rewrite Hnone, lookup_insert_eq.
    cbn [balance_of new_profile points].
    apply numberValue_encodeValue, is_binary64_to_binary64.
Qed.

(** * Further properties of the server *)

(** ** Start of the process *)

Lemma not_true (v : option jsstring) :
  not_ v = true <-> v = None \/ v = Some [].
Proof.
  destruct v as [[|c s]|]; simpl; split; auto; try discriminate.
  intros [H|H]; discriminate H.
Qed.

(** X1. The server goes past its check of the environment exactly when
    BOT_TOKEN, WEB_APP_URL, REWARD_ENDPOINT_SECRET and
    FIREBASE_SERVICE_KEY are all set to non-empty strings; otherwise it
    prints its two error lines and exits with code 1.  An environment
    that lets it through lets the bot-only server of [index.js]
    through as well. *)
Theorem startup_check (penv : ProcessEnv) :
  (Startup.boot penv = Startup.Proceed (Startup.read penv) <->
   forall name : string,
     name ∈ ["BOT_TOKEN"; "WEB_APP_URL"; "REWARD_ENDPOINT_SECRET";
             "FIREBASE_SERVICE_KEY"]%string ->
     exists v, penv !! name = Some v /\ v <> []) /\
  (Startup.boot penv = Startup.Proceed (Startup.read penv) \/
   Startup.boot penv
   = Startup.Exit 1
       [ConsoleError
          [LText "CRITICAL ERROR: Missing one or more environment variables."];
        ConsoleError
          [LText "Required: BOT_TOKEN, WEB_APP_URL, REWARD_ENDPOINT_SECRET, FIREBASE_SERVICE_KEY."]]) /\
  (Startup.boot penv = Startup.Proceed (Startup.read penv) ->
   BotOnly.boot penv = BotOnly.Proceed (BotOnly.read penv)).
Proof.
  unfold Startup.boot, Startup.check, BotOnly.boot, BotOnly.check.
  cbn [Startup.read BotOnly.read Startup.BOT_TOKEN Startup.WEB_APP_URL
       Startup.REWARD_ENDPOINT_SECRET Startup.FIREBASE_SERVICE_KEY
       BotOnly.BOT_TOKEN BotOnly.WEB_APP_URL].
  split; [split|split].
  - intros Hp name Hin.
    destruct (_ || _) eqn:Hchk in Hp; [discriminate|].
    rewrite !orb_false_iff in Hchk. destruct Hchk as [[[H1 H2] H3] H4].
    apply not_false.
    repeat (apply elem_of_cons in Hin as [->|Hin]); try assumption.
    apply elem_of_nil in Hin. destruct Hin.
  - intros Hall.
    rewrite (proj2 (not_false _) (Hall "BOT_TOKEN"%string ltac:(set_solver))).
    rewrite (proj2 (not_false _) (Hall "WEB_APP_URL"%string ltac:(set_solver))).
    rewrite (proj2 (not_false _)
               (Hall "REWARD_ENDPOINT_SECRET"%string ltac:(set_solver))).
    rewrite (proj2 (not_false _)
               (Hall "FIREBASE_SERVICE_KEY"%string ltac:(set_solver))).
    reflexivity.
  - destruct (_ || _); auto.
  - destruct (_ || _ || _ || _) eqn:Hchk; [discriminate|]. intros _.
    rewrite !orb_false_iff in Hchk. destruct Hchk as [[[H1 H2] _] _].
    rewrite H1, H2. reflexivity.
Qed.

(** X2. On a server that got past the check, the configured secret is
    a non-empty string, so a postback with no [secret] parameter or an
    empty one is answered 403 and leaves the ledger alone. *)
Theorem empty_secret_never_authenticates (penv : ProcessEnv)
    (c : Startup.Constants) (project_id : jsstring) (env : Env)
    (req : Request) (db : Ledger) :
  Startup.boot penv = Startup.Proceed c ->
  exists s,
    Startup.REWARD_ENDPOINT_SECRET c = Some s /\ s <> [] /\
    (secret req = None \/ secret req = Some [] ->
     monetag_reward {| REWARD_ENDPOINT_SECRET := s; APP_ID := project_id |}
       env req db
     = forbidden req db).
Proof.
  unfold Startup.boot, Startup.check. intros Hboot.
  destruct (_ || _) eqn:Hchk; [discriminate|].
  injection Hboot as <-.
  rewrite !orb_false_iff in Hchk. destruct Hchk as [[[_ _] H3] _].
  apply not_false in H3 as (s & Hs & Hne).
  exists s. split; [exact Hs|]. split; [exact Hne|].
  intros Hreq. apply secret_mismatch_unchanged. simpl.
  destruct Hreq as [-> | ->]; congruence.
Qed.

(** ** Outcomes of a request *)

(** The four ways through the handler. *)
Lemma monetag_reward_cases (cfg : Config) (env : Env) (req : Request)
    (db : Ledger) :
  (secret req <> Some (REWARD_ENDPOINT_SECRET cfg) /\
   monetag_reward cfg env req db = forbidden req db) \/
  (secret req = Some (REWARD_ENDPOINT_SECRET cfg) /\
   ~ ((exists uid, user_id req = Some uid /\ uid <> []) /\
      positive_number (amount req)) /\
   monetag_reward cfg env req db = bad_request db) \/
  (exists uid e,
     secret req = Some (REWARD_ENDPOINT_SECRET cfg) /\
     user_id req = Some uid /\ uid <> [] /\
     positive_number (amount req) /\
     profile_ref cfg uid = Throw e /\
     monetag_reward cfg env req db = unanswered db) \/
  (exists uid userDocRef,
     secret req = Some (REWARD_ENDPOINT_SECRET cfg) /\
     user_id req = Some uid /\ uid <> [] /\
     positive_number (amount req) /\
     profile_ref cfg uid = Ok userDocRef /\
     monetag_reward cfg env req db
     = credit env uid (amount req) userDocRef db).
Proof.
  unfold amount.
  destruct (decide (secret req = Some (REWARD_ENDPOINT_SECRET cfg))) as [Hs|Hs];
    [|left; split; [exact Hs | apply secret_mismatch_unchanged, Hs]].
  right.
  destruct (not_ (user_id req) || isNaN (parseInt (points_param req))
            || num_leb (parseInt (points_param req)) (Finite 0)) eqn:Hchk.
  - left. split; [exact Hs|]. split.
    + intros Hok. apply parameters_check_false in Hok. congruence.
    + unfold monetag_reward. apply strict_neq_false in Hs.
      rewrite Hs, Hchk. reflexivity.
  - right. apply parameters_check_false in Hchk as [(uid & Hu & Hne) Hp].
    destruct (profile_ref cfg uid) as [userDocRef|e] eqn:Href.
    + right. exists uid, userDocRef. repeat split; try assumption.
      apply monetag_reward_validated; assumption.
    + left. exists uid, e. repeat split; try assumption.
      eapply monetag_reward_unanswered; eassumption.
Qed.

Lemma past_read_le (retries : nat) (sb : StoreBehaviour) :
  (past_read retries sb <= S retries)%nat.
Proof.
  revert sb. induction retries as [|retries IH]; intros sb;
    cbn [past_read]; destruct (hd Serves sb) as [|e|e]; try lia;
    destruct (retryable e); try lia;
    specialize (IH (tl sb)); lia.
Qed.

Lemma past_read_served (retries : nat) (sb : StoreBehaviour) :
  thrown retries sb = None -> (1 <= past_read retries sb)%nat.
Proof.
  revert sb. induction retries as [|retries IH]; intros sb;
    cbn [past_read thrown]; destruct (hd Serves sb) as [|e|e];
    cbn [attempt_error]; try lia; try discriminate;
    destruct (retryable e); try discriminate; try lia.
  apply IH.
Qed.

(** The two ways through the [try] block. *)
Lemma credit_cases (env : Env) (uid : jsstring) (n : number)
    (userDocRef : DocumentReference) (db : Ledger) :
  let line := reward_line uid n (db !! userDocRef) in
  exists k : nat,
    (k <= maxAttempts)%nat /\
    ((1 <= k)%nat /\
     credit env uid n userDocRef db
     = {| response := Some ok_response;
          ledger := rewarded env uid n userDocRef db;
          console := List.repeat line k |} \/
     exists e,
       credit env uid n userDocRef db
       = {| response := Some {| status := 500;
                                body := "Server Error during reward transaction." |};
            ledger := db;
            console := List.repeat line k ++ [failure_line uid e] |}).
Proof.
  intros line. exists (past_read (Nat.pred maxAttempts) (store_behaviour env)).
  split; [apply past_read_le|].
  destruct (thrown (Nat.pred maxAttempts) (store_behaviour env)) as [e|] eqn:He.
  - right. exists e. apply credit_thrown, He.
  - left. split; [apply past_read_served, He|]. apply credit_served, He.
Qed.

Lemma rewarded_is_Some (env : Env) (uid : jsstring) (n : number)
    (userDocRef : DocumentReference) (db : Ledger) :
  is_Some (rewarded env uid n userDocRef db !! userDocRef).
Proof.
  unfold rewarded. destruct (db !! userDocRef);
    rewrite lookup_insert_eq; eauto.
Qed.

(** X3. A request is answered with one of four fixed responses (403,
    400, 200, 500, each with its body), or is left without an answer;
    it is left without one exactly when it passes the checks and the
    client refuses to build a reference from its [user_id].  Unless
    the answer is 200 the ledger is left exactly as it was, and after
    a 200 the profile under the reference built from [user_id]
    exists. *)
Theorem response_classes (cfg : Config) (env : Env) (req : Request)
    (db : Ledger) :
  (response (monetag_reward cfg env req db)
     = Some {| status := 403; body := "Invalid secret." |} \/
   response (monetag_reward cfg env req db)
     = Some {| status := 400; body := "Invalid parameters." |} \/
   response (monetag_reward cfg env req db)
     = Some {| status := 200; body := "Reward processed." |} \/
   response (monetag_reward cfg env req db)
     = Some {| status := 500;
               body := "Server Error during reward transaction." |} \/
   response (monetag_reward cfg env req db) = None) /\
  (response (monetag_reward cfg env req db) = None <->
   secret req = Some (REWARD_ENDPOINT_SECRET cfg) /\
   positive_number (amount req) /\
   exists uid e, user_id req = Some uid /\ uid <> [] /\
                 profile_ref cfg uid = Throw e) /\
  (response (monetag_reward cfg env req db) <> Some ok_response ->
   ledger (monetag_reward cfg env req db) = db) /\
  (response (monetag_reward cfg env req db) = Some ok_response ->
   exists uid userDocRef,
     user_id req = Some uid /\ profile_ref cfg uid = Ok userDocRef /\
     is_Some (ledger (monetag_reward cfg env req db) !! userDocRef)).
Proof.
  destruct (monetag_reward_cases cfg env req db)
    as [[Hs ->] | [(Hs & Hbad & ->) | [(uid & e & Hs & Hu & Hne & Hp & Href & ->)
        | (uid & userDocRef & Hs & Hu & Hne & Hp & Href & ->)]]].
  - cbn [response ledger forbidden].
    split; [auto|]. split; [split; [discriminate|]|].
    + intros (Hs' & _). congruence.
    + split; [reflexivity | discriminate].
  - cbn [response ledger bad_request].
    split; [auto|]. split; [split; [discriminate|]|].
    + intros (_ & Hp & uid & e & Hu & Hne & _). exfalso. apply Hbad. eauto.
    + split; [reflexivity | discriminate].
  - cbn [response ledger unanswered].
    split; [auto 10|]. split; [split; [eauto 10 | reflexivity]|].
    split; [reflexivity | discriminate].
  - destruct (credit_cases env uid (amount req) userDocRef db)
      as (k & Hk & [[Hk1 ->] | [e ->]]); cbn [response ledger].
    + split; [auto|]. split; [split; [discriminate|]|].
      * intros (_ & _ & uid' & e & Hu' & _ & Href'). congruence.
      * split; [intros Hno; contradiction|].
        intros _. exists uid, userDocRef. repeat split; try assumption.
        apply rewarded_is_Some.
    + split; [auto 10|]. split; [split; [discriminate|]|].
      * intros (_ & _ & uid' & e' & Hu' & _ & Href'). congruence.
      * split; [reflexivity | discriminate].
Qed.

Lemma insert_frame (db : Ledger) (k : DocumentReference) (v : UserProfile) :
  (forall ref, <[k := v]> db !! ref <> db !! ref -> ref = k) /\
  (forall ref, is_Some (db !! ref) -> is_Some (<[k := v]> db !! ref)) /\
  (size db <= size (<[k := v]> db) <= S (size db))%nat.
Proof.
  split; [|split].
  - intros ref Hdiff. destruct (decide (ref = k)) as [->|Hne]; [reflexivity|].
    rewrite lookup_insert_ne in Hdiff by congruence. congruence.
  - intros ref Hsome. destruct (decide (ref = k)) as [->|Hne].
    + rewrite lookup_insert_eq. eauto.
    + rewrite lookup_insert_ne by congruence. exact Hsome.
  - destruct (db !! k) as [w|] eqn:Hk.
    + rewrite map_size_insert_Some by eauto. lia.
    + rewrite map_size_insert_None by exact Hk. lia.
Qed.

(** X4. A request changes at most one document, the profile of the
    user it names, and only when it is answered 200; it never removes
    a document, and the ledger grows by one document at most. *)
Theorem only_named_profile_changes (cfg : Config) (env : Env)
    (req : Request) (db : Ledger) :
  (forall ref, ledger (monetag_reward cfg env req db) !! ref <> db !! ref ->
     status <$> response (monetag_reward cfg env req db) = Some 200 /\
     exists uid, user_id req = Some uid /\ profile_ref cfg uid = Ok ref) /\
  (forall ref, is_Some (db !! ref) ->
     is_Some (ledger (monetag_reward cfg env req db) !! ref)) /\
  (size db <= size (ledger (monetag_reward cfg env req db)) <= S (size db))%nat.
Proof.
  assert (Hsame : forall o : Outcome,
             ledger o = db ->
             (forall ref, ledger o !! ref <> db !! ref ->
                status <$> response o = Some 200 /\
                exists uid', user_id req = Some uid' /\
                             profile_ref cfg uid' = Ok ref) /\
             (forall ref, is_Some (db !! ref) -> is_Some (ledger o !! ref)) /\
             (size db <= size (ledger o) <= S (size db))%nat).
  { intros o ->. split; [|split].
    - intros ref Hdiff. congruence.
    - auto.
    - lia. }
  destruct (monetag_reward_cases cfg env req db)
    as [[_ ->] | [(_ & _ & ->) | [(uid & e & _ & _ & _ & _ & _ & ->)
        | (uid & userDocRef & _ & Hu & _ & _ & Href & ->)]]].
  1,2,3: apply Hsame; reflexivity.
  destruct (credit_cases env uid (amount req) userDocRef db)
    as (k & Hk & [[Hk1 ->] | [e ->]]); [|apply Hsame; reflexivity].
  cbn [response ledger]. unfold rewarded.
  destruct (db !! userDocRef) as [p|] eqn:Hdb;
    match goal with
    | |- context [<[?k := ?v]> db] =>
        destruct (insert_frame db k v) as (Hdiff & Hkeep & Hsize)
    end;
    (split; [|split; assumption]);
    intros ref Hr; (split; [reflexivity|]);
    exists uid; rewrite (Hdiff ref Hr); auto.
Qed.

(** ** Documents and users *)

(** X5. If every profile in the ledger is kept under the reference the
    client builds from its [userId] field, this is still so after any
    request: creation files the profile under the reference built from
    the id it writes, and a credit does not touch the field. *)
Theorem profiles_named_preserved (cfg : Config) (env : Env) (req : Request)
    (db : Ledger) :
  profiles_named cfg db ->
  profiles_named cfg (ledger (monetag_reward cfg env req db)).
Proof.
  intros Hdb ref p.
  destruct (monetag_reward_ledger cfg env req db)
    as [-> | (uid & n & userDocRef & Hu & -> & Hp & Href & _ &
              [[Hnone ->] | (p0 & Hsome & ->)])];
    [apply Hdb|..];
    (destruct (decide (userDocRef = ref)) as [<-|Hne];
     [rewrite lookup_insert_eq; intros [= <-]
     |rewrite lookup_insert_ne by exact Hne; apply Hdb]).
  - exact Href.
  - exact (Hdb _ _ Hsome).
Qed.

(** ** Console *)





(** ** Requests for different users *)

Lemma rewarded_insert_other (env : Env) (uid : jsstring) (n : number)
    (userDocRef : DocumentReference) (db : Ledger)
    (k : DocumentReference) (v : UserProfile) :
  k <> userDocRef ->
  rewarded env uid n userDocRef (<[k := v]> db)
  = <[k := v]> (rewarded env uid n userDocRef db).
Proof.
  intros Hk. unfold rewarded. rewrite lookup_insert_ne by exact Hk.
  destruct (db !! userDocRef); apply insert_insert_ne; congruence.
Qed.

(** A document put under another reference passes through a credit
    untouched and does not change it. *)
Lemma credit_insert_other (env : Env) (uid : jsstring) (n : number)
    (userDocRef : DocumentReference) (db : Ledger)
    (k : DocumentReference) (v : UserProfile) :
  k <> userDocRef ->
  response (credit env uid n userDocRef (<[k := v]> db))
    = response (credit env uid n userDocRef db) /\
  ledger (credit env uid n userDocRef (<[k := v]> db))
    = <[k := v]> (ledger (credit env uid n userDocRef db)) /\
  console (credit env uid n userDocRef (<[k := v]> db))
    = console (credit env uid n userDocRef db).
Proof.
  intros Hk.
  destruct (thrown (Nat.pred maxAttempts) (store_behaviour env)) as [e|] eqn:He.
  - rewrite !(credit_thrown _ _ _ _ _ e He). cbn [response ledger console].
    rewrite lookup_insert_ne by exact Hk. repeat split.
  - rewrite !(credit_served _ _ _ _ _ He). cbn [response ledger console].
    rewrite lookup_insert_ne by exact Hk. repeat split.
    apply rewarded_insert_other, Hk.
Qed.

Lemma monetag_reward_insert_other (cfg : Config) (env : Env) (req : Request)
    (db : Ledger) (k : DocumentReference) (v : UserProfile) :
  (forall uid userDocRef,
     user_id req = Some uid -> profile_ref cfg uid = Ok userDocRef ->
     k <> userDocRef) ->
  response (monetag_reward cfg env req (<[k := v]> db))
    = response (monetag_reward cfg env req db) /\
  ledger (monetag_reward cfg env req (<[k := v]> db))
    = <[k := v]> (ledger (monetag_reward cfg env req db)) /\
  console (monetag_reward cfg env req (<[k := v]> db))
    = console (monetag_reward cfg env req db).
Proof.
  intros Hk. unfold monetag_reward.
  destruct (strict_neq _ _); [repeat split|].
  destruct (_ || _); [repeat split|].
  destruct (user_id req) as [uid|]; [|repeat split].
  destruct (profile_ref cfg uid) as [userDocRef|e] eqn:Href; [|repeat split].
  apply credit_insert_other, (Hk uid); auto.
Qed.

(** X8. Two requests whose [user_id]s the client resolves to different
    documents do not affect each other: taken in either order they get
    the same two responses, print the same lines each, and leave the
    same ledger. *)
Theorem different_users_commute (cfg : Config) (env1 env2 : Env)
    (req1 req2 : Request) (db : Ledger) :
  (forall u1 u2 r1 r2,
     user_id req1 = Some u1 -> user_id req2 = Some u2 ->
     profile_ref cfg u1 = Ok r1 -> profile_ref cfg u2 = Ok r2 -> r1 <> r2) ->
  let a := monetag_reward cfg env1 req1 db in
  let b := monetag_reward cfg env2 req2 (ledger a) in
  let b' := monetag_reward cfg env2 req2 db in
  let a' := monetag_reward cfg env1 req1 (ledger b') in
  response a' = response a /\ response b = response b' /\
  console a' = console a /\ console b = console b' /\
  ledger b = ledger a'.
Proof.
  intros Hne a b b' a'.
  assert (Hb : response b = response b' /\ console b = console b' /\
               (ledger a = db /\ ledger b = ledger b' \/
                exists u1 r1 x, user_id req1 = Some u1 /\
                  profile_ref cfg u1 = Ok r1 /\
                  ledger a = <[r1 := x]> db /\
                  ledger b = <[r1 := x]> (ledger b'))).
  { subst b b'.
    destruct (monetag_reward_ledger cfg env1 req1 db)
      as [Ha | (u1 & n & r1 & Hu1 & _ & _ & Hr1 & _ &
                [[_ Ha] | (p0 & _ & Ha)])].
    - fold a in Ha. rewrite Ha. auto.
    - fold a in Ha. rewrite Ha.
      destruct (monetag_reward_insert_other cfg env2 req2 db
                  r1 (new_profile env1 u1 n)) as (Hr & Hl & Hc).
      { intros u2 r2 Hu2 Hr2. exact (Hne u1 u2 r1 r2 Hu1 Hu2 Hr1 Hr2). }
      split; [exact Hr|]. split; [exact Hc|]. right. eauto 10.
    - fold a in Ha. rewrite Ha.
      destruct (monetag_reward_insert_other cfg env2 req2 db
                  r1 (credited p0 n)) as (Hr & Hl & Hc).
      { intros u2 r2 Hu2 Hr2. exact (Hne u1 u2 r1 r2 Hu1 Hu2 Hr1 Hr2). }
      split; [exact Hr|]. split; [exact Hc|]. right. eauto 10. }
  assert (Ha' : response a' = response a /\ console a' = console a /\
                (ledger b' = db /\ ledger a' = ledger a \/
                 exists u2 r2 y, user_id req2 = Some u2 /\
                   profile_ref cfg u2 = Ok r2 /\
                   ledger b' = <[r2 := y]> db /\
                   ledger a' = <[r2 := y]> (ledger a))).
  { subst a a'.
    destruct (monetag_reward_ledger cfg env2 req2 db)
      as [Hb' | (u2 & n & r2 & Hu2 & _ & _ & Hr2 & _ &
                 [[_ Hb'] | (p0 & _ & Hb')])].
    - fold b' in Hb'. rewrite Hb'. auto.
    - fold b' in Hb'. rewrite Hb'.
      destruct (monetag_reward_insert_other cfg env1 req1 db
                  r2 (new_profile env2 u2 n)) as (Hr & Hl & Hc).
      { intros u1 r1 Hu1 Hr1.
        exact (not_eq_sym (Hne u1 u2 r1 r2 Hu1 Hu2 Hr1 Hr2)). }
      split; [exact Hr|]. split; [exact Hc|]. right. eauto 10.
    - fold b' in Hb'. rewrite Hb'.
      destruct (monetag_reward_insert_other cfg env1 req1 db
                  r2 (credited p0 n)) as (Hr & Hl & Hc).
      { intros u1 r1 Hu1 Hr1.
        exact (not_eq_sym (Hne u1 u2 r1 r2 Hu1 Hu2 Hr1 Hr2)). }
      split; [exact Hr|]. split; [exact Hc|]. right. eauto 10. }
  destruct Hb as (Hrb & Hcb & Hlb), Ha' as (Hra & Hca & Hla).
  repeat split; try assumption.
  destruct Hlb as [[Ha Hb] | (u1 & r1 & x & Hu1 & Hr1 & Ha & Hb)],
           Hla as [[Hb' Ha'] | (u2 & r2 & y & Hu2 & Hr2 & Hb' & Ha')];
    rewrite Hb, Ha'; try congruence.
  rewrite Ha, Hb'. apply insert_insert_ne.
  exact (Hne u1 u2 r1 r2 Hu1 Hu2 Hr1 Hr2).
Qed.

(** ** Texts of the [points] parameter *)

Lemma trim_start_whitespace (ws s : jsstring) :
  Forall (fun c => is_whitespace c = true) ws ->
  trim_start (ws ++ s) = trim_start s.
Proof. induction 1 as [|c ws Hc _ IH]; simpl; [|rewrite Hc]; auto. Qed.

Lemma trim_start_id (s : jsstring) :
  starts_with is_whitespace s = false -> trim_start s = s.
Proof. destruct s as [|c s]; simpl; [reflexivity|]. intros ->. reflexivity. Qed.

Lemma radix_digit_10_None (c : N) :
  is_decimal_digit c = false -> radix_digit 10 c = None.
Proof.
  intros Hc. unfold radix_digit, digit_value.
  fold (is_decimal_digit c). rewrite Hc.
  destruct ((97 <=? c) && (c <=? 122))%N eqn:Hl.
  { apply andb_true_iff in Hl as [Hl _]. apply N.leb_le in Hl.
    destruct (Z.ltb_spec (Z.of_N c - 87) 10); [lia | reflexivity]. }
  destruct ((65 <=? c) && (c <=? 90))%N eqn:Hu; [|reflexivity].
  apply andb_true_iff in Hu as [Hu _]. apply N.leb_le in Hu.
  destruct (Z.ltb_spec (Z.of_N c - 55) 10); [lia | reflexivity].
Qed.

Lemma digits_prefix_app (R : Z) (ds tail : jsstring) :
  Forall (fun c => is_Some (radix_digit R c)) ds ->
  starts_with (fun c => bool_decide (is_Some (radix_digit R c))) tail = false ->
  digits_prefix R (ds ++ tail) = digits_prefix R ds.
Proof.
  intros Hds Htail. induction Hds as [|c ds [d Hc] _ IH]; simpl.
  - destruct tail as [|t tail]; [reflexivity|]. simpl in Htail |- *.
    apply bool_decide_eq_false in Htail.
    destruct (radix_digit R t); [|reflexivity].
    destruct Htail. eauto.
  - rewrite Hc, IH. reflexivity.
Qed.

(** After white space and a sign, what [parseInt] is left with. *)
Lemma parseInt_signed (ws : jsstring) (sg : Sign) (s : jsstring) (R : Z)
    (body : jsstring) (d : Z) (ds : list Z) :
  Forall (fun c => is_whitespace c = true) ws ->
  starts_with is_whitespace s = false ->
  starts_with (fun c => (c =? minus_sign) || (c =? plus_sign))%N s = false ->
  strip_prefix s = (R, body) ->
  digits_prefix R body = d :: ds ->
  parseInt (Some (ws ++ sign_units sg ++ s))
  = to_binary64 (sign_value sg * mathInt R (d :: ds)).
Proof.
  intros Hws Hnw Hns Hpre Hds. unfold parseInt. cbn [ToString].
  rewrite trim_start_whitespace by exact Hws.
  assert (Hsign : strip_sign (trim_start (sign_units sg ++ s))
                  = (sign_value sg, s)).
  { destruct sg; simpl.
    - rewrite trim_start_id by exact Hnw.
      destruct s as [|c s]; [reflexivity|]. simpl in Hns |- *.
      apply orb_false_iff in Hns as [-> ->]. reflexivity.
    - reflexivity.
    - reflexivity. }
  rewrite Hsign, Hpre, Hds. reflexivity.
Qed.

Lemma decimal_shape (p : Z) :
  exists c s, decimal p = c :: s /\
    Forall (fun c => is_decimal_digit c = true) (c :: s).
Proof.
  unfold decimal.
  pose proof (uint_units_digits (N.to_uint (Z.to_N p))) as Hall.
  pose proof (uint_units_nonempty _ (to_uint_not_Nil (Z.to_N p))) as Hne.
  destruct (uint_units _) as [|c s]; [congruence|]. eauto.
Qed.

Lemma decimal_value (p : Z) :
  0 <= p -> mathInt 10 (digits_prefix 10 (decimal p)) = p.
Proof.
  intros Hp. unfold decimal.
  rewrite mathInt_of_uint, DecimalN.Unsigned.of_to, Z2N.id by exact Hp.
  reflexivity.
Qed.

(** The text [white space, sign, decimal digits of p, anything that
    does not go on as a number] parses to [p] with that sign. *)
Lemma parseInt_decimal_text (ws : jsstring) (sg : Sign) (p : Z)
    (tail : jsstring) :
  Forall (fun c => is_whitespace c = true) ws ->
  0 <= p ->
  starts_with is_decimal_digit tail = false ->
  ~ (p = 0 /\ starts_with is_x tail = true) ->
  parseInt (Some (ws ++ sign_units sg ++ decimal p ++ tail))
  = to_binary64 (sign_value sg * p).
Proof.
  intros Hws Hp Htail Hx.
  destruct (decimal_shape p) as (c & s & Hdec & Hall).
  pose proof (decimal_value p Hp) as Hval. rewrite Hdec in Hval |- *.
  pose proof (proj1 (Forall_cons _ _ _) Hall) as [Hc Hs].
  pose proof (proj1 (decimal_digit_range c) Hc) as Hr.
  assert (Hds : digits_prefix 10 ((c :: s) ++ tail)
                = (Z.of_N c - 48) :: digits_prefix 10 s).
  { rewrite digits_prefix_app.
    - cbn [digits_prefix]. rewrite (decimal_digit_radix_10 c Hc). reflexivity.
    - eapply Forall_impl; [exact Hall|]. intros x Hx'. simpl in Hx'.
      rewrite (decimal_digit_radix_10 x Hx'). eauto.
    - destruct tail as [|t tail]; [reflexivity|]. simpl in Htail |- *.
      rewrite (radix_digit_10_None t Htail).
      apply bool_decide_eq_false. intros [? ?]. discriminate. }
  rewrite (parseInt_signed ws sg ((c :: s) ++ tail) 10 ((c :: s) ++ tail)
             (Z.of_N c - 48) (digits_prefix 10 s) Hws).
  - cbn [digits_prefix] in Hval.
    rewrite (decimal_digit_radix_10 c Hc) in Hval. rewrite Hval. reflexivity.
  - simpl. apply decimal_digit_not_whitespace, Hc.
  - simpl. unfold minus_sign, plus_sign.
    apply orb_false_iff. split; apply N.eqb_neq; lia.
  - simpl. destruct s as [|c1 s].
    + destruct tail as [|t tail]; [reflexivity|]. simpl.
      destruct (N.eqb_spec c 48) as [->|]; [|reflexivity].
      fold (is_x t). destruct (is_x t) eqn:Ht; [|reflexivity].
      destruct Hx. split; [|exact Ht].
      cbn [digits_prefix] in Hval. rewrite <- Hval. reflexivity.
    + pose proof (proj1 (Forall_cons _ _ _) Hs) as [Hc1 _].
      apply decimal_digit_range in Hc1. simpl.
      destruct (N.eqb_spec c1 120); [lia|].
      destruct (N.eqb_spec c1 88); [lia|].
      rewrite andb_false_r. reflexivity.
  - exact Hds.
Qed.

Ltac eval_hex_digit :=
  repeat match goal with
         | |- context [radix_digit 16 ?c] =>
             let v := eval vm_compute in (radix_digit 16 c) in
             change (radix_digit 16 c) with v
         end.

Lemma hex_uint_units_digits (d : Hexadecimal.uint) :
  Forall (fun c => is_Some (radix_digit 16 c)) (hex_uint_units d).
Proof.
  induction d; simpl; constructor; auto; eval_hex_digit; eauto.
Qed.

Lemma mathInt_hex_acc (d : Hexadecimal.uint) (acc : positive) :
  fold_left (fun a k => a * 16 + k) (digits_prefix 16 (hex_uint_units d))
    (Z.pos acc)
  = Z.pos (Pos.of_hex_uint_acc d acc).
Proof.
  revert acc.
  induction d; intros acc;
    cbn [hex_uint_units digits_prefix Pos.of_hex_uint_acc];
    [reflexivity|..];
    eval_hex_digit; cbn [fold_left]; rewrite <- IHd; f_equal; lia.
Qed.

Lemma mathInt_of_hex_uint (d : Hexadecimal.uint) :
  mathInt 16 (digits_prefix 16 (hex_uint_units d)) = Z.of_N (N.of_hex_uint d).
Proof.
  unfold mathInt, N.of_hex_uint.
  induction d; cbn [hex_uint_units digits_prefix Pos.of_hex_uint];
    [reflexivity|..];
    eval_hex_digit; cbn [fold_left];
    [exact IHd|..];
    exact (mathInt_hex_acc d _).
Qed.

Lemma hexadecimal_value (p : Z) :
  0 <= p -> mathInt 16 (digits_prefix 16 (hexadecimal p)) = p.
Proof.
  intros Hp. unfold hexadecimal.
  rewrite mathInt_of_hex_uint, HexadecimalN.Unsigned.of_to, Z2N.id
    by exact Hp.
  reflexivity.
Qed.

Lemma hexadecimal_shape (p : Z) :
  exists d ds, digits_prefix 16 (hexadecimal p) = d :: ds.
Proof.
  unfold hexadecimal.
  assert (Hne : N.to_hex_uint (Z.to_N p) <> Hexadecimal.Nil).
  { destruct (Z.to_N p); [discriminate|].
    apply HexadecimalPos.Unsigned.to_uint_nonnil. }
  destruct (N.to_hex_uint (Z.to_N p)); try congruence;
    cbn [hex_uint_units digits_prefix]; eval_hex_digit; eauto.
Qed.

(** The text [white space, sign, 0x or 0X, hexadecimal digits of p,
    anything that is not a hexadecimal digit] parses to [p] with that
    sign. *)
Lemma parseInt_hex_text (ws : jsstring) (sg : Sign) (x : N) (p : Z)
    (tail : jsstring) :
  Forall (fun c => is_whitespace c = true) ws ->
  is_x x = true ->
  0 <= p ->
  starts_with is_hex_digit tail = false ->
  parseInt (Some (ws ++ sign_units sg ++ 48%N :: x :: hexadecimal p ++ tail))
  = to_binary64 (sign_value sg * p).
Proof.
  intros Hws Hx Hp Htail.
  destruct (hexadecimal_shape p) as (d & ds & Hds).
  pose proof (hexadecimal_value p Hp) as Hval. rewrite Hds in Hval.
  rewrite (parseInt_signed ws sg (48%N :: x :: hexadecimal p ++ tail) 16
             (hexadecimal p ++ tail) d ds Hws).
  - rewrite Hval. reflexivity.
  - reflexivity.
  - reflexivity.
  - unfold strip_prefix. fold (is_x x). rewrite Hx. reflexivity.
  - rewrite digits_prefix_app; [exact Hds | apply hex_uint_units_digits |].
    destruct tail as [|t tail]; [reflexivity|]. simpl in Htail |- *.
    unfold is_hex_digit in Htail. apply bool_decide_eq_false.
    destruct (radix_digit 16 t); [discriminate|]. intros [? ?]. discriminate.
Qed.


(** The handler reads [points] through [parseInt] only. *)
Lemma same_amount_same_outcome (cfg : Config) (env : Env) (r1 r2 : Request)
    (db : Ledger) :
  user_id r1 = user_id r2 -> secret r1 = secret r2 -> ip r1 = ip r2 ->
  amount r1 = amount r2 ->
  monetag_reward cfg env r1 db = monetag_reward cfg env r2 db.
Proof.
  unfold amount, monetag_reward, forbidden. intros -> -> -> ->. reflexivity.
Qed.

(** X9. White space and a plus sign before the number and any text
    after it make no difference: the postback has the outcome of the
    one that carries the bare decimal number (response, ledger and
    console alike).  The text after the number may be anything that
    does not start with a digit; after a lone 0 it must not start with
    x, which would make a hexadecimal number. *)
Theorem text_around_number_ignored (cfg : Config) (env : Env) (req : Request)
    (db : Ledger) (ws : jsstring) (sg : Sign) (p : Z) (tail : jsstring) :
  Forall (fun c => is_whitespace c = true) ws ->
  sg <> Minus ->
  0 <= p ->
  starts_with is_decimal_digit tail = false ->
  ~ (p = 0 /\ starts_with is_x tail = true) ->
  points_param req = Some (ws ++ sign_units sg ++ decimal p ++ tail) ->
  monetag_reward cfg env req db
  = monetag_reward cfg env (with_points req (Some (decimal p))) db.
Proof.
  intros Hws Hsg Hp Htail Hx Hpts.
  apply same_amount_same_outcome; try reflexivity.
  unfold amount. rewrite Hpts. cbn [with_points points_param].
  rewrite (parseInt_decimal_text ws sg p tail Hws Hp Htail Hx).
  rewrite parseInt_decimal by exact Hp.
  destruct sg; try congruence; cbn [sign_value]; rewrite Z.mul_1_l;
    reflexivity.
Qed.


(** X11. A hexadecimal number is taken as an amount: with [0x] or [0X]
    in front, the postback has the outcome of the one that carries the
    same number in decimal. *)
Theorem hexadecimal_points_accepted (cfg : Config) (env : Env)
    (req : Request) (db : Ledger) (ws : jsstring) (sg : Sign) (x : N)
    (p : Z) (tail : jsstring) :
  Forall (fun c => is_whitespace c = true) ws ->
  sg <> Minus ->
  is_x x = true ->
  0 <= p ->
  starts_with is_hex_digit tail = false ->
  points_param req
  = Some (ws ++ sign_units sg ++ 48%N :: x :: hexadecimal p ++ tail) ->
  monetag_reward cfg env req db
  = monetag_reward cfg env (with_points req (Some (decimal p))) db.
Proof.
  intros Hws Hsg Hx Hp Htail Hpts.
  apply same_amount_same_outcome; try reflexivity.
  unfold amount. rewrite Hpts. cbn [with_points points_param].
  rewrite (parseInt_hex_text ws sg x p tail Hws Hx Hp Htail).
  rewrite parseInt_decimal by exact Hp.
  destruct sg; try congruence; cbn [sign_value]; rewrite Z.mul_1_l;
    reflexivity.
Qed.

(** ** Requests one after the other *)

Lemma handle_all_acc (cfg : Config) (jobs : list (Env * Request))
    (rs0 : list (option Response)) (db : Ledger) :
  fold_left
    (fun acc job =>
       let o := monetag_reward cfg (fst job) (snd job) (snd acc) in
       (fst acc ++ [response o], ledger o))
    jobs (rs0, db)
  = (rs0 ++ fst (handle_all cfg jobs db), snd (handle_all cfg jobs db)).
Proof.
  unfold handle_all. revert rs0 db.
  induction jobs as [|job jobs IH]; intros rs0 db; cbn [fold_left fst snd].
  - rewrite app_nil_r. reflexivity.
  - rewrite IH. rewrite (IH ([] ++ _)). cbn [fst snd app].
    rewrite <- app_assoc. reflexivity.
Qed.

Lemma handle_all_cons (cfg : Config) (job : Env * Request)
    (jobs : list (Env * Request)) (db : Ledger) :
  handle_all cfg (job :: jobs) db
  = (response (monetag_reward cfg (fst job) (snd job) db)
       :: fst (handle_all cfg jobs
                 (ledger (monetag_reward cfg (fst job) (snd job) db))),
     snd (handle_all cfg jobs
            (ledger (monetag_reward cfg (fst job) (snd job) db)))).
Proof.
  unfold handle_all at 1. cbn [fold_left fst snd].
  rewrite handle_all_acc. reflexivity.
Qed.


Lemma integer_balance_balance (d : DocumentSnapshot) (b : Z) :
  integer_balance d b -> balance_of d = Finite b.
Proof.
  destruct d as [p|]; cbn [integer_balance balance_of].
  - intros (i & -> & <-). reflexivity.
  - intros ->. reflexivity.
Qed.

Lemma integer_balance_range (d : DocumentSnapshot) (b : Z) :
  integer_balance d b -> - 2 ^ 63 <= b <= 2 ^ 63 - 1.
Proof.
  destruct d as [p|]; cbn [integer_balance].
  - intros (i & _ & <-). apply int64_range.
  - intros ->. change (2 ^ 63) with 9223372036854775808. lia.
Qed.

(** A served credit of a safe integer to an integer balance, the sum
    in range, leaves the exact sum. *)
Lemma rewarded_integer (env : Env) (uid : jsstring)
    (userDocRef : DocumentReference) (db : Ledger) (b p : Z) :
  integer_balance (db !! userDocRef) b ->
  0 < p <= 2 ^ 53 - 1 -> b + p <= 2 ^ 63 - 1 ->
  integer_balance (rewarded env uid (Finite p) userDocRef db !! userDocRef)
    (b + p).
Proof.
  intros Hb Hp Hsum. pose proof (integer_balance_range _ _ Hb) as Hrange.
  assert (Hsafe : isSafeInteger (Finite p) = true)
    by (apply safe_integer_range; lia).
  assert (Hp63 : - 2 ^ 63 <= p <= 2 ^ 63 - 1).
  { change (2 ^ 53) with 9007199254740992 in Hp.
    change (2 ^ 63) with 9223372036854775808. lia. }
  unfold rewarded. destruct (db !! userDocRef) as [prof|] eqn:Hdb;
    rewrite lookup_insert_eq; cbn [integer_balance] in *.
  - destruct Hb as (i & Hi & Hv).
    unfold credited, encodeValue. rewrite Hsafe, Hi.
    cbn [set_points points value_add]. eexists. split; [reflexivity|].
    rewrite saturate_in_range; rewrite (saturate_in_range p) by exact Hp63;
      lia.
  - subst b. unfold new_profile, encodeValue. rewrite Hsafe. cbn [points].
    eexists. split; [reflexivity|].
    rewrite saturate_in_range by exact Hp63. lia.
Qed.

Lemma requested_cons (job : Env * Request) (jobs : list (Env * Request)) :
  requested (job :: jobs) = finite_amount (snd job) + requested jobs.
Proof. reflexivity. Qed.

Lemma requested_nonnegative (cfg : Config) (uid : jsstring)
    (jobs : list (Env * Request)) :
  Forall (credit_job cfg uid) jobs -> 0 <= requested jobs.
Proof.
  induction 1 as [|job jobs (_ & _ & _ & _ & p & Hp & Hpos) _ IH];
    [reflexivity|].
  rewrite requested_cons. unfold finite_amount. rewrite Hp. lia.
Qed.

Lemma handle_all_credits (cfg : Config) (uid : jsstring)
    (userDocRef : DocumentReference) (jobs : list (Env * Request))
    (db : Ledger) (b0 : Z) :
  profile_ref cfg uid = Ok userDocRef ->
  Forall (credit_job cfg uid) jobs ->
  integer_balance (db !! userDocRef) b0 ->
  b0 + requested jobs <= 2 ^ 63 - 1 ->
  fst (handle_all cfg jobs db)
  = List.repeat (Some ok_response) (length jobs) /\
  integer_balance (snd (handle_all cfg jobs db) !! userDocRef)
    (b0 + requested jobs).
Proof.
  intros Href Hjobs. revert db b0.
  induction Hjobs as [|job jobs Hjob Hrest IH]; intros db b0 Hb Hsum.
  - cbn [handle_all fold_left fst snd length List.repeat requested foldr].
    rewrite Z.add_0_r. split; [reflexivity | exact Hb].
  - pose proof (requested_nonnegative cfg uid jobs Hrest) as Hnn.
    destruct Hjob as (Hh & Hs & Hu & Hne & p & Hp & Hpos).
    assert (Hreq : requested (job :: jobs) = p + requested jobs).
    { rewrite requested_cons. unfold finite_amount. rewrite Hp.
      reflexivity. }
    rewrite Hreq in *. rewrite handle_all_cons.
    cbn [fst snd length List.repeat].
    assert (Hpn : positive_number (parseInt (points_param (snd job))))
      by (unfold amount in Hp; rewrite Hp; cbn; lia).
    rewrite (monetag_reward_validated cfg (fst job) (snd job) db uid
               userDocRef Hs Hu Hne Hpn Href).
    unfold amount in Hp. rewrite Hp.
    rewrite (credit_served _ _ _ _ _ Hh). cbn [response ledger].
    assert (Hb' : integer_balance
                    (rewarded (fst job) uid (Finite p) userDocRef db
                       !! userDocRef) (b0 + p))
      by (apply rewarded_integer; [exact Hb | lia | lia]).
    destruct (IH _ _ Hb' ltac:(lia)) as [IHr IHb].
    rewrite IHr. split; [reflexivity|].
    replace (b0 + (p + requested jobs)) with (b0 + p + requested jobs) by lia.
    exact IHb.
Qed.

(** X12. Validated credits of safe integer amounts to one user, taken
    one after the other with the store serving each, add up as long as
    the sum stays in the range of the store's integers: each is
    answered 200, and the balance ends at the balance before plus the
    sum of the amounts (a user without a profile starting from
    zero). *)
Theorem credits_add_up (cfg : Config) (uid : jsstring)
    (userDocRef : DocumentReference) (jobs : list (Env * Request))
    (db : Ledger) (b0 : Z) :
  profile_ref cfg uid = Ok userDocRef ->
  Forall (credit_job cfg uid) jobs ->
  integer_balance (db !! userDocRef) b0 ->
  b0 + requested jobs <= 2 ^ 63 - 1 ->
  fst (handle_all cfg jobs db)
  = List.repeat (Some ok_response) (length jobs) /\
  balance_of (snd (handle_all cfg jobs db) !! userDocRef)
  = Finite (b0 + requested jobs).
Proof.
  intros Href Hjobs Hb Hsum.
  destruct (handle_all_credits cfg uid userDocRef jobs db b0
              Href Hjobs Hb Hsum) as [Hr Hbal].
  split; [exact Hr | apply integer_balance_balance, Hbal].
Qed.

(** ** Requests in flight together *)










(** ** Profiles over time *)

Lemma same_but_points_refl (p : UserProfile) : same_but_points p p.
Proof. repeat split. Qed.

Lemma same_but_points_trans (p q r : UserProfile) :
  same_but_points p q -> same_but_points q r -> same_but_points p r.
Proof.
  unfold same_but_points.
  intros (? & ? & ? & ? & ? & ?) (? & ? & ? & ? & ? & ?).
  repeat split; congruence.
Qed.

Lemma monetag_reward_keeps_fields (cfg : Config) (env : Env) (req : Request)
    (db : Ledger) (ref : DocumentReference) (p : UserProfile) :
  db !! ref = Some p ->
  exists p',
    ledger (monetag_reward cfg env req db) !! ref = Some p' /\
    same_but_points p p'.
Proof.
  intros Hdb.
  destruct (monetag_reward_ledger cfg env req db)
    as [-> | (uid & n & userDocRef & Hu & -> & Hp & Href & _ &
              [[Hnone ->] | (p0 & Hsome & ->)])].
  - eauto using same_but_points_refl.
  - exists p. rewrite lookup_insert_ne by congruence.
    eauto using same_but_points_refl.
  - destruct (decide (userDocRef = ref)) as [<-|Hne].
    + rewrite lookup_insert_eq. eexists. split; [reflexivity|].
      assert (p0 = p) as -> by congruence. repeat split.
    + exists p. rewrite lookup_insert_ne by exact Hne.
      eauto using same_but_points_refl.
Qed.

(** X16. Whatever requests follow, for whatever users and with whatever
    outcome, a profile that exists keeps existing and keeps its
    [userId], [referrals], [claimedTasks], [lastAdWatchDate],
    [adsWatchedToday] and [processingWithdrawal]: the endpoint sets
    them once, at creation, and changes [points] only. *)
Theorem profile_fields_frozen (cfg : Config) (jobs : list (Env * Request))
    (db : Ledger) (ref : DocumentReference) (p : UserProfile) :
  db !! ref = Some p ->
  exists p',
    snd (handle_all cfg jobs db) !! ref = Some p' /\
    same_but_points p p'.
Proof.
  revert db p.
  induction jobs as [|job jobs IH]; intros db p Hdb.
  - exists p. split; [exact Hdb | apply same_but_points_refl].
  - rewrite handle_all_cons. cbn [snd].
    destruct (monetag_reward_keeps_fields cfg (fst job) (snd job) db ref p Hdb)
      as (p1 & H1 & Hs1).
    destruct (IH _ _ H1) as (p2 & H2 & Hs2).
    exists p2. split; [exact H2|].
    exact (same_but_points_trans _ _ _ Hs1 Hs2).
Qed.

(** ** Attempts in flight *)

Lemma server_step_length (cfg : Config) (srv : Contention.Server) (i : nat) :
  length (Contention.stages (Contention.server_step cfg srv i))
  = length (Contention.stages srv).
Proof.
  unfold Contention.server_step.
  destruct (Contention.stages srv !! i) as [t|]; [|reflexivity].
  destruct (Contention.stage_step cfg t _ _) as [[[t' db'] vs'] out].
  cbn [Contention.stages]. apply length_insert.
Qed.

Lemma run_length (cfg : Config) (schedule : list nat)
    (srv : Contention.Server) :
  length (Contention.stages (Contention.run cfg schedule srv))
  = length (Contention.stages srv).
Proof.
  unfold Contention.run. revert srv.
  induction schedule as [|j schedule IH]; intros srv; cbn [fold_left];
    [reflexivity|].
  rewrite IH. apply server_step_length.
Qed.

(** ** Concurrent credits to one user *)

(** The transaction function on a fresh attempt. *)
Lemma reward_transaction_run (env : Env) (uid : jsstring) (n : number)
    (ref : DocumentReference) (db : Ledger) (beh : Attempt) :
  reward_transaction env uid n ref
    {| tx_store := db; tx_behaviour := beh;
       tx_writes := []; tx_console := [] |}
  = match beh with
    | ReadFails e =>
        (Throw e, {| tx_store := db; tx_behaviour := beh;
                     tx_writes := []; tx_console := [] |})
    | _ =>
        (Ok tt, {| tx_store := db; tx_behaviour := beh;
                   tx_writes := Contention.reward_writes env uid n ref
                                  (db !! ref);
                   tx_console := [reward_line uid n (db !! ref)] |})
    end.
Proof.
  unfold reward_transaction, mbind, Tx_bind, transaction_get.
  destruct beh as [|e|e]; cbn [tx_behaviour tx_store]; [|reflexivity|];
    destruct (db !! ref) as [prof|]; reflexivity.
Qed.

(** Committing the writes of an attempt whose read is still current. *)
Lemma apply_reward_writes (env : Env) (uid : jsstring) (n : number)
    (ref : DocumentReference) (db : Ledger) (vs : Contention.Versions) :
  apply_writes db (Contention.reward_writes env uid n ref (db !! ref))
  = Ok (rewarded env uid n ref db) /\
  Contention.version_of
    (Contention.advance vs (Contention.reward_writes env uid n ref (db !! ref)))
    ref
  = S (Contention.version_of vs ref).
Proof.
  unfold rewarded, Contention.reward_writes, Contention.advance.
  destruct (db !! ref) as [prof|] eqn:Hdb;
    cbn [apply_writes apply_write fold_left Contention.write_ref];
    rewrite ?Hdb; (split; [reflexivity|]);
    unfold Contention.version_of at 1; rewrite lookup_insert_eq; reflexivity.
Qed.

Lemma credited_sum_insert (jobs : list (Env * Request))
    (ts : list Contention.Stage) (i : nat) (job : Env * Request)
    (t t' : Contention.Stage) :
  jobs !! i = Some job -> ts !! i = Some t ->
  Contention.credited_sum jobs (<[i := t']> ts)
  + (if Contention.is_credited t then finite_amount (snd job) else 0)
  = Contention.credited_sum jobs ts
    + (if Contention.is_credited t' then finite_amount (snd job) else 0).
Proof.
  unfold Contention.credited_sum. revert ts i.
  induction jobs as [|j jobs IH]; intros [|a ts] [|i] Hj Hi;
    simpl in *; try discriminate.
  - injection Hj as ->. injection Hi as ->. lia.
  - specialize (IH ts i Hj Hi). lia.
Qed.

Lemma postback_job_amount (cfg : Config) (uid : jsstring)
    (job : Env * Request) :
  Contention.postback_job cfg uid job ->
  amount (snd job) = Finite (finite_amount (snd job)) /\
  0 < finite_amount (snd job) <= 2 ^ 53 - 1.
Proof.
  intros (_ & _ & _ & p & Hp & Hpos). unfold finite_amount.
  rewrite Hp. auto.
Qed.

(** The requests not answered 200 have their amounts still to come. *)
Lemma credited_sum_below (cfg : Config) (uid : jsstring)
    (jobs : list (Env * Request)) (ts : list Contention.Stage) :
  Forall (Contention.postback_job cfg uid) jobs ->
  0 <= Contention.credited_sum jobs ts <= requested jobs /\
  forall i job t,
    jobs !! i = Some job -> ts !! i = Some t ->
    Contention.is_credited t = false ->
    Contention.credited_sum jobs ts + finite_amount (snd job)
    <= requested jobs.
Proof.
  unfold Contention.credited_sum. intros Hjobs. revert ts.
  induction Hjobs as [|j jobs Hj _ IH]; intros ts.
  - cbn. split; [lia|]. intros i job t Hi. discriminate Hi.
  - apply postback_job_amount in Hj as [_ Hpos].
    rewrite requested_cons.
    destruct ts as [|a ts].
    + cbn [zip_with foldr]. destruct (IH []) as [Hle _].
      cbn [zip_with foldr] in Hle.
      assert (Hz : zip_with
                     (fun (job : Env * Request) (t : Contention.Stage) =>
                        if Contention.is_credited t
                        then finite_amount (snd job) else 0) jobs [] = [])
        by (destruct jobs; reflexivity).
      rewrite Hz in Hle. cbn [foldr] in Hle.
      split; [lia|]. intros i job t _ Ht. discriminate Ht.
    + cbn [zip_with foldr]. destruct (IH ts) as [Hle Hbelow]. split.
      * destruct (Contention.is_credited a); lia.
      * intros [|i] job t Hi Ht Hc; cbn in Hi, Ht.
        -- injection Hi as <-. injection Ht as <-. rewrite Hc. lia.
        -- specialize (Hbelow i job t Hi Ht Hc).
           destruct (Contention.is_credited a); lia.
Qed.

Lemma credited_sum_all (jobs : list (Env * Request))
    (ts : list Contention.Stage) :
  length ts = length jobs ->
  forallb Contention.is_credited ts = true ->
  Contention.credited_sum jobs ts = requested jobs.
Proof.
  unfold Contention.credited_sum, requested. revert ts.
  induction jobs as [|j jobs IH]; intros [|a ts] Hlen; try discriminate Hlen;
    cbn [forallb zip_with foldr]; [reflexivity|].
  rewrite andb_true_iff. intros [-> Hts].
  rewrite IH; [reflexivity | | exact Hts]. cbn in Hlen. lia.
Qed.

Section OneUser.

Import Contention.

Variables (cfg : Config) (uid : jsstring) (ref : DocumentReference)
          (b0 : Z) (db0 : Ledger) (jobs : list (Env * Request)).

Hypothesis Href : profile_ref cfg uid = Ok ref.
Hypothesis Hjobs : Forall (postback_job cfg uid) jobs.
Hypothesis Hbound : b0 + requested jobs <= 2 ^ 63 - 1.

(** A stage of another request is as good after a write to the
    document as before. *)
Lemma credit_stage_advance (db db' : Ledger) (vs vs' : Versions)
    (job : Env * Request) (t : Stage) :
  version_of vs' ref = S (version_of vs ref) ->
  credit_stage uid ref db vs job t ->
  credit_stage uid ref db' vs' job t.
Proof.
  intros Hv. destruct t as [env r|env u n d sb k|env u n d sb k seen ws|res];
    cbn [credit_stage]; try tauto.
  intros (-> & -> & -> & Hle & _). repeat split; lia.
Qed.

(** After a failed attempt the request is at a stage again. *)
Lemma after_failure_stage (env : Env) (job : Env * Request)
    (sb : StoreBehaviour) (retries : nat) (e : TxError) (db : Ledger)
    (vs : Versions) :
  credit_stage uid ref db vs job
    (fst (after_failure env uid (amount (snd job)) ref sb retries e)) /\
  is_credited (fst (after_failure env uid (amount (snd job)) ref sb retries e))
  = false.
Proof.
  unfold after_failure.
  destruct retries as [|retries]; [|destruct (retryable e)];
    cbn [fst credit_stage is_credited]; auto.
Qed.

(** One step of one request keeps the count. *)
Lemma counted_step (srv : Server) (i : nat) :
  counted uid b0 ref db0 jobs srv ->
  counted uid b0 ref db0 jobs (server_step cfg srv i).
Proof.
  intros (Hall & Hbal & Hframe). unfold server_step.
  destruct (stages srv !! i) as [t|] eqn:Hi; [|repeat split; assumption].
  destruct (Forall2_lookup_r _ _ _ _ _ Hall Hi) as (job & Hjob & Ht).
  pose proof (proj1 (Forall_lookup _ _) Hjobs i job Hjob) as Hvalid.
  destruct (postback_job_amount cfg uid job Hvalid) as [Hamount Hsafe].
  destruct Hvalid as (Hsecret & Huser & Hnonempty & _).
  (* a step that leaves the store and the count as they are *)
  assert (Hquiet : forall t' out,
            credit_stage uid ref (store srv) (versions srv) job t' ->
            is_credited t = false -> is_credited t' = false ->
            counted uid b0 ref db0 jobs
              {| store := store srv; versions := versions srv;
                 stages := <[i := t']> (stages srv);
                 output := out |}).
  { intros t' out Ht' Hc Hc'. unfold counted. cbn [store versions stages].
    split; [|split; [|exact Hframe]].
    - rewrite <- (list_insert_id jobs i job Hjob).
      apply Forall2_insert; assumption.
    - pose proof (credited_sum_insert jobs (stages srv) i job t t' Hjob Hi)
        as Hsum.
      rewrite Hc, Hc' in Hsum.
      replace (credited_sum jobs (<[i := t']> (stages srv)))
        with (credited_sum jobs (stages srv)) by lia.
      exact Hbal. }
  destruct t as [env r|env u n d sb k|env u n d sb k seen ws|res].
  - (* arrival: the checks pass *)
    cbn [credit_stage] in Ht. subst r. cbn [stage_step].
    apply strict_neq_false in Hsecret. rewrite Hsecret.
    assert (Hchk : not_ (user_id (snd job))
                   || isNaN (parseInt (points_param (snd job)))
                   || num_leb (parseInt (points_param (snd job))) (Finite 0)
                   = false).
    { apply parameters_check_false. split; [eauto|].
      unfold amount in Hamount. rewrite Hamount. cbn. lia. }
    rewrite Hchk, Huser, Href.
    apply Hquiet; cbn [credit_stage is_credited]; auto.
  - (* the read of an attempt *)
    cbn [credit_stage] in Ht. destruct Ht as (-> & -> & ->).
    cbn [stage_step]. rewrite reward_transaction_run.
    destruct (hd Serves sb) as [|e|e] eqn:Hbeh; cbn [tx_writes tx_console].
    + apply Hquiet; cbn [credit_stage is_credited]; auto.
    + destruct (after_failure_stage env job sb k e (store srv) (versions srv))
        as [Hst Hc].
      destruct (after_failure env uid (amount (snd job)) ref sb k e)
        as [t' out].
      apply Hquiet; auto.
    + apply Hquiet; cbn [credit_stage is_credited]; auto.
  - (* the commit of an attempt *)
    cbn [credit_stage] in Ht. destruct Ht as (-> & -> & -> & Hle & Hws).
    cbn [stage_step].
    assert (Hfail : forall e,
              counted uid b0 ref db0 jobs
                (let '(t', db', vs', out) :=
                   (let '(t', out) :=
                      after_failure env uid (amount (snd job)) ref sb k e in
                    (t', store srv, versions srv, out)) in
                 {| store := db'; versions := vs';
                    stages := <[i := t']> (stages srv);
                    output := output srv ++ out |})).
    { intros e.
      destruct (after_failure_stage env job sb k e (store srv) (versions srv))
        as [Hst Hc].
      destruct (after_failure env uid (amount (snd job)) ref sb k e)
        as [t' out].
      apply Hquiet; auto. }
    assert (Hcommit :
              counted uid b0 ref db0 jobs
                {| store := rewarded env uid (amount (snd job)) ref (store srv);
                   versions := advance (versions srv)
                                 (reward_writes env uid (amount (snd job)) ref
                                    (store srv !! ref));
                   stages := <[i := Settled (Some {| status := 200;
                                                     body := "Reward processed." |})]>
                               (stages srv);
                   output := output srv ++ [] |}).
    { destruct (apply_reward_writes env uid (amount (snd job)) ref (store srv)
                  (versions srv)) as [_ Hv].
      unfold counted. cbn [store versions stages]. split; [|split].
      - rewrite <- (list_insert_id jobs i job Hjob).
        apply Forall2_insert; [|cbn [credit_stage]; auto].
        eapply Forall2_impl; [exact Hall|].
        intros j t0. apply credit_stage_advance. exact Hv.
      - pose proof (credited_sum_insert jobs (stages srv) i job _
                      (Settled (Some {| status := 200;
                                        body := "Reward processed." |}))
                      Hjob Hi) as Hsum.
        cbn [is_credited] in Hsum.
        rewrite bool_decide_eq_true_2 in Hsum by reflexivity.
        destruct (credited_sum_below cfg uid jobs (stages srv) Hjobs)
          as [_ Hbelow].
        specialize (Hbelow i job _ Hjob Hi eq_refl).
        replace (b0 + credited_sum jobs (<[i := _]> (stages srv)))
          with (b0 + credited_sum jobs (stages srv)
                + finite_amount (snd job)) by lia.
        rewrite Hamount.
        apply rewarded_integer; [exact Hbal | exact Hsafe | lia].
      - intros ref' Hne. rewrite <- (Hframe ref' Hne). unfold rewarded.
        destruct (store srv !! ref); apply lookup_insert_ne; congruence. }
    destruct (hd Serves sb) as [|e|e] eqn:Hbeh; [| |apply Hfail];
      (destruct (decide (version_of (versions srv) ref = seen)) as [Hcur|Hold];
       [|apply Hfail]);
      rewrite (Hws (eq_sym Hcur));
      rewrite (proj1 (apply_reward_writes env uid (amount (snd job)) ref
                        (store srv) (versions srv)));
      exact Hcommit.
  - (* settled *)
    cbn [stage_step]. rewrite list_insert_id by exact Hi.
    repeat split; assumption.
Qed.

Lemma counted_run (schedule : list nat) (srv : Server) :
  counted uid b0 ref db0 jobs srv ->
  counted uid b0 ref db0 jobs (run cfg schedule srv).
Proof.
  unfold run. revert srv.
  induction schedule as [|i schedule IH]; intros srv Hc;
    cbn [fold_left]; [exact Hc|].
  apply IH, counted_step, Hc.
Qed.

Lemma counted_arrived :
  integer_balance (db0 !! ref) b0 ->
  counted uid b0 ref db0 jobs (start db0 (arrived jobs)).
Proof.
  intros Hb. unfold counted, start, arrived. cbn [store versions stages].
  split; [|split; [|reflexivity]].
  - clear. induction jobs as [|job js IH]; constructor; [reflexivity|exact IH].
  - assert (Hzero : credited_sum jobs
                      (List.map (fun job => Received (fst job) (snd job)) jobs)
                    = 0).
    { unfold credited_sum. clear.
      induction jobs as [|job js IH]; [reflexivity|].
      cbn [List.map zip_with foldr is_credited]. rewrite IH. reflexivity. }
    rewrite Hzero, Z.add_0_r. exact Hb.
Qed.

(** Credits in flight together add up. *)
Lemma run_counted (schedule : list nat) :
  integer_balance (db0 !! ref) b0 ->
  let final := run cfg schedule (start db0 (arrived jobs)) in
  balance_of (store final !! ref)
  = Finite (b0 + credited_sum jobs (stages final)) /\
  (forallb is_credited (stages final) = true ->
   balance_of (store final !! ref) = Finite (b0 + requested jobs)) /\
  (forall ref', ref' <> ref -> store final !! ref' = db0 !! ref').
Proof.
  intros Hb final.
  destruct (counted_run schedule _ (counted_arrived Hb))
    as (Hall & Hbal & Hframe).
  fold final in Hall, Hbal, Hframe.
  split; [apply integer_balance_balance, Hbal|]. split; [|exact Hframe].
  intros Hdone.
  rewrite <- (credited_sum_all jobs (stages final));
    [apply integer_balance_balance, Hbal | | exact Hdone].
  symmetry. eapply Forall2_length, Hall.
Qed.

End OneUser.

Lemma credited_count_all (ts : list Contention.Stage) :
  forallb Contention.is_credited ts = true ->
  Contention.credited_count ts = length ts.
Proof.
  unfold Contention.credited_count.
  induction ts as [|a ts IH]; simpl; [reflexivity|].
  rewrite andb_true_iff. intros [Ha Hts]. rewrite Ha. simpl.
  rewrite IH by exact Hts. reflexivity.
Qed.

(** The same request arriving [N] times. *)
Lemma arrivals_arrived (envs : list Env) (req : Request) :
  Contention.arrivals envs req
  = Contention.arrived (List.map (fun env => (env, req)) envs).
Proof.
  unfold Contention.arrivals, Contention.arrived.
  rewrite List.map_map. reflexivity.
Qed.

Lemma requested_same (envs : list Env) (req : Request) :
  requested (List.map (fun env => (env, req)) envs)
  = Z.of_nat (length envs) * finite_amount req.
Proof.
  induction envs as [|env envs IH]; [reflexivity|].
  cbn [List.map length]. rewrite requested_cons, IH. cbn [snd]. lia.
Qed.

Lemma credited_sum_same (envs : list Env) (req : Request)
    (ts : list Contention.Stage) :
  length ts = length envs ->
  Contention.credited_sum (List.map (fun env => (env, req)) envs) ts
  = Z.of_nat (Contention.credited_count ts) * finite_amount req.
Proof.
  unfold Contention.credited_sum, Contention.credited_count. revert ts.
  induction envs as [|env envs IH]; intros [|a ts] Hlen;
    try discriminate Hlen; [reflexivity|].
  cbn [List.map zip_with foldr List.filter snd].
  rewrite IH by (cbn in Hlen; lia).
  destruct (Contention.is_credited a); cbn [length]; lia.
Qed.

(** C7, as the code and the store have it.  [N] validated credits of
    [p] each, to a user whose reference the client builds, in flight
    together: however the event loop interleaves their reads and
    commits, the balance is the balance before plus [p] for each
    request answered 200, so [N * p] from zero once all are, and no
    other document has changed.  No update is lost when a creation and
    a credit race: the attempt whose read is out of date is refused at
    its commit and run again.  The count is exact for a balance held
    as an integer, [p] at most 2^53 - 1 and a sum at most 2^63 - 1. *)
Theorem concurrent_credits_all_counted (cfg : Config) (req : Request)
    (uid : jsstring) (ref : DocumentReference) (p b0 : Z) (envs : list Env)
    (db : Ledger) (schedule : list nat) :
  secret req = Some (REWARD_ENDPOINT_SECRET cfg) ->
  user_id req = Some uid -> uid <> [] ->
  profile_ref cfg uid = Ok ref ->
  parseInt (points_param req) = Finite p -> 0 < p <= 2 ^ 53 - 1 ->
  integer_balance (db !! ref) b0 ->
  b0 + Z.of_nat (length envs) * p <= 2 ^ 63 - 1 ->
  let final :=
    Contention.run cfg schedule
      (Contention.start db (Contention.arrivals envs req)) in
  balance_of (Contention.store final !! ref)
  = Finite (b0 + Z.of_nat (Contention.credited_count
                             (Contention.stages final)) * p) /\
  (forallb Contention.is_credited (Contention.stages final) = true ->
   balance_of (Contention.store final !! ref)
   = Finite (b0 + Z.of_nat (length envs) * p)) /\
  (forall ref', ref' <> ref -> Contention.store final !! ref' = db !! ref').
Proof.
  intros Hs Hu Hne Href Hp Hsafe Hb Hbound final.
  assert (Hamount : finite_amount req = p)
    by (unfold finite_amount, amount; rewrite Hp; reflexivity).
  assert (Hjobs : Forall (Contention.postback_job cfg uid)
                    (List.map (fun env => (env, req)) envs)).
  { apply Forall_forall. intros job Hjob.
    apply list_elem_of_In, in_map_iff in Hjob as (env & <- & _).
    repeat split; try assumption. exists p. split; [exact Hp | exact Hsafe]. }
  destruct (run_counted cfg uid ref b0 db _ Href Hjobs
              ltac:(rewrite requested_same, Hamount; exact Hbound)
              schedule Hb) as (Hbal & Hdone & Hframe).
  rewrite <- arrivals_arrived in Hbal, Hdone, Hframe.
  fold final in Hbal, Hdone, Hframe.
  rewrite requested_same, Hamount in Hdone.
  rewrite credited_sum_same, Hamount in Hbal.
  - auto.
  - subst final. rewrite run_length.
    cbn [Contention.start Contention.stages].
    unfold Contention.arrivals. apply length_map.
Qed.

(** X14. Validated credits to one user that are in flight together add
    up whatever their amounts: however the event loop interleaves
    their reads and commits, the balance is the balance before plus
    the amounts of the requests answered 200, so plus the sum of all
    the amounts once all are, and no other document has changed.  The
    sum is exact for a balance held as an integer, amounts of at most
    2^53 - 1 and a sum of at most 2^63 - 1. *)
Theorem concurrent_credits_add_up (cfg : Config) (uid : jsstring)
    (ref : DocumentReference) (jobs : list (Env * Request)) (db : Ledger)
    (b0 : Z) (schedule : list nat) :
  profile_ref cfg uid = Ok ref ->
  Forall (Contention.postback_job cfg uid) jobs ->
  integer_balance (db !! ref) b0 ->
  b0 + requested jobs <= 2 ^ 63 - 1 ->
  let final :=
    Contention.run cfg schedule
      (Contention.start db (Contention.arrived jobs)) in
  balance_of (Contention.store final !! ref)
  = Finite (b0 + Contention.credited_sum jobs (Contention.stages final)) /\
  (forallb Contention.is_credited (Contention.stages final) = true ->
   balance_of (Contention.store final !! ref)
   = Finite (b0 + requested jobs)) /\
  (forall ref', ref' <> ref -> Contention.store final !! ref' = db !! ref').
Proof.
  intros Href Hjobs Hb Hbound.
  exact (run_counted cfg uid ref b0 db jobs Href Hjobs Hbound schedule Hb).
Qed.

(** ** Every request comes to its end *)






(** ** A request on its own *)







(** * Worked instances *)



Lemma existing_user_points_incremented_at_u1 :
  response (monetag_reward Sample.cfg Sample.env Sample.req_20 Sample.db_u1)
    = Some {| status := 200; body := "Reward processed." |} /\
  exists p',
    ledger (monetag_reward Sample.cfg Sample.env Sample.req_20 Sample.db_u1)
      !! Sample.u1 = Some p' /\
    points p' = integer 70 /\
    numberValue (points p') = Finite 70 /\
    lastAdWatchDate p' = str "Mon Nov 02 2026".
Proof.
  destruct (existing_user_points_incremented Sample.cfg Sample.env
              Sample.req_20 Sample.db_u1 (str "u1") Sample.u1
              (Sample.profile_with "u1" (integer 50)))
    as (Hst & (p' & Hl & _ & Hsum & _ & _ & _ & Hdate & _) & _);
    try (vm_compute; congruence).
  split; [exact Hst|]. exists p'. split; [exact Hl|].
  destruct (Hsum 50 20) as [Hp Hn];
    try solve [reflexivity | vm_compute; congruence].
  auto.
Defined.

(** The claim of C2 fails on a balance of 2^53, which the store holds
    as a double: a postback with [points=1] is answered 200, and the
    balance is what it was. *)
Lemma increment_lost_on_large_balance :
  let db1 := ledger (monetag_reward Sample.cfg Sample.env Sample.req_2p53 ∅) in
  balance_of (db1 !! Sample.u1) = Finite (2 ^ 53) /\
  parseInt (points_param Sample.req_1) = Finite 1 /\
  response (monetag_reward Sample.cfg Sample.env Sample.req_1 db1)
    = Some {| status := 200; body := "Reward processed." |} /\
  balance_of (ledger (monetag_reward Sample.cfg Sample.env Sample.req_1 db1)
                !! Sample.u1)
    = Finite (2 ^ 53) /\
  Finite (2 ^ 53) <> Finite (2 ^ 53 + 1).
Proof. vm_compute. repeat split; congruence. Qed.

Lemma secret_mismatch_forbidden_at_intruder :
  response (monetag_reward Sample.cfg Sample.env Sample.req_intruder
              Sample.db_u1)
    = Some {| status := 403; body := "Invalid secret." |} /\
  ledger (monetag_reward Sample.cfg Sample.env Sample.req_intruder
            Sample.db_u1) = Sample.db_u1.
Proof.
  apply (secret_mismatch_forbidden Sample.cfg Sample.env Sample.req_intruder
           Sample.db_u1).
  vm_compute. congruence.
Defined.

Lemma secret_checked_before_parameters_at_intruder :
  response (monetag_reward Sample.cfg Sample.env Sample.req_intruder
              Sample.db_u1)
    = Some {| status := 403; body := "Invalid secret." |} /\
  status <$> response (monetag_reward Sample.cfg Sample.env
                         Sample.req_intruder Sample.db_u1) <> Some 400.
Proof.
  destruct (secret_checked_before_parameters Sample.cfg Sample.env
              Sample.req_intruder Sample.db_u1) as (Hr & Hs & _).
  - vm_compute. congruence.
  - vm_compute. reflexivity.
  - split; [exact Hr | exact Hs].
Defined.

Lemma transaction_failure_no_partial_write_at_u1 :
  response (monetag_reward Sample.cfg Sample.env_contended Sample.req_20
              Sample.db_u1)
    = Some {| status := 500;
              body := "Server Error during reward transaction." |} /\
  ledger (monetag_reward Sample.cfg Sample.env_contended Sample.req_20
            Sample.db_u1) = Sample.db_u1.
Proof.
  apply (transaction_failure_no_partial_write Sample.cfg Sample.env_contended
           Sample.req_20 Sample.db_u1 Sample.db_u1 (str "u1") Sample.u1
           Aborted
           (List.repeat
              (ConsoleLog [LText "User "; LStr (str "u1");
                           LText " successfully rewarded "; LNum (Finite 20);
                           LText " points via postback."]) 5));
    first [exact I | vm_compute; congruence].
Defined.

Lemma points_never_decrease_at_u1 :
  exists p',
    ledger (monetag_reward Sample.cfg Sample.env Sample.req_20 Sample.db_u1)
      !! Sample.u1 = Some p' /\
    num_ltb (numberValue (points p')) (Finite 50) = false /\
    num_leb (Finite 50) (numberValue (points p')) = true /\
    nonnegative (numberValue (points p')).
Proof.
  destruct (points_never_decrease Sample.cfg Sample.env Sample.req_20
              Sample.db_u1 Sample.u1 (Sample.profile_with "u1" (integer 50)))
    as (p' & Hl & Hlt & Hle & Hnn).
  - vm_compute. reflexivity.
  - exists p'. repeat split; [exact Hl | exact Hlt | |].
    + apply Hle; vm_compute; congruence.
    + apply Hnn. vm_compute. congruence.
Defined.

Lemma retry_credited_twice_at_u1 :
  exists prof'',
    ledger (monetag_reward Sample.cfg Sample.env Sample.req_20
              (ledger (monetag_reward Sample.cfg Sample.env Sample.req_20
                         Sample.db_u1)))
      !! Sample.u1 = Some prof'' /\
    numberValue (points prof'') = Finite 90.
Proof.
  destruct (retry_credited_twice Sample.cfg Sample.env Sample.env
              Sample.req_20 Sample.db_u1 (str "u1") Sample.u1
              (Sample.profile_with "u1" (integer 50)) 20)
    as (_ & _ & prof'' & Hl & _ & Hsum);
    try solve [lia | vm_compute; congruence].
  exists prof''. split; [exact Hl|].
  destruct (Hsum 50) as [_ Hn];
    try solve [reflexivity | vm_compute; congruence].
  exact Hn.
Defined.

(** The claim of C8 fails for a user created with 2^53 points, a
    balance the store holds as a double: two successive postbacks with
    [points=1] are both answered 200, and the balance is what it was,
    not 2 above. *)
Lemma retry_lost_on_large_balance :
  let db1 := ledger (monetag_reward Sample.cfg Sample.env Sample.req_2p53 ∅) in
  let first := monetag_reward Sample.cfg Sample.env Sample.req_1 db1 in
  let second := monetag_reward Sample.cfg Sample.env Sample.req_1
                  (ledger first) in
  balance_of (db1 !! Sample.u1) = Finite (2 ^ 53) /\
  response first = Some {| status := 200; body := "Reward processed." |} /\
  response second = Some {| status := 200; body := "Reward processed." |} /\
  balance_of (ledger second !! Sample.u1) = Finite (2 ^ 53) /\
  Finite (2 ^ 53) <> Finite (2 ^ 53 + 2 * 1).
Proof. vm_compute. repeat split; congruence. Qed.

Lemma invalid_parameters_iff_at_abc :
  response (monetag_reward Sample.cfg Sample.env
              (Sample.postback (Some (str "abc"))) Sample.db_u1)
    = Some {| status := 400; body := "Invalid parameters." |} /\
  ledger (monetag_reward Sample.cfg Sample.env
            (Sample.postback (Some (str "abc"))) Sample.db_u1)
    = Sample.db_u1.
Proof.
  destruct (invalid_parameters_iff Sample.cfg Sample.env
              (Sample.postback (Some (str "abc"))) Sample.db_u1)
    as [[_ Hback] _].
  - vm_compute. reflexivity.
  - destruct Hback as (Hr & Hl & _).
    + right; right; left. vm_compute. reflexivity.
    + split; [exact Hr | exact Hl].
Defined.

(** The claim of C3 fails at [points=50pts]: the value is not numeric,
    yet the postback is answered 200 and creates the profile with 50
    points. *)
Lemma nonnumeric_points_credited :
  secret Sample.req_50pts = Some (REWARD_ENDPOINT_SECRET Sample.cfg) /\
  points_param Sample.req_50pts = Some (str "50pts") /\
  numeric (str "50pts") = false /\
  response (monetag_reward Sample.cfg Sample.env Sample.req_50pts ∅)
    = Some {| status := 200; body := "Reward processed." |} /\
  ledger (monetag_reward Sample.cfg Sample.env Sample.req_50pts ∅)
    !! Sample.u1
    = Some (new_profile Sample.env (str "u1") (Finite 50)).
Proof. vm_compute. repeat split; reflexivity. Qed.

Lemma no_upper_bound_on_points_at_10p400 :
  response (monetag_reward Sample.cfg Sample.env
              (Sample.postback (Some (decimal (10 ^ 400)))) ∅)
    = Some {| status := 200; body := "Reward processed." |} /\
  balance_of (ledger (monetag_reward Sample.cfg Sample.env
                        (Sample.postback (Some (decimal (10 ^ 400)))) ∅)
                !! Sample.u1)
    = to_binary64 (10 ^ 400).
Proof.
  destruct (no_upper_bound_on_points Sample.cfg Sample.env
              (Sample.postback (Some (decimal (10 ^ 400)))) ∅
              (str "u1") Sample.u1 (10 ^ 400)) as (Hr & _ & _ & _ & Hb);
    try (vm_compute; congruence).
  split; [exact Hr | apply Hb; reflexivity].
Defined.

(** The claim of C9 fails at [points=9007199254740993], which is
    2^53 + 1: the postback is accepted, and the profile is created with
    9007199254740992 points. *)
Lemma large_points_not_credited_in_full :
  points_param Sample.req_2p53_plus_1 = Some (decimal (2 ^ 53 + 1)) /\
  response (monetag_reward Sample.cfg Sample.env Sample.req_2p53_plus_1 ∅)
    = Some {| status := 200; body := "Reward processed." |} /\
  balance_of (ledger (monetag_reward Sample.cfg Sample.env
                        Sample.req_2p53_plus_1 ∅) !! Sample.u1)
    = Finite (2 ^ 53) /\
  Finite (2 ^ 53) <> Finite (2 ^ 53 + 1).
Proof.
  vm_compute. repeat split; try reflexivity. congruence.
Qed.

Lemma concurrent_credits_all_counted_at_three :
  let final :=
    Contention.run Sample.cfg Scenario.race
      (Contention.start ∅ (Contention.arrivals Scenario.three Sample.req_50))
  in
  forallb Contention.is_credited (Contention.stages final) = true /\
  balance_of (Contention.store final !! Sample.u1) = Finite (0 + 3 * 50).
Proof.
  intros final.
  destruct (concurrent_credits_all_counted Sample.cfg Sample.req_50
              (str "u1") Sample.u1 50 0 Scenario.three ∅ Scenario.race)
    as (_ & Hdone & _);
    [solve [vm_compute; congruence | reflexivity
           | vm_compute; intuition congruence]..|].
  fold final in Hdone.
  assert (Hall : forallb Contention.is_credited (Contention.stages final)
                 = true) by (vm_compute; reflexivity).
  split; [exact Hall | exact (Hdone Hall)].
Defined.

(** The claim of C7 fails for credits of 2^53 + 2 each: three of them,
    from no profile, are all answered 200, and the balance is 2 above
    three times the amount, the store having rounded the third sum. *)
Lemma large_concurrent_credits_not_summed :
  let p := 2 ^ 53 + 2 in
  let final :=
    Contention.run Sample.cfg Scenario.in_turn
      (Contention.start ∅
         (Contention.arrivals Scenario.three Sample.req_2p53_plus_2)) in
  parseInt (points_param Sample.req_2p53_plus_2) = Finite p /\
  forallb Contention.is_credited (Contention.stages final) = true /\
  balance_of (Contention.store final !! Sample.u1) = Finite (3 * p + 2) /\
  Finite (3 * p + 2) <> Finite (3 * p).
Proof. vm_compute. repeat split; congruence. Qed.

(** ** [parseInt] on sample values *)

Example parseInt_50 : parseInt (Some (str "50")) = Finite 50.
Proof. reflexivity. Qed.

Example parseInt_trailing_text : parseInt (Some (str "50pts")) = Finite 50.
Proof. reflexivity. Qed.

Example parseInt_fraction : parseInt (Some (str "5.9")) = Finite 5.
Proof. reflexivity. Qed.

Example parseInt_hex : parseInt (Some (str "  -0x1F")) = Finite (-31).
Proof. reflexivity. Qed.

Example parseInt_letters : parseInt (Some (str "abc")) = NaN.
Proof. reflexivity. Qed.

Example parseInt_empty : parseInt (Some []) = NaN.
Proof. reflexivity. Qed.

Example parseInt_undefined : parseInt None = NaN.
Proof. reflexivity. Qed.

Example parseInt_ties_to_even_down :
  parseInt (Some (str "9007199254740993")) = Finite 9007199254740992.
Proof. vm_compute. reflexivity. Qed.

Example parseInt_ties_to_even_up :
  parseInt (Some (str "9007199254740995")) = Finite 9007199254740996.
Proof. vm_compute. reflexivity. Qed.

Example to_binary64_largest :
  to_binary64 (2 ^ 1024 - 2 ^ 970 - 1) = Finite ((2 ^ 53 - 1) * 2 ^ 971).
Proof. vm_compute. reflexivity. Qed.

Example to_binary64_overflow : to_binary64 (2 ^ 1024 - 2 ^ 970) = PosInfinity.
Proof. vm_compute. reflexivity. Qed.

Example zero_points_rejected :
  response (monetag_reward Sample.cfg Sample.env
              (Sample.postback (Some (str "0"))) ∅)
  = Some {| status := 400; body := "Invalid parameters." |}.
Proof. vm_compute. reflexivity. Qed.

(** ** The client and the store on sample values *)

Example profile_ref_u1 : profile_ref Sample.cfg (str "u1") = Ok Sample.u1.
Proof. reflexivity. Qed.

Example profile_ref_slash :
  profile_ref Sample.cfg (str "a/b") = Throw NotADocument.
Proof. reflexivity. Qed.

Example profile_ref_double_slash :
  profile_ref Sample.cfg (str "a//b") = Throw DoubleSlash.
Proof. reflexivity. Qed.

Example profile_ref_three_segments :
  profile_ref Sample.cfg (str "a/b/c")
  = Ok [str "artifacts"; str "kkoin-earner"; str "users";
        str "a"; str "b"; str "c"; str "data"; str "profile"].
Proof. reflexivity. Qed.

Example encodeValue_safe :
  encodeValue (Finite (2 ^ 53 - 1)) = integer (2 ^ 53 - 1).
Proof. vm_compute. reflexivity. Qed.

Example encodeValue_unsafe :
  numberValue (encodeValue (Finite (2 ^ 53))) = Finite (2 ^ 53) /\
  encodeValue (Finite (2 ^ 53)) <> integer (2 ^ 53).
Proof. vm_compute. split; congruence. Qed.

Example value_add_saturates :
  numberValue (value_add (integer (2 ^ 63 - 1)) (encodeValue (Finite 1)))
  = Finite (2 ^ 63 - 1).
Proof. vm_compute. reflexivity. Qed.

Example value_add_rounds :
  numberValue (value_add (integer (2 ^ 53 + 1)) (encodeValue (Finite (2 ^ 53))))
  = Finite (2 ^ 54).
Proof. vm_compute. reflexivity. Qed.

Example unreachable_store :
  monetag_reward Sample.cfg Sample.env_unreachable Sample.req_50 ∅
  = {| response := Some {| status := 500;
                           body := "Server Error during reward transaction." |};
       ledger := ∅;
       console := [ConsoleError
                     [LText "Postback transaction failed for user ";
                      LStr (str "u1"); LText ":"; LErr Unavailable]] |}.
Proof. vm_compute. reflexivity. Qed.

Example denied_store_not_retried :
  monetag_reward Sample.cfg Sample.env_denied Sample.req_50 ∅
  = {| response := Some {| status := 500;
                           body := "Server Error during reward transaction." |};
       ledger := ∅;
       console := [ConsoleError
                     [LText "Postback transaction failed for user ";
                      LStr (str "u1"); LText ":"; LErr PermissionDenied]] |}.
Proof. vm_compute. reflexivity. Qed.

Example contended_twice_then_served :
  response (monetag_reward Sample.cfg Sample.env_contended_twice
              Sample.req_50 ∅) = Some ok_response /\
  length (console (monetag_reward Sample.cfg Sample.env_contended_twice
                     Sample.req_50 ∅)) = 3%nat.
Proof. vm_compute. split; reflexivity. Qed.

(** Three first credits on the schedule where all read before any
    commits: three answers of 200, the line of the function six times,
    and 150 points. *)
Example race_of_three :
  let final :=
    Contention.run Sample.cfg Scenario.race
      (Contention.start ∅ (Contention.arrivals Scenario.three Sample.req_50))
  in
  Contention.stages final
  = [Contention.Settled (Some ok_response);
     Contention.Settled (Some ok_response);
     Contention.Settled (Some ok_response)] /\
  length (Contention.output final) = 6%nat /\
  balance_of (Contention.store final !! Sample.u1) = Finite 150 /\
  size (Contention.store final) = 1%nat.
Proof. vm_compute. repeat split; reflexivity. Qed.

(** * Further worked instances *)

Lemma empty_secret_never_authenticates_at_sample :
  exists s,
    Startup.REWARD_ENDPOINT_SECRET (Startup.read Scenario.penv) = Some s /\
    s <> [] /\
    secret Sample.req_no_secret = None /\
    monetag_reward {| REWARD_ENDPOINT_SECRET := s; APP_ID := str "kkoin" |}
      Sample.env Sample.req_no_secret Sample.db_u1
    = forbidden Sample.req_no_secret Sample.db_u1.
Proof.
  destruct (empty_secret_never_authenticates Scenario.penv
              (Startup.read Scenario.penv) (str "kkoin") Sample.env
              Sample.req_no_secret Sample.db_u1) as (s & Hs & Hne & Hforb).
  - vm_compute. reflexivity.
  - exists s. split; [exact Hs|]. split; [exact Hne|].
    split; [reflexivity|]. apply Hforb. left. reflexivity.
Defined.

Lemma profiles_named_preserved_at_u1 :
  profiles_named Sample.cfg
    (ledger (monetag_reward Sample.cfg Sample.env
               (Scenario.credit_of "u2" "7") Sample.db_u1)).
Proof.
  apply (profiles_named_preserved Sample.cfg Sample.env
           (Scenario.credit_of "u2" "7") Sample.db_u1).
  intros ref p Hp. unfold Sample.db_u1 in Hp.
  apply lookup_singleton_Some in Hp as [<- <-]. reflexivity.
Defined.


Lemma different_users_commute_at_u1_u2 :
  ledger (monetag_reward Sample.cfg Sample.env (Scenario.credit_of "u2" "7")
            (ledger (monetag_reward Sample.cfg Sample.env Sample.req_50 ∅)))
  = ledger (monetag_reward Sample.cfg Sample.env Sample.req_50
              (ledger (monetag_reward Sample.cfg Sample.env
                         (Scenario.credit_of "u2" "7") ∅))).
Proof.
  destruct (different_users_commute Sample.cfg Sample.env Sample.env
              Sample.req_50 (Scenario.credit_of "u2" "7") ∅)
    as (_ & _ & _ & _ & Hl).
  - intros u1 u2 r1 r2 [= <-] [= <-] [= <-] [= <-]. discriminate.
  - exact Hl.
Defined.

Lemma text_around_number_ignored_at_50pts :
  monetag_reward Sample.cfg Sample.env
    (Sample.postback (Some (str "  +50pts"))) ∅
  = monetag_reward Sample.cfg Sample.env
      (with_points (Sample.postback (Some (str "  +50pts")))
         (Some (decimal 50))) ∅.
Proof.
  apply (text_around_number_ignored Sample.cfg Sample.env
           (Sample.postback (Some (str "  +50pts"))) ∅
           (str "  ") Plus 50 (str "pts"));
    first [ lia | discriminate | reflexivity
          | repeat constructor
          | intros [H _]; discriminate H ].
Defined.


Lemma hexadecimal_points_accepted_at_0x10 :
  monetag_reward Sample.cfg Sample.env
    (Sample.postback (Some (str "0x10"))) ∅
  = monetag_reward Sample.cfg Sample.env
      (with_points (Sample.postback (Some (str "0x10")))
         (Some (decimal 16))) ∅.
Proof.
  apply (hexadecimal_points_accepted Sample.cfg Sample.env
           (Sample.postback (Some (str "0x10"))) ∅
           [] NoSign 120%N 16 []);
    first [ lia | discriminate | reflexivity | constructor ].
Defined.

Lemma scenario_postbacks_valid :
  Forall (Contention.postback_job Sample.cfg (str "u1")) Scenario.credits.
Proof.
  repeat constructor; try discriminate;
    (eexists; split; [vm_compute; reflexivity | vm_compute; intuition congruence]).
Qed.

Lemma scenario_credits_valid :
  Forall (credit_job Sample.cfg (str "u1")) Scenario.credits.
Proof.
  repeat constructor; try discriminate;
    (eexists; split; [vm_compute; reflexivity | vm_compute; intuition congruence]).
Qed.

Lemma scenario_balance : integer_balance (Sample.db_u1 !! Sample.u1) 50.
Proof. vm_compute. eexists. split; reflexivity. Qed.

Lemma credits_add_up_at_three :
  fst (handle_all Sample.cfg Scenario.credits Sample.db_u1)
    = [Some ok_response; Some ok_response; Some ok_response] /\
  balance_of (snd (handle_all Sample.cfg Scenario.credits Sample.db_u1)
                !! Sample.u1)
    = Finite (50 + requested Scenario.credits).
Proof.
  apply (credits_add_up Sample.cfg (str "u1") Sample.u1 Scenario.credits
           Sample.db_u1 50).
  - reflexivity.
  - exact scenario_credits_valid.
  - exact scenario_balance.
  - vm_compute. congruence.
Defined.


Lemma concurrent_credits_add_up_at_three :
  let final :=
    Contention.run Sample.cfg Scenario.patient
      (Contention.start Sample.db_u1 (Contention.arrived Scenario.credits)) in
  forallb Contention.is_credited (Contention.stages final) = true /\
  balance_of (Contention.store final !! Sample.u1)
  = Finite (50 + requested Scenario.credits).
Proof.
  intros final.
  destruct (concurrent_credits_add_up Sample.cfg (str "u1") Sample.u1
              Scenario.credits Sample.db_u1 50 Scenario.patient)
    as (_ & Hdone & _).
  - reflexivity.
  - exact scenario_postbacks_valid.
  - exact scenario_balance.
  - vm_compute. congruence.
  - fold final in Hdone.
    assert (Hall : forallb Contention.is_credited (Contention.stages final)
                   = true) by (vm_compute; reflexivity).
    split; [exact Hall | exact (Hdone Hall)].
Defined.


Lemma profile_fields_frozen_at_u1 :
  exists p',
    snd (handle_all Sample.cfg Scenario.mixed Sample.db_u1) !! Sample.u1
      = Some p' /\
    lastAdWatchDate p' = str "Mon Nov 02 2026" /\
    adsWatchedToday p' = integer 1.
Proof.
  destruct (profile_fields_frozen Sample.cfg Scenario.mixed Sample.db_u1
              Sample.u1 (Sample.profile_with "u1" (integer 50)))
    as (p' & Hp' & _ & _ & _ & Hdate & Hads & _).
  - vm_compute. reflexivity.
  - exists p'. auto.
Defined.

Example requested_credits : requested Scenario.credits = 75.
Proof. vm_compute. reflexivity. Qed.

Example startup_without_secret :
  Startup.boot (delete "REWARD_ENDPOINT_SECRET"%string Scenario.penv)
  = Startup.Exit 1
      [ConsoleError
         [LText "CRITICAL ERROR: Missing one or more environment variables."];
       ConsoleError
         [LText "Required: BOT_TOKEN, WEB_APP_URL, REWARD_ENDPOINT_SECRET, FIREBASE_SERVICE_KEY."]].
Proof. vm_compute. reflexivity. Qed.

